(** * Chat statistics: the calendar-day analyzer and the rolling-period script

    A shallow embedding of the programs of the repository:

    - [src/src/main.py], class [ChatAnalyzer] and [main]: per calendar day and
      per sender, a message count, a [words] field and a token list, with the
      voice transcripts merged in a second pass, and the five most common
      tokens of each day;
    - [src/main.py], the script that cuts the sorted messages into periods of
      [days_per_period] days and counts messages and words per sender;
    - [src/ogg_to_wav_to_txt.py], the converter, as far as the names of the
      transcripts it writes.

    Python values are modelled as follows.  A [str] is the [string] of the
    bytes of its UTF-8 encoding (a lone surrogate has none and is left
    out).  What [str.split] takes for white space is written out for the
    whole of Unicode.  [str.lower] and the class [\w] of
    [re] depend on the Unicode character database, which is not modelled:
    the analyzer takes the two functions as given, as it takes the stop
    words and the morphological analysis, and the sample analyzer supplies
    the ones of the ASCII range.  A decoded JSON document is a [json] tree
    whose numbers are integers.  A raised exception is the [Raise] branch of
    [result].  A [dict] is an association list in insertion order, because
    the order of a day's senders decides the order of its tokens.

    [strptime] is modelled on ASCII digits; the other decimal digits of
    Unicode, which its [\d] also accepts, are left out. *)

From Stdlib Require Import ZArith List String Ascii Bool Lia Permutation Sorted.
From Stdlib Require Import DecimalString.
Import ListNotations.

Set Warnings "-register-all".

Local Open Scope string_scope.
Local Open Scope list_scope.

(* ===================================================================== *)
(** * The Python runtime, as far as the programs use it *)
(* ===================================================================== *)

(** ** Exceptions and results *)

Inductive exn : Type :=
| KeyError
| ValueError
| TypeError
| AttributeError
| IndexError
| OverflowError
| OSError.

Inductive result (A : Type) : Type :=
| Ok (a : A)
| Raise (e : exn).

Arguments Ok {A} a.
Arguments Raise {A} e.

Definition bind {A B : Type} (r : result A) (k : A -> result B) : result B :=
  match r with
  | Ok a => k a
  | Raise e => Raise e
  end.

Notation "x <- r ;; k" := (bind r (fun x => k))
  (at level 61, r at next level, right associativity).

(** [try: r except KeyError: handler]. *)
Definition except_KeyError {A : Type} (r : result A) (handler : result A)
  : result A :=
  match r with
  | Raise KeyError => handler
  | _ => r
  end.

(** [try: r except Exception: handler]; every [exn] is an [Exception]. *)
Definition except_Exception {A : Type} (r : result A) (handler : result A)
  : result A :=
  match r with
  | Raise _ => handler
  | _ => r
  end.

(** [[f(x) for x in l]], stopping at the first exception. *)
Fixpoint mapM {A B : Type} (f : A -> result B) (l : list A)
  : result (list B) :=
  match l with
  | [] => Ok []
  | x :: l' => y <- f x ;; ys <- mapM f l' ;; Ok (y :: ys)
  end.

(** [for x in l: s = body(s, x)], stopping at the first exception. *)
Fixpoint foldM {S A : Type} (body : S -> A -> result S) (l : list A) (s : S)
  : result S :=
  match l with
  | [] => Ok s
  | x :: l' => s' <- body s x ;; foldM body l' s'
  end.

(** ** Strings *)

Definition chars (s : string) : list ascii := list_ascii_of_string s.
Definition text (l : list ascii) : string := string_of_list_ascii l.

Definition code (c : ascii) : nat := nat_of_ascii c.

Definition between (lo hi : nat) (c : ascii) : bool :=
  (lo <=? code c)%nat && (code c <=? hi)%nat.

Definition is_digit (c : ascii) : bool := between 48 57 c.
Definition is_upper (c : ascii) : bool := between 65 90 c.
Definition is_lower (c : ascii) : bool := between 97 122 c.

(** The class [\w] of [re] within the ASCII range: letters, digits and the
    underscore. *)
Definition is_word_char (c : ascii) : bool :=
  is_digit c || is_upper c || is_lower c || (code c =? 95)%nat.

(** The lower case of an ASCII character; any other byte is kept. *)
Definition lower_char (c : ascii) : ascii :=
  if is_upper c then ascii_of_nat (code c + 32) else c.

(** [s.lower()] for a string of ASCII characters. *)
Definition ascii_lower (s : string) : string :=
  text (map lower_char (chars s)).

(** [sep.join(l)]. *)
Fixpoint join (sep : string) (l : list string) : string :=
  match l with
  | [] => EmptyString
  | [s] => s
  | s :: l' => (s ++ sep ++ join sep l')%string
  end.

Fixpoint starts_with (p s : list ascii) : bool :=
  match p, s with
  | [], _ => true
  | a :: p', b :: s' => Ascii.eqb a b && starts_with p' s'
  | _ :: _, [] => false
  end.

(** [s.replace(old, new)] for a non-empty [old]: the occurrences of [old]
    are found from left to right and do not overlap.  [skip] counts the
    characters of the occurrence just replaced that are still to be
    dropped. *)
Fixpoint replace_from (old new : list ascii) (skip : nat) (s : list ascii)
  : list ascii :=
  match s with
  | [] => []
  | c :: s' =>
      match skip with
      | S k => replace_from old new k s'
      | O =>
          if starts_with old s
          then new ++ replace_from old new (List.length old - 1) s'
          else c :: replace_from old new 0 s'
      end
  end.

Definition replace (old new s : string) : string :=
  text (replace_from (chars old) (chars new) 0 (chars s)).

(** Maximal runs of the characters satisfying [p]; [cur] is the run being
    read, in reverse. *)
Fixpoint runs (p : ascii -> bool) (cur : list ascii) (s : list ascii)
  : list string :=
  match s with
  | [] => match cur with [] => [] | _ => [text (rev cur)] end
  | c :: s' =>
      if p c then runs p (c :: cur) s'
      else match cur with
           | [] => runs p [] s'
           | _ => text (rev cur) :: runs p [] s'
           end
  end.

(** [re.findall(r'\b\w+\b', s)] for a string of ASCII characters: the
    maximal runs of word characters. *)
Definition ascii_words (s : string) : list string :=
  runs is_word_char [] (chars s).

Definition bytes (l : list nat) : list ascii := map ascii_of_nat l.

(** The characters [str.split()] takes for white space, in UTF-8: tab to
    carriage return, the separators 28 to 31, the space, U+0085, U+00A0,
    U+1680, U+2000 to U+200A, U+2028, U+2029, U+202F, U+205F and U+3000. *)
Definition whitespace : list (list ascii) :=
  map (fun n => bytes [n]) [9; 10; 11; 12; 13; 28; 29; 30; 31; 32]
  ++ [bytes [194; 133]; bytes [194; 160]; bytes [225; 154; 128]]
  ++ map (fun n => bytes [226; 128; n])
         [128; 129; 130; 131; 132; 133; 134; 135; 136; 137; 138]
  ++ [bytes [226; 128; 168]; bytes [226; 128; 169]; bytes [226; 128; 175];
      bytes [226; 129; 159]; bytes [227; 128; 128]].

(** The number of bytes of the white-space character that [s] starts with,
    0 when it starts with none. *)
Definition space_at (s : list ascii) : nat :=
  match find (fun w => starts_with w s) whitespace with
  | Some w => List.length w
  | None => 0
  end.

Definition flush (cur : list ascii) : list string :=
  match cur with
  | [] => []
  | _ => [text (rev cur)]
  end.

(** The maximal runs of characters that are not white space.  [cur] is the
    run being read, in reverse; [skip] counts the bytes of the white-space
    character just met that are still to be passed over. *)
Fixpoint split_from (skip : nat) (cur : list ascii) (s : list ascii)
  : list string :=
  match s with
  | [] => flush cur
  | c :: s' =>
      match skip with
      | S k => split_from k cur s'
      | O =>
          match space_at s with
          | O => split_from 0 (c :: cur) s'
          | S k => flush cur ++ split_from k [] s'
          end
      end
  end.

(** [s.split()]. *)
Definition split_whitespace (s : string) : list string :=
  split_from 0 [] (chars s).

Definition string_mem (s : string) (l : list string) : bool :=
  existsb (String.eqb s) l.

(** ** Decoded JSON *)

(** The value [json.load] returns.  [fields] lists the items of a dict in
    insertion order, with distinct keys. *)
Inductive json : Type :=
| JNull
| JBool (b : bool)
| JInt (z : Z)
| JStr (s : string)
| JArr (items : list json)
| JObj (fields : list (string * json)).

Fixpoint assoc {V : Type} (k : string) (l : list (string * V)) : option V :=
  match l with
  | [] => None
  | (k', v) :: l' => if String.eqb k k' then Some v else assoc k l'
  end.

(** [x[k]] for a string [k]: only a dict can be indexed by a string. *)
Definition subscript (x : json) (k : string) : result json :=
  match x with
  | JObj fields =>
      match assoc k fields with
      | Some v => Ok v
      | None => Raise KeyError
      end
  | _ => Raise TypeError
  end.

(** [x.get(k, default)]: only a dict has the method. *)
Definition get (x : json) (k : string) (default : json) : result json :=
  match x with
  | JObj fields =>
      match assoc k fields with
      | Some v => Ok v
      | None => Ok default
      end
  | _ => Raise AttributeError
  end.

Definition is_dict (x : json) : bool :=
  match x with JObj _ => true | _ => false end.

(** [x == s] for a string constant [s]. *)
Definition eq_str (x : json) (s : string) : bool :=
  match x with JStr t => String.eqb t s | _ => false end.

(** [str(z)] for an integer. *)
Definition str_int (z : Z) : string := NilZero.string_of_int (Z.to_int z).

Definition hex_digit (n : nat) : ascii :=
  if (n <? 10)%nat then ascii_of_nat (48 + n) else ascii_of_nat (87 + n).

(** One byte inside [repr(s)], quoted with [q].  The bytes of a character
    outside the ASCII range are kept, as [repr] keeps a printable character;
    the escapes of the characters of that range that are not printable
    (U+0080 to U+00A0, U+00AD, the separators and the like) are left out. *)
Definition repr_char (q : ascii) (c : ascii) : list ascii :=
  if Ascii.eqb c q || (code c =? 92)%nat then [ascii_of_nat 92; c]
  else if (code c =? 9)%nat then chars "\t"
  else if (code c =? 10)%nat then chars "\n"
  else if (code c =? 13)%nat then chars "\r"
  else if (code c <? 32)%nat || (code c =? 127)%nat
       then chars "\x" ++ [hex_digit (code c / 16); hex_digit (code c mod 16)]
  else [c].

(** [repr(s)] for a string: single quotes, unless the string holds a single
    quote and no double quote. *)
Definition repr_str (s : string) : string :=
  let has c := existsb (Ascii.eqb c) (chars s) in
  let q := if has "'"%char && negb (has (ascii_of_nat 34))
           then ascii_of_nat 34 else "'"%char in
  text (q :: flat_map (repr_char q) (chars s) ++ [q]).

(** [repr(x)]. *)
Fixpoint repr (x : json) : string :=
  match x with
  | JNull => "None"
  | JBool true => "True"
  | JBool false => "False"
  | JInt z => str_int z
  | JStr s => repr_str s
  | JArr items => ("[" ++ join ", " (map repr items) ++ "]")%string
  | JObj fields =>
      ("{" ++ join ", "
         (map (fun kv => (repr_str (fst kv) ++ ": " ++ repr (snd kv))%string)
              fields) ++ "}")%string
  end.

(** [str(x)]: a string is itself, everything else is its [repr]. *)
Definition str (x : json) : string :=
  match x with
  | JStr s => s
  | _ => repr x
  end.

(** ** Dictionary keys *)

(** The hashable values a decoded document can hold.  [True] and [1] are
    equal and hash alike, so a boolean is the key of its integer. *)
Inductive pykey : Type :=
| KNone
| KInt (z : Z)
| KStr (s : string).

Definition key_eqb (a b : pykey) : bool :=
  match a, b with
  | KNone, KNone => true
  | KInt x, KInt y => Z.eqb x y
  | KStr x, KStr y => String.eqb x y
  | _, _ => false
  end.

(** Using [x] as a dict key: lists and dicts are unhashable. *)
Definition as_key (x : json) : result pykey :=
  match x with
  | JNull => Ok KNone
  | JBool b => Ok (KInt (if b then 1 else 0))
  | JInt z => Ok (KInt z)
  | JStr s => Ok (KStr s)
  | JArr _ | JObj _ => Raise TypeError
  end.

(** A dict in insertion order.  [d[k] = f(d.get(k, default))]: an existing
    key keeps its place, a new key goes to the end. *)
Fixpoint update {K V : Type} (eqb : K -> K -> bool) (k : K) (default : V)
    (f : V -> V) (d : list (K * V)) : list (K * V) :=
  match d with
  | [] => [(k, f default)]
  | (k', v) :: d' =>
      if eqb k k' then (k', f v) :: d'
      else (k', v) :: update eqb k default f d'
  end.

Fixpoint lookup {K V : Type} (eqb : K -> K -> bool) (k : K)
    (d : list (K * V)) : option V :=
  match d with
  | [] => None
  | (k', v) :: d' => if eqb k k' then Some v else lookup eqb k d'
  end.

(** ** Dates and times *)

Record datetime : Type := mkdatetime {
  year : Z; month : Z; day : Z; hour : Z; minute : Z; second : Z
}.

(** [datetime.date()]. *)
Record date : Type := mkdate { dyear : Z; dmonth : Z; dday : Z }.

Definition date_of (t : datetime) : date :=
  mkdate (year t) (month t) (day t).

Definition date_eqb (a b : date) : bool :=
  (dyear a =? dyear b)%Z && (dmonth a =? dmonth b)%Z && (dday a =? dday b)%Z.

Definition is_leap (y : Z) : bool :=
  ((y mod 4 =? 0) && (negb (y mod 100 =? 0) || (y mod 400 =? 0)))%Z.

Definition days_in_month (y m : Z) : Z :=
  (if m =? 2 then (if is_leap y then 29 else 28)
   else if (m =? 4) || (m =? 6) || (m =? 9) || (m =? 11) then 30
   else 31)%Z.

Definition days_before_year (y : Z) : Z :=
  (let p := y - 1 in p * 365 + p / 4 - p / 100 + p / 400)%Z.

Fixpoint days_before_month_from (y : Z) (m : nat) : Z :=
  match m with
  | O => 0
  | S m' => (days_before_month_from y m' + days_in_month y (Z.of_nat m))%Z
  end.

(** Days of the year [y] before the first of month [m]. *)
Definition days_before_month (y m : Z) : Z :=
  days_before_month_from y (Z.to_nat (m - 1)).

(** [date.toordinal()]: 1 for 0001-01-01. *)
Definition toordinal (y m d : Z) : Z :=
  (days_before_year y + days_before_month y m + d)%Z.

Definition max_ordinal : Z := toordinal 9999 12 31.

(** A datetime as the instant it denotes: its day number and the second of
    that day.  [<] on datetimes is the lexicographic order of instants, and
    [+ timedelta(days=n)] moves the day number. *)
Definition instant : Type := (Z * Z)%type.

Definition instant_of (t : datetime) : instant :=
  (toordinal (year t) (month t) (day t),
   (hour t * 3600 + minute t * 60 + second t)%Z).

Definition instant_ltb (a b : instant) : bool :=
  ((fst a <? fst b) || ((fst a =? fst b) && (snd a <? snd b)))%Z.

(** [a < b] on datetimes. *)
Definition datetime_ltb (a b : datetime) : bool :=
  instant_ltb (instant_of a) (instant_of b).

(** [t + timedelta(days=n)]: past 9999-12-31 it raises [OverflowError]. *)
Definition add_days (t : instant) (n : Z) : result instant :=
  if (fst t + n <=? max_ordinal)%Z then Ok ((fst t + n)%Z, snd t)
  else Raise OverflowError.

(** *** [datetime.strptime(s, "%Y-%m-%dT%H:%M:%S")] *)

(** The regular expressions [strptime] builds from the directives, matched
    with backtracking as [re] does: [rmatch r s k] tries the ways [r] can
    match a prefix of [s] in order, and takes the first one the rest [k] of
    the pattern accepts. *)
Inductive regex : Type :=
| RChar (p : ascii -> bool)
| RSeq (a b : regex)
| RAlt (a b : regex).

Fixpoint rmatch {A : Type} (r : regex) (s : list ascii)
    (k : list ascii -> option A) : option A :=
  match r with
  | RChar p =>
      match s with
      | c :: s' => if p c then k s' else None
      | [] => None
      end
  | RSeq a b => rmatch a s (fun s' => rmatch b s' k)
  | RAlt a b =>
      match rmatch a s k with
      | Some x => Some x
      | None => rmatch b s k
      end
  end.

Definition rng (lo hi : ascii) : regex :=
  RChar (fun c => between (code lo) (code hi) c).
Definition digit : regex := RChar is_digit.
(** A literal of the format; the pattern is compiled with [IGNORECASE]. *)
Definition lit (a : ascii) : regex :=
  RChar (fun c => Ascii.eqb (lower_char c) (lower_char a)).

(** [%Y]: [\d\d\d\d]. *)
Definition re_Y : regex := RSeq digit (RSeq digit (RSeq digit digit)).
(** [%m]: [1[0-2]|0[1-9]|[1-9]]. *)
Definition re_m : regex :=
  RAlt (RSeq (lit "1") (rng "0" "2"))
       (RAlt (RSeq (lit "0") (rng "1" "9")) (rng "1" "9")).
(** [%d]: [3[0-1]|[1-2]\d|0[1-9]|[1-9]| [1-9]]. *)
Definition re_d : regex :=
  RAlt (RSeq (lit "3") (rng "0" "1"))
       (RAlt (RSeq (rng "1" "2") digit)
             (RAlt (RSeq (lit "0") (rng "1" "9"))
                   (RAlt (rng "1" "9") (RSeq (lit " ") (rng "1" "9"))))).
(** [%H]: [2[0-3]|[0-1]\d|\d]. *)
Definition re_H : regex :=
  RAlt (RSeq (lit "2") (rng "0" "3")) (RAlt (RSeq (rng "0" "1") digit) digit).
(** [%M]: [[0-5]\d|\d]. *)
Definition re_M : regex := RAlt (RSeq (rng "0" "5") digit) digit.
(** [%S]: [6[0-1]|[0-5]\d|\d]. *)
Definition re_S : regex :=
  RAlt (RSeq (lit "6") (rng "0" "1")) (RAlt (RSeq (rng "0" "5") digit) digit).

(** The part of [s] that was consumed to reach the suffix [rest]. *)
Definition taken (s rest : list ascii) : list ascii :=
  firstn (List.length s - List.length rest) s.

(** [int(s)] for a group of the pattern: digits, after an optional space. *)
Definition int_of (s : list ascii) : Z :=
  fold_left (fun n c => if is_digit c then (n * 10 + Z.of_nat (code c - 48))%Z
                        else n) s 0%Z.

Definition groups : Type :=
  (list ascii * list ascii * list ascii * list ascii * list ascii
   * list ascii * list ascii)%type.

(** The match of the whole pattern: the six groups and what is left of the
    string after the match. *)
Definition match_format (s : list ascii) : option groups :=
  rmatch re_Y s (fun s1 =>
  rmatch (lit "-") s1 (fun s2 =>
  rmatch re_m s2 (fun s3 =>
  rmatch (lit "-") s3 (fun s4 =>
  rmatch re_d s4 (fun s5 =>
  rmatch (lit "T") s5 (fun s6 =>
  rmatch re_H s6 (fun s7 =>
  rmatch (lit ":") s7 (fun s8 =>
  rmatch re_M s8 (fun s9 =>
  rmatch (lit ":") s9 (fun s10 =>
  rmatch re_S s10 (fun s11 =>
    Some (taken s s1, taken s2 s3, taken s4 s5, taken s6 s7, taken s8 s9,
          taken s10 s11, s11)))))))))))).

(** The constructor [datetime(y, m, d, H, M, S)] checks its ranges. *)
Definition make_datetime (y m d H M sec : Z) : result datetime :=
  if ((1 <=? y) && (y <=? 9999) && (1 <=? m) && (m <=? 12)
      && (1 <=? d) && (d <=? days_in_month y m)
      && (0 <=? H) && (H <=? 23) && (0 <=? M) && (M <=? 59)
      && (0 <=? sec) && (sec <=? 59))%Z
  then Ok (mkdatetime y m d H M sec)
  else Raise ValueError.

(** [ValueError] when the string does not match the format, when text is
    left after the match, and when the fields are no date or time. *)
Definition strptime (s : string) : result datetime :=
  match match_format (chars s) with
  | None => Raise ValueError
  | Some (gY, gm, gd, gH, gM, gS, rest) =>
      match rest with
      | _ :: _ => Raise ValueError
      | [] => make_datetime (int_of gY) (int_of gm) (int_of gd)
                            (int_of gH) (int_of gM) (int_of gS)
      end
  end.

(** [parse_date], the same in both programs: [strptime] wants a [str]; the
    analyzer's version logs a [ValueError] and raises it again. *)
Definition parse_date (date_str : json) : result datetime :=
  match date_str with
  | JStr s => strptime s
  | _ => Raise TypeError
  end.

(** ** Sorting *)

(** Stable insertion: [before y x] says that [y] goes strictly before [x];
    [x] stood before every element of [l] in the input, so it is put in
    front of the first element that does not go strictly before it. *)
Fixpoint insert {A : Type} (before : A -> A -> bool) (x : A) (l : list A)
  : list A :=
  match l with
  | [] => [x]
  | y :: l' => if before y x then y :: insert before x l' else x :: l
  end.

(** [sorted], a stable sort. *)
Fixpoint sort {A : Type} (before : A -> A -> bool) (l : list A) : list A :=
  match l with
  | [] => []
  | x :: l' => insert before x (sort before l')
  end.

(** The characters of a string: a byte from 128 to 191 continues the
    character before it. *)
Fixpoint characters (s : list ascii) : list (list ascii) :=
  match s with
  | [] => []
  | c :: s' =>
      match characters s' with
      | (d :: next) :: rest =>
          if between 128 191 d then (c :: d :: next) :: rest
          else [c] :: (d :: next) :: rest
      | _ => [[c]]
      end
  end.

(** What a [for] loop, or [sorted], sees of a value. *)
Definition iterate (x : json) : result (list json) :=
  match x with
  | JArr items => Ok items
  | JStr s => Ok (map (fun c => JStr (text c)) (characters (chars s)))
  | JObj fields => Ok (map (fun kv => JStr (fst kv)) fields)
  | _ => Raise TypeError
  end.

(** [sorted(messages, key=lambda x: parse_date(x['date']))]: the keys are
    computed first, one per message and in order. *)
Definition sort_key (x : json) : result (datetime * json) :=
  d <- subscript x "date" ;;
  t <- parse_date d ;;
  Ok (t, x).

Definition sorted_by_date (messages : list json) : result (list json) :=
  keyed <- mapM sort_key messages ;;
  Ok (map snd (sort (fun a b => datetime_ltb (fst a) (fst b)) keyed)).

(** ** The file system *)

(** What a path leads to: nothing that is a regular file, a text file, or a
    file that [open] or [read] fails on. *)
Inductive file : Type :=
| NoFile
| TextFile (content : string)
| Unreadable.

Definition filesystem : Type := string -> file.

(** The file system without the file at [path]. *)
Definition remove_file (path : string) (fs : filesystem) : filesystem :=
  fun p => if String.eqb p path then NoFile else fs p.

(** [os.path.isfile(path)]. *)
Definition isfile (fs : filesystem) (path : string) : bool :=
  match fs path with NoFile => false | _ => true end.

(** [with open(path, 'r', encoding='utf-8') as file: file.read()]. *)
Definition read_text (fs : filesystem) (path : string) : result string :=
  match fs path with
  | TextFile content => Ok content
  | _ => Raise OSError
  end.

(** [ref.replace("voice_messages", "voice_messages_txt")
        .replace(".ogg", ".txt")]: a value without [replace] raises. *)
Definition transcript_path (ref : json) : result string :=
  match ref with
  | JStr s =>
      Ok (replace ".ogg" ".txt" (replace "voice_messages" "voice_messages_txt" s))
  | _ => Raise AttributeError
  end.

(* ===================================================================== *)
(** * [src/src/main.py]: the calendar-day analyzer *)
(* ===================================================================== *)

Module ChatAnalyzer.

(** One analysis of a word by [pymorphy3]: the grammemes of its tag and its
    normal form. *)
Record parse : Type := mkparse {
  tag : list string;
  normal_form : string
}.

(** What the analysis takes as given.  Two fields of [self]: the stop
    words, and [morph.parse(token)[0]], the first analysis of a token.  And
    the two functions of the library that depend on the Unicode character
    database: [text.lower()] and [re.findall(r'\b\w+\b', text)].  All that
    is used of them is that the empty string is its own lower case and has
    no word. *)
Record analyzer : Type := mkanalyzer {
  stopwords : list string;
  morph_parse : string -> parse;
  lower : string -> string;
  findall_words : string -> list string;
  lower_empty : lower EmptyString = EmptyString;
  findall_words_empty : findall_words EmptyString = []
}.

(** [{'messages': 0, 'words': 0, 'tokens': []}]. *)
Record stats : Type := mkstats {
  messages : nat;
  words : nat;
  tokens : list string
}.

Definition new_stats : stats := mkstats 0 0 [].

(** [DailyCounts]: date, then sender, then the statistics. *)
Definition sender_counts : Type := list (pykey * stats).
Definition daily_counts : Type := list (date * sender_counts).

Definition content_tags : list string := ["NOUN"; "VERB"; "ADJS"; "ADJF"].

(** The body of the loop of [tokenize_and_lemmatize] for one token. *)
Definition lemmatize (self : analyzer) (token : string) : list string :=
  if string_mem token (stopwords self) then []
  else
    let parsed := morph_parse self token in
    if existsb (fun pos => string_mem pos (tag parsed)) content_tags
    then [normal_form parsed]
    else [].

(** [tokenize_and_lemmatize] of a string. *)
Definition tokenize_str (self : analyzer) (s : string) : list string :=
  flat_map (lemmatize self) (findall_words self (lower self s)).

(** [tokenize_and_lemmatize(text)]: [text.lower()] is the first thing it
    does, and only a [str] has it. *)
Definition tokenize_and_lemmatize (self : analyzer) (text : json)
  : result (list string) :=
  match text with
  | JStr s => Ok (tokenize_str self s)
  | _ => Raise AttributeError
  end.

(** [process_voice_message]: whatever is raised inside the [try] is caught
    and gives the empty list. *)
Definition process_voice_message (self : analyzer) (fs : filesystem)
    (voice_path : json) : result (list string) :=
  except_Exception
    (txt_path <- transcript_path voice_path ;;
     if negb (isfile fs txt_path) then Ok []
     else content <- read_text fs txt_path ;;
          tokenize_and_lemmatize self (JStr content))
    (Ok []).

(** [daily_counts[d][sender]['messages'] += 1]. *)
Definition count_message (d : date) (sender : pykey) (dc : daily_counts)
  : daily_counts :=
  update date_eqb d []
    (update key_eqb sender new_stats
       (fun st => mkstats (S (messages st)) (words st) (tokens st))) dc.

(** [daily_counts[d][sender]['tokens'].extend(toks)]. *)
Definition extend_tokens (d : date) (sender : pykey) (toks : list string)
    (dc : daily_counts) : daily_counts :=
  update date_eqb d []
    (update key_eqb sender new_stats
       (fun st => mkstats (messages st) (words st) (tokens st ++ toks))) dc.

(** [' '.join(item['text'] if isinstance(item, dict) else str(item)
              for item in text)]: the items are computed first, then [join]
    refuses an item that is not a string. *)
Definition segment (item : json) : result json :=
  if is_dict item then subscript item "text" else Ok (JStr (str item)).

Definition as_str (x : json) : result string :=
  match x with
  | JStr s => Ok s
  | _ => Raise TypeError
  end.

Definition join_segments (items : list json) : result json :=
  segs <- mapM segment items ;;
  strs <- mapM as_str segs ;;
  Ok (JStr (join " " strs)).

Definition voice_task : Type := (date * pykey * json)%type.

(** The body of the first loop of [analyze_chat], on the state
    [(daily_counts, voice_tasks)]. *)
Definition ingest (self : analyzer) (st : daily_counts * list voice_task)
    (message : json) : result (daily_counts * list voice_task) :=
  let '(dc, voice_tasks) := st in
  date_str <- subscript message "date" ;;
  t <- parse_date date_str ;;
  let message_date := date_of t in
  from <- get message "from" (JStr "Unknown") ;;
  sender <- as_key from ;;
  let dc := count_message message_date sender dc in
  media_type <- get message "media_type" JNull ;;
  if eq_str media_type "voice_message" then
    file <- subscript message "file" ;;
    Ok (dc, voice_tasks ++ [(message_date, sender, file)])
  else
    text <- get message "text" (JStr EmptyString) ;;
    text <- (match text with
             | JArr items => join_segments items
             | _ => Ok text
             end) ;;
    toks <- tokenize_and_lemmatize self text ;;
    Ok (extend_tokens message_date sender toks dc, voice_tasks).

(** The body of the second loop, on the state
    [(daily_counts, unrecognized_voice_count)]: [tokens = await task] runs
    the coroutine made in the first loop; an empty list is false. *)
Definition merge (self : analyzer) (fs : filesystem)
    (st : daily_counts * nat) (task : voice_task)
  : result (daily_counts * nat) :=
  let '(dc, unrecognized_voice_count) := st in
  let '(message_date, sender, file) := task in
  toks <- process_voice_message self fs file ;;
  match toks with
  | [] => Ok (dc, S unrecognized_voice_count)
  | _ => Ok (extend_tokens message_date sender toks dc,
             unrecognized_voice_count)
  end.

(** The first loop of [analyze_chat], from the decoded document on: the
    counts of the text messages and the voice tasks, in message order. *)
Definition schedule (self : analyzer) (data : json)
  : result (daily_counts * list voice_task) :=
  msgs <- subscript data "messages" ;;
  msgs <- iterate msgs ;;
  sorted <- sorted_by_date msgs ;;
  foldM (ingest self) sorted ([], []).

(** [analyze_chat], from the decoded document on. *)
Definition analyze_chat (self : analyzer) (fs : filesystem) (data : json)
  : result (daily_counts * nat) :=
  st <- schedule self data ;;
  foldM (merge self fs) (snd st) (fst st, 0).

(** [Counter(toks)]: each token with its count, in order of first
    occurrence. *)
Definition Counter (toks : list string) : list (string * nat) :=
  fold_left (fun c t => update String.eqb t 0 S c) toks [].

(** [c.most_common(n)]: [heapq.nlargest(n, c.items(), key=count)], that is
    [sorted(c.items(), key=count, reverse=True)[:n]]. *)
Definition most_common (n : nat) (c : list (string * nat))
  : list (string * nat) :=
  firstn n (sort (fun a b => (snd b <? snd a)%nat) c).

(** The ranking of [main]: the [n] most common tokens of a token list. *)
Definition top_words (n : nat) (toks : list string) : list (string * nat) :=
  most_common n (Counter toks).

Definition date_ltb (a b : date) : bool :=
  ((dyear a <? dyear b)
   || ((dyear a =? dyear b)
       && ((dmonth a <? dmonth b)
           || ((dmonth a =? dmonth b) && (dday a <? dday b)))))%Z.

(** [main]: for each day in ascending order, the five most common tokens of
    all its senders. *)
Definition top_words_per_day (dc : daily_counts)
  : list (date * list (string * nat)) :=
  map (fun entry =>
         (fst entry, top_words 5 (flat_map (fun s => tokens (snd s)) (snd entry))))
      (sort (fun a b => date_ltb (fst a) (fst b)) dc).

(** [l[::step]] for a positive [step]; [skip] counts the items to pass
    over before the next one that is taken. *)
Fixpoint stride {A : Type} (step skip : nat) (l : list A) : list A :=
  match l with
  | [] => []
  | x :: l' =>
      match skip with
      | O => x :: stride step (step - 1) l'
      | S skip' => stride step skip' l'
      end
  end.

(** [plot_activity]: [dates[::max(1, len(dates) // 10)]], the dates that
    get a tick on the axis. *)
Definition date_ticks (dates : list date) : list date :=
  stride (Nat.max 1 (List.length dates / 10)) 0 dates.

(** [main]: [sorted(daily_counts.keys())]. *)
Definition dates_with_activity (dc : daily_counts) : list date :=
  sort date_ltb (map fst dc).

End ChatAnalyzer.

(* ===================================================================== *)
(** * [src/main.py]: the rolling-period script *)
(* ===================================================================== *)

Module PeriodScript.

Definition days_per_period : Z := 30.

(** [{'messages': 0, 'words': 0}]. *)
Record counts : Type := mkcounts {
  messages : nat;
  words : nat
}.

Definition new_counts : counts := mkcounts 0 0.

Definition period_count : Type := list (pykey * counts).

(** The first loop: messages per sender, and the number of messages
    without a sender. *)
Definition count_sender (st : list (pykey * nat) * nat) (message : json)
  : result (list (pykey * nat) * nat) :=
  let '(message_count, not_message) := st in
  except_KeyError
    (from <- subscript message "from" ;;
     sender <- as_key from ;;
     Ok (update key_eqb sender 0 S message_count, not_message))
    (Ok (message_count, S not_message)).

(** [count_words]. *)
Definition item_text (item : json) : result json :=
  if is_dict item then subscript item "text" else Ok item.

Definition count_words (text : json) : result nat :=
  text <- (match text with
           | JArr items =>
               segs <- mapM item_text items ;;
               strs <- mapM ChatAnalyzer.as_str segs ;;
               Ok (JStr (join " " strs))
           | _ => Ok text
           end) ;;
  match text with
  | JStr s => Ok (List.length (split_whitespace s))
  | _ => Raise AttributeError
  end.

Definition add_message (sender : pykey) (pc : period_count) : period_count :=
  update key_eqb sender new_counts
    (fun c => mkcounts (S (messages c)) (words c)) pc.

Definition add_words (sender : pykey) (n : nat) (pc : period_count)
  : period_count :=
  update key_eqb sender new_counts
    (fun c => mkcounts (messages c) (words c + n)) pc.

(** The body of the loop over the messages of a finished period, on the
    state [(period_count, unrecognized_voice_count)].  A [KeyError] leaves
    the [try] with what was counted before it. *)
Definition count_one (fs : filesystem) (st : period_count * nat) (msg : json)
  : result (period_count * nat) :=
  let '(pc, unrecognized) := st in
  except_KeyError
    (from <- subscript msg "from" ;;
     sender <- as_key from ;;
     let pc := add_message sender pc in
     except_KeyError
       (media_type <- get msg "media_type" JNull ;;
        if eq_str media_type "voice_message" then
          file <- subscript msg "file" ;;
          voice_path <- transcript_path file ;;
          if isfile fs voice_path then
            voice_content <- read_text fs voice_path ;;
            n <- count_words (JStr voice_content) ;;
            Ok (add_words sender n pc, unrecognized)
          else Ok (pc, S unrecognized)
        else
          text <- subscript msg "text" ;;
          n <- count_words text ;;
          Ok (add_words sender n pc, unrecognized))
       (Ok (pc, unrecognized)))
    (Ok (pc, unrecognized)).

(** The variables of the main loop. *)
Record state : Type := mkstate {
  periods : list (list json);
  period_counts : list period_count;
  current_period : list json;
  current_period_end : instant;
  unrecognized_voice_count : nat
}.

(** The body of the main loop. *)
Definition step (fs : filesystem) (st : state) (message : json)
  : result state :=
  date_str <- subscript message "date" ;;
  message_date <- parse_date date_str ;;
  if instant_ltb (instant_of message_date) (current_period_end st) then
    Ok (mkstate (periods st) (period_counts st)
                (current_period st ++ [message])
                (current_period_end st) (unrecognized_voice_count st))
  else
    counted <- foldM (count_one fs) (current_period st)
                     ([], unrecognized_voice_count st) ;;
    let '(pc, unrecognized) := counted in
    next_end <- add_days (current_period_end st) days_per_period ;;
    Ok (mkstate (periods st ++ [current_period st])
                (period_counts st ++ [pc])
                [message] next_end unrecognized).

(** What the script has computed when it starts to plot. *)
Record outcome : Type := mkoutcome {
  message_count : list (pykey * nat);
  not_message : nat;
  start_date : datetime;
  final : state;
  period_labels : list instant
}.

(** The script, from the decoded document to the labels of the plot. *)
Definition run (fs : filesystem) (data : json) : result outcome :=
  msgs <- subscript data "messages" ;;
  _ <- subscript data "name" ;;
  messages <- iterate msgs ;;
  totals <- foldM count_sender messages ([], 0) ;;
  messages_sorted <- sorted_by_date messages ;;
  first <- (match messages_sorted with
            | m :: _ => Ok m
            | [] => Raise IndexError
            end) ;;
  date_str <- subscript first "date" ;;
  start <- parse_date date_str ;;
  first_end <- add_days (instant_of start) days_per_period ;;
  st <- foldM (step fs) messages_sorted (mkstate [] [] [] first_end 0) ;;
  labels <- mapM (fun i => add_days (instant_of start)
                             (days_per_period * Z.of_nat i))
                 (seq 0 (List.length (period_counts st))) ;;
  Ok (mkoutcome (fst totals) (snd totals) start st labels).

End PeriodScript.

(* ===================================================================== *)
(** * [src/ogg_to_wav_to_txt.py]: where the transcripts are written *)
(* ===================================================================== *)

Module Converter.

(** [name.endswith(suffix)]. *)
Definition endswith (name suffix : string) : bool :=
  starts_with (rev (chars suffix)) (rev (chars name)).

(** What stands before the last dot of a name, read from its reversal. *)
Fixpoint before_last_dot (reversed : list ascii) : option (list ascii) :=
  match reversed with
  | [] => None
  | c :: r => if Ascii.eqb c "." then Some r else before_last_dot r
  end.

(** [os.path.splitext(name)[0]] for a file name without a directory, as
    [os.listdir] gives it: the name up to its last dot; the whole name
    when it has no dot, or nothing but dots before the last one. *)
Definition splitext_root (name : string) : string :=
  match before_last_dot (rev (chars name)) with
  | Some r => if forallb (Ascii.eqb ".") r then name else text (rev r)
  | None => name
  end.

(** The first loop: the name of the [.wav] file made from a recording whose
    name ends in [.ogg]. *)
Definition wav_name (filename : string) : option string :=
  if endswith filename ".ogg"
  then Some (splitext_root filename ++ ".wav")%string
  else None.

(** The second loop: the name of the text file written for a [.wav] file,
    when the speech is recognized. *)
Definition txt_name (filename : string) : option string :=
  if endswith filename ".wav"
  then Some (splitext_root filename ++ ".txt")%string
  else None.

(** The path of the transcript of a recording of [voice_messages], when
    one is written: [os.path.join(text_folder, ...)], with the separator
    of the references of the export. *)
Definition transcript_of (recording : string) : option string :=
  match wav_name recording with
  | Some wav =>
      match txt_name wav with
      | Some txt => Some ("voice_messages_txt/" ++ txt)%string
      | None => None
      end
  | None => None
  end.

End Converter.

(* ===================================================================== *)
(** * The rules of the specification that the programs are compared with *)
(* ===================================================================== *)

Module Spec.

(** Rolling period, as the specification words it: the cursor
    [(currentKey, currentEnd)] advances while [t >= currentEnd].  [fuel]
    bounds the number of advances. *)
Fixpoint advance (fuel : nat) (width : Z) (cursor : Z * instant) (t : instant)
  : Z * instant :=
  match fuel with
  | O => cursor
  | S fuel' =>
      if instant_ltb t (snd cursor) then cursor
      else advance fuel' width
             ((fst cursor + 1)%Z,
              ((fst (snd cursor) + width)%Z, snd (snd cursor))) t
  end.

(** One advance per day between the boundary and [t] is enough when the
    width is at least a day. *)
Definition assign (width : Z) (cursor : Z * instant) (t : instant)
  : Z * instant :=
  advance (S (Z.to_nat (fst t - fst (snd cursor)))) width cursor t.

(** The keys of a sorted list of instants, from the first one on. *)
Fixpoint assign_all (width : Z) (cursor : Z * instant) (ts : list instant)
  : list Z :=
  match ts with
  | [] => []
  | t :: ts' =>
      let c := assign width cursor t in
      fst c :: assign_all width c ts'
  end.

Definition keys (width : Z) (ts : list instant) : list Z :=
  match ts with
  | [] => []
  | start :: _ =>
      assign_all width (0%Z, ((fst start + width)%Z, snd start)) ts
  end.

(** Transcript path, as the specification words it: the directory segment
    [voice_messages] becomes [voice_messages_txt], and a trailing [.ogg]
    becomes [.txt]. *)
Fixpoint split_on (sep : ascii) (cur : list ascii) (s : list ascii)
  : list string :=
  match s with
  | [] => [text (rev cur)]
  | c :: s' =>
      if Ascii.eqb c sep then text (rev cur) :: split_on sep [] s'
      else split_on sep (c :: cur) s'
  end.

Definition ends_with (suffix s : list ascii) : bool :=
  starts_with (rev suffix) (rev s).

Definition transcript_path (ref : string) : string :=
  let segments := split_on "/" [] (chars ref) in
  let renamed :=
    map (fun seg => if String.eqb seg "voice_messages"
                    then "voice_messages_txt" else seg) segments in
  let path := chars (join "/" renamed) in
  if ends_with (chars ".ogg") path
  then text (firstn (List.length path - 4) path ++ chars ".txt")
  else text path.

(** The aggregator, as the specification words it: bucket, then sender,
    then the statistics, a record being created on first reference. *)
Record entry : Type := mkentry {
  message_count : nat;
  word_count : nat;
  tokens : list string
}.

Definition empty_entry : entry := mkentry 0 0 [].

Definition aggregator : Type := list (date * list (pykey * entry)).

Definition RecordMessage (bucket : date) (sender : pykey) (agg : aggregator)
  : aggregator :=
  update date_eqb bucket []
    (update key_eqb sender empty_entry
       (fun e => mkentry (S (message_count e)) (word_count e) (tokens e)))
    agg.

Definition RecordTokens (bucket : date) (sender : pykey) (toks : list string)
    (agg : aggregator) : aggregator :=
  update date_eqb bucket []
    (update key_eqb sender empty_entry
       (fun e => mkentry (message_count e)
                         (word_count e + List.length toks)
                         (tokens e ++ toks)))
    agg.

(** A message that has a bucket and a sender: inline text, already
    tokenized, or the reference of a voice recording. *)
Inductive content : Type :=
| Inline (toks : list string)
| VoiceReference (reference : json).

Record message : Type := mkmessage {
  bucket : date;
  sender : pykey;
  body : content
}.

(** A scheduled resolution: the reference, with the bucket and the sender
    captured as context. *)
Definition scheduled : Type := (date * pykey * json)%type.

(** Phase 1 for one message: [RecordMessage] always, [RecordTokens] at once
    for inline text, and a voice reference is scheduled. *)
Definition ingest (st : aggregator * list scheduled) (m : message)
  : aggregator * list scheduled :=
  let agg := RecordMessage (bucket m) (sender m) (fst st) in
  match body m with
  | Inline toks => (RecordTokens (bucket m) (sender m) toks agg, snd st)
  | VoiceReference reference =>
      (agg, snd st ++ [(bucket m, sender m, reference)])
  end.

(** The scheduled resolutions complete in the order [completion], a list of
    positions in the schedule; each result is kept under the position of
    its task. *)
Definition resolve_all (resolve : json -> list string)
    (tasks : list scheduled) (completion : list nat)
  : list (nat * list string) :=
  flat_map (fun i =>
              match nth_error tasks i with
              | Some (_, _, reference) => [(i, resolve reference)]
              | None => []
              end) completion.

(** One result applied: [RecordTokens] under the captured bucket and
    sender; a resolution without tokens, or one that never completed,
    counts as unrecognized. *)
Definition apply_result (st : aggregator * nat) (task : scheduled)
    (result : option (list string)) : aggregator * nat :=
  let '(bucket, sender, _) := task in
  match result with
  | Some (tok :: toks) =>
      (RecordTokens bucket sender (tok :: toks) (fst st), snd st)
  | _ => (fst st, S (snd st))
  end.

(** Phase 2 for one task of the schedule, at its position. *)
Definition merge (results : list (nat * list string))
    (st : aggregator * nat) (indexed : nat * scheduled) : aggregator * nat :=
  apply_result st (snd indexed) (lookup Nat.eqb (fst indexed) results).

(** The two phases on a batch in message order: the aggregator and the
    unrecognized-voice counter.  The results are applied in the order of
    the schedule, whatever the completion order. *)
Definition pipeline (resolve : json -> list string) (completion : list nat)
    (batch : list message) : aggregator * nat :=
  let '(agg, tasks) := fold_left ingest batch ([], []) in
  fold_left (merge (resolve_all resolve tasks completion))
            (combine (seq 0 (List.length tasks)) tasks) (agg, 0).

(** The voice references of a batch, in message order. *)
Definition references (batch : list message) : list json :=
  flat_map (fun m => match body m with
                     | Inline _ => []
                     | VoiceReference reference => [reference]
                     end) batch.

(** The report: the buckets in ascending order, each with the ranking of
    all its tokens, sender after sender. *)
Definition report {R : Type} (rank : list string -> R) (agg : aggregator)
  : list (date * R) :=
  map (fun day => (fst day, rank (flat_map (fun s => tokens (snd s)) (snd day))))
      (sort (fun a b => ChatAnalyzer.date_ltb (fst a) (fst b)) agg).

End Spec.

(* ===================================================================== *)
(** * Sample inputs *)
(* ===================================================================== *)

Module Sample.

(** An analyzer for the examples, which are in ASCII: [the] is the only
    stop word, every other token is a noun in its normal form, and lower
    case and words are those of the ASCII range. *)
Definition nouns : ChatAnalyzer.analyzer :=
  ChatAnalyzer.mkanalyzer ["the"] (fun t => ChatAnalyzer.mkparse ["NOUN"] t)
    ascii_lower ascii_words eq_refl eq_refl.

Definition no_files : filesystem := fun _ => NoFile.

Definition with_file (path content : string) (fs : filesystem) : filesystem :=
  fun p => if String.eqb p path then TextFile content else fs p.

Definition message (date sender text : string) : json :=
  JObj [("date", JStr date); ("from", JStr sender); ("text", JStr text)].

Definition anonymous (date text : string) : json :=
  JObj [("date", JStr date); ("text", JStr text)].

Definition voice (date sender file : string) : json :=
  JObj [("date", JStr date); ("from", JStr sender);
        ("media_type", JStr "voice_message"); ("file", JStr file)].

Definition export (msgs : list json) : json :=
  JObj [("name", JStr "chat"); ("messages", JArr msgs)].

End Sample.

(* ===================================================================== *)
(** * The notions the statements are written in *)
(* ===================================================================== *)

(** A value that is neither a string nor a list. *)
Definition other_shape (x : json) : bool :=
  match x with
  | JStr _ | JArr _ => false
  | _ => true
  end.

(** How often [t] stands in [toks]. *)
Definition frequency (t : string) (toks : list string) : nat :=
  count_occ string_dec toks t.

(** The position of the first [t] in [toks]; the length when there is
    none. *)
Fixpoint first_pos (t : string) (toks : list string) : nat :=
  match toks with
  | [] => 0
  | x :: l => if String.eqb t x then 0 else S (first_pos t l)
  end.

(** The order of the ranking on entries [(token, count)]: the larger count
    first, and among equal counts the token that occurs first. *)
Definition ranks_before (toks : list string) (a b : string * nat) : Prop :=
  snd b < snd a
  \/ (snd a = snd b /\ first_pos (fst a) toks < first_pos (fst b) toks).

(** The complete ranking of a token list. *)
Definition ranking (toks : list string) : list (string * nat) :=
  sort (fun a b => (snd b <? snd a)%nat) (ChatAnalyzer.Counter toks).

(** The day the analyzer files a message under, when its date parses. *)
Definition day_of (m : json) : option date :=
  match (d <- subscript m "date" ;; t <- parse_date d ;; Ok (date_of t)) with
  | Ok d => Some d
  | Raise _ => None
  end.

(** The sender the analyzer files a message under. *)
Definition sender_of (m : json) : option pykey :=
  match (from <- get m "from" (JStr "Unknown") ;; as_key from) with
  | Ok k => Some k
  | Raise _ => None
  end.

Definition on_day (d : date) (m : json) : bool :=
  match day_of m with
  | Some d' => date_eqb d d'
  | None => false
  end.

Definition filed_under (d : date) (k : pykey) (m : json) : bool :=
  on_day d m
  && match sender_of m with
     | Some k' => key_eqb k k'
     | None => false
     end.

(** [daily_counts[d][k]['messages']], 0 without the record. *)
Definition message_count (dc : ChatAnalyzer.daily_counts) (d : date)
    (k : pykey) : nat :=
  match lookup date_eqb d dc with
  | Some senders =>
      match lookup key_eqb k senders with
      | Some st => ChatAnalyzer.messages st
      | None => 0
      end
  | None => 0
  end.

Definition sum_messages (senders : ChatAnalyzer.sender_counts) : nat :=
  list_sum (map (fun e => ChatAnalyzer.messages (snd e)) senders).

(** The messages of day [d], summed over its senders. *)
Definition day_total (dc : ChatAnalyzer.daily_counts) (d : date) : nat :=
  match lookup date_eqb d dc with
  | Some senders => sum_messages senders
  | None => 0
  end.

Definition indicator (b : bool) : nat := if b then 1 else 0.

(** The reference of a voice message that the first loop schedules. *)
Definition voice_file (m : json) : list json :=
  match get m "media_type" JNull, subscript m "file" with
  | Ok media_type, Ok file =>
      if eq_str media_type "voice_message" then [file] else []
  | _, _ => []
  end.

(** Every record of the counts has [words] 0. *)
Definition words_all_zero (dc : ChatAnalyzer.daily_counts) : Prop :=
  Forall (fun day => Forall (fun e => ChatAnalyzer.words (snd e) = 0)
                            (snd day)) dc.

(** Three instants with a gap: day 0, day 100 and day 101, at ten o'clock. *)
Definition sparse_instants : list instant :=
  [(toordinal 2024 1 1, 36000%Z); (toordinal 2024 4 10, 36000%Z);
   (toordinal 2024 4 11, 36000%Z)].

(** Two datetimes that denote the same instant. *)
Definition same_instant (a b : datetime) : bool :=
  negb (datetime_ltb a b) && negb (datetime_ltb b a).

(** The date of the message parses, to the instant of [t]. *)
Definition dated (t : datetime) (m : json) : bool :=
  match sort_key m with
  | Ok (t', _) => same_instant t' t
  | Raise _ => false
  end.

(** The dates of both messages parse, and [b] is not earlier than [a]. *)
Definition in_order (a b : json) : bool :=
  match sort_key a, sort_key b with
  | Ok (ta, _), Ok (tb, _) => negb (datetime_ltb tb ta)
  | _, _ => false
  end.

(** All the messages counted, over all days and senders. *)
Definition total_messages (dc : ChatAnalyzer.daily_counts) : nat :=
  list_sum (map (fun day => sum_messages (snd day)) dc).

(** [daily_counts[d][k]], the new record when there is none. *)
Definition stats_of (dc : ChatAnalyzer.daily_counts) (d : date) (k : pykey)
  : ChatAnalyzer.stats :=
  match lookup date_eqb d dc with
  | Some senders =>
      match lookup key_eqb k senders with
      | Some st => st
      | None => ChatAnalyzer.new_stats
      end
  | None => ChatAnalyzer.new_stats
  end.

(** The tokens the first loop takes from the text of a message; none for a
    voice message. *)
Definition text_tokens (self : ChatAnalyzer.analyzer) (m : json)
  : list string :=
  match
    (media_type <- get m "media_type" JNull ;;
     if eq_str media_type "voice_message" then Ok []
     else
       text <- get m "text" (JStr EmptyString) ;;
       text <- (match text with
                | JArr items => ChatAnalyzer.join_segments items
                | _ => Ok text
                end) ;;
       ChatAnalyzer.tokenize_and_lemmatize self text)
  with
  | Ok toks => toks
  | Raise _ => []
  end.

(** The tokens the second loop takes from the transcript of a reference. *)
Definition resolved (self : ChatAnalyzer.analyzer) (fs : filesystem)
    (file : json) : list string :=
  match ChatAnalyzer.process_voice_message self fs file with
  | Ok toks => toks
  | Raise _ => []
  end.

Definition voice_tokens (self : ChatAnalyzer.analyzer) (fs : filesystem)
    (m : json) : list string :=
  flat_map (resolved self fs) (voice_file m).

Definition unresolved (self : ChatAnalyzer.analyzer) (fs : filesystem)
    (file : json) : bool :=
  match resolved self fs file with [] => true | _ => false end.

(** The task the first loop schedules for a message. *)
Definition task_of (m : json) : list ChatAnalyzer.voice_task :=
  match day_of m, sender_of m with
  | Some d, Some k => map (fun file => (d, k, file)) (voice_file m)
  | _, _ => []
  end.

(** A batch of two days for the examples: a text and a voice message of
    [B] on the second day, a text of [A] on the first, given out of
    order; the transcript of the voice message, and a second voice
    message without one. *)
Definition sample_files : filesystem :=
  Sample.with_file "voice_messages_txt/1.txt" "first note" Sample.no_files.

Definition sample_batch : list json :=
  [Sample.voice "2024-01-02T09:00:00" "B" "voice_messages/1.ogg";
   Sample.message "2024-01-02T09:30:00" "B" "hello";
   Sample.voice "2024-01-02T10:00:00" "B" "voice_messages/2.ogg";
   Sample.message "2024-01-01T08:00:00" "A" "good morning"].

Definition sample_counts : ChatAnalyzer.daily_counts :=
  [(mkdate 2024 1 1,
    [(KStr "A", ChatAnalyzer.mkstats 1 0 ["good"; "morning"])]);
   (mkdate 2024 1 2,
    [(KStr "B", ChatAnalyzer.mkstats 3 0 ["hello"; "first"; "note"])])].



(** [old in s]: some suffix of [s] starts with [old]. *)
Fixpoint occurs_in (old s : list ascii) : bool :=
  starts_with old s
  || match s with
     | [] => false
     | _ :: s' => occurs_in old s'
     end.

Definition occurs (old s : string) : bool := occurs_in (chars old) (chars s).

(** The counts are a dict of dicts: no date twice, and no sender twice on
    a date. *)
Definition distinct_keys (dc : ChatAnalyzer.daily_counts) : Prop :=
  NoDup (map fst dc) /\ Forall (fun day => NoDup (map fst (snd day))) dc.

(** The message is a dict with a [from] field. *)
Definition has_from (m : json) : bool :=
  match subscript m "from" with
  | Ok _ => true
  | Raise _ => false
  end.

(** The messages counted in a dict of plain counts. *)
Definition sum_counts (d : list (pykey * nat)) : nat := list_sum (map snd d).

(** The messages counted in the counts of a period. *)
Definition period_total (pc : PeriodScript.period_count) : nat :=
  list_sum (map (fun e => PeriodScript.messages (snd e)) pc).

(** The words of a string, as [split] finds them. *)
Definition words_of (s : string) : nat := List.length (split_whitespace s).

(** The byte [c] stands nowhere in [p] after the first byte. *)
Definition clear_of (c : ascii) (p : list ascii) : bool :=
  negb (existsb (Ascii.eqb c) (tl p)).

(** A batch for the script: a first period with a message without sender
    and a message of [A], and a later message that closes it. *)
Definition script_batch : list json :=
  [Sample.anonymous "2024-01-01T10:00:00" "hello";
   Sample.message "2024-01-02T10:00:00" "A" "two words";
   Sample.message "2024-02-15T10:00:00" "A" "later"].

(** What the script computes on it. *)
Definition script_outcome : PeriodScript.outcome :=
  Eval vm_compute in
    match PeriodScript.run Sample.no_files (Sample.export script_batch) with
    | Ok out => out
    | Raise _ =>
        PeriodScript.mkoutcome [] 0 (mkdatetime 0 0 0 0 0 0)
          (PeriodScript.mkstate [] [] [] (0%Z, 0%Z) 0) []
    end.

(** The counts [pc] of a closed period [p] hold one count for each of its
    messages that has a [from] field. *)
Definition counted (p : list json) (pc : PeriodScript.period_count) : Prop :=
  period_total pc = List.length (filter has_from p).

(** [a] is before [b] field by field: year, then month, day, hour, minute
    and second. *)
Definition earlier (a b : datetime) : Prop :=
  (year a < year b
   \/ (year a = year b
       /\ (month a < month b
           \/ (month a = month b
               /\ (day a < day b
                   \/ (day a = day b
                       /\ (hour a < hour b
                           \/ (hour a = hour b
                               /\ (minute a < minute b
                                   \/ (minute a = minute b
                                       /\ second a < second b))))))))))%Z.

(** The ranges the constructor of [datetime] checks. *)
Definition in_range (t : datetime) : Prop :=
  (1 <= year t <= 9999 /\ 1 <= month t <= 12
   /\ 1 <= day t <= days_in_month (year t) (month t)
   /\ 0 <= hour t <= 23 /\ 0 <= minute t <= 59 /\ 0 <= second t <= 59)%Z.

(** A message of the export as the pipeline of the specification takes it:
    its day for the bucket, its sender, and the reference of a voice
    message or the tokens of the text. *)
Definition ingested (self : ChatAnalyzer.analyzer) (m : json)
  : list Spec.message :=
  match day_of m, sender_of m with
  | Some d, Some k =>
      [Spec.mkmessage d k
         match voice_file m with
         | file :: _ => Spec.VoiceReference file
         | [] => Spec.Inline (text_tokens self m)
         end]
  | _, _ => []
  end.

(** Every resolution scheduled for the batch is in the completion order. *)
Definition completes (batch : list Spec.message) (completion : list nat)
  : bool :=
  forallb (fun i => existsb (Nat.eqb i) completion)
          (seq 0 (List.length (Spec.references batch))).

(** What the counts of the program and the aggregator of the specification
    can be compared on: the days in order of creation, the senders of a day
    in order of creation, and for each record its message count and its
    tokens. *)
Definition records {V : Type} (h : V -> nat * list string)
    (d : list (date * list (pykey * V)))
  : list (date * list (pykey * (nat * list string))) :=
  map (fun day => (fst day, map (fun e => (fst e, h (snd e))) (snd day))) d.

Definition counted_records (dc : ChatAnalyzer.daily_counts)
  : list (date * list (pykey * (nat * list string))) :=
  records (fun st => (ChatAnalyzer.messages st, ChatAnalyzer.tokens st)) dc.

Definition aggregated_records (agg : Spec.aggregator)
  : list (date * list (pykey * (nat * list string))) :=
  records (fun e => (Spec.message_count e, Spec.tokens e)) agg.

(** A batch with two voice messages of one sender, their transcripts, and
    the counts of the analysis. *)
Definition two_notes : list json :=
  [Sample.voice "2024-01-02T09:00:00" "B" "voice_messages/1.ogg";
   Sample.message "2024-01-02T09:30:00" "B" "hello";
   Sample.voice "2024-01-02T10:00:00" "B" "voice_messages/2.ogg"].

Definition two_transcripts : filesystem :=
  Sample.with_file "voice_messages_txt/1.txt" "first note"
    (Sample.with_file "voice_messages_txt/2.txt" "second note"
       Sample.no_files).

Definition two_notes_counts : ChatAnalyzer.daily_counts :=
  [(mkdate 2024 1 2,
    [(KStr "B",
      ChatAnalyzer.mkstats 3 0 ["hello"; "first"; "note"; "second"; "note"])])].

(* ===================================================================== *)
(** * The runtime on small inputs *)
(* ===================================================================== *)

Example repr_nested :
  repr (JArr [JInt (-12); JStr "a\b"; JObj [("k", JNull)]; JBool true])
  = "[-12, 'a\\b', {'k': None}, True]".
Proof. reflexivity. Qed.

Example strptime_plain :
  strptime "2024-01-02T09:00:00" = Ok (mkdatetime 2024 1 2 9 0 0).
Proof. reflexivity. Qed.

Example strptime_unpadded :
  strptime "2024-1-2t9:5:7" = Ok (mkdatetime 2024 1 2 9 5 7).
Proof. reflexivity. Qed.

Example strptime_bad_day : strptime "2023-02-29T00:00:00" = Raise ValueError.
Proof. reflexivity. Qed.

Example strptime_trailing : strptime "2024-01-02T09:00:001" = Raise ValueError.
Proof. reflexivity. Qed.

Example transcript_path_plain :
  transcript_path (JStr "chats/voice_messages/audio_1.ogg")
  = Ok "chats/voice_messages_txt/audio_1.txt".
Proof. reflexivity. Qed.

Example toordinal_2024 : toordinal 2024 1 1 = 738886%Z.
Proof. reflexivity. Qed.

(* ===================================================================== *)
(** * Results, loops and sorting *)
(* ===================================================================== *)

Section Loops.

Context {S A B : Type}.

Lemma bind_ok (r : result A) (k : A -> result B) (b : B) :
  bind r k = Ok b -> exists a, r = Ok a /\ k a = Ok b.
Proof.
  destruct r as [a | e]; simpl; intros H.
  - exists a; split; [reflexivity | exact H].
  - discriminate.
Qed.

Lemma bind_raises (r : result A) (k : A -> result B) :
  (forall a, exists e, k a = Raise e) -> exists e, bind r k = Raise e.
Proof.
  intros Hk. destruct r as [a | e]; simpl.
  - apply Hk.
  - exists e; reflexivity.
Qed.

Lemma foldM_app (body : S -> A -> result S) (l1 l2 : list A) (s : S) :
  foldM body (l1 ++ l2) s = (s' <- foldM body l1 s ;; foldM body l2 s').
Proof.
  revert s. induction l1 as [| x l1 IH]; intros s; simpl.
  - reflexivity.
  - destruct (body s x) as [s' | e]; simpl; [apply IH | reflexivity].
Qed.

(** A loop whose body raises at one of its items, whatever the state,
    raises. *)
Lemma foldM_raises (body : S -> A -> result S) (x : A) (l : list A) :
  In x l -> (forall s, exists e, body s x = Raise e) ->
  forall s, exists e, foldM body l s = Raise e.
Proof.
  intros Hin Hx. induction l as [| y l IH]; intros s; simpl.
  - contradiction.
  - destruct Hin as [-> | Hin].
    + destruct (Hx s) as [e He]. rewrite He. exists e; reflexivity.
    + destruct (body s y) as [s' | e]; simpl.
      * apply IH, Hin.
      * exists e; reflexivity.
Qed.

Lemma mapM_raises (f : A -> result B) (x : A) (l : list A) :
  In x l -> (exists e, f x = Raise e) -> exists e, mapM f l = Raise e.
Proof.
  intros Hin [e He]. induction l as [| y l IH]; simpl.
  - contradiction.
  - destruct Hin as [-> | Hin].
    + rewrite He. exists e; reflexivity.
    + destruct (f y) as [b | e']; simpl.
      * destruct (IH Hin) as [e'' ->]. exists e''; reflexivity.
      * exists e'; reflexivity.
Qed.

(** When every item either succeeds or raises [e0], and one raises, the
    comprehension raises [e0]. *)
Lemma mapM_raises_only (f : A -> result B) (e0 : exn) (x : A) (l : list A) :
  In x l -> f x = Raise e0 ->
  Forall (fun y => forall e, f y = Raise e -> e = e0) l ->
  mapM f l = Raise e0.
Proof.
  intros Hin He Hall. induction l as [| y l IH]; simpl.
  - contradiction.
  - inversion Hall as [| ? ? Hy Hl]; subst.
    destruct (f y) as [b | e'] eqn:Hfy; simpl.
    + destruct Hin as [-> | Hin]; [congruence |].
      rewrite (IH Hin Hl). reflexivity.
    + rewrite (Hy e' eq_refl). reflexivity.
Qed.

Lemma mapM_ok (f : A -> result B) (l : list A) (l' : list B) :
  mapM f l = Ok l' -> Forall2 (fun x y => f x = Ok y) l l'.
Proof.
  revert l'. induction l as [| x l IH]; simpl; intros l' H.
  - inversion H. constructor.
  - destruct (f x) as [y | e] eqn:Hx; simpl in H; [| discriminate].
    destruct (mapM f l) as [ys | e]; simpl in H; [| discriminate].
    inversion H; subst. constructor; [exact Hx | apply IH; reflexivity].
Qed.

End Loops.

Section Dict.

Context {K V : Type} (eqb : K -> K -> bool).
Hypothesis eqb_eq : forall a b, eqb a b = true <-> a = b.

Lemma lookup_update_dict (k t : K) (default : V) (f : V -> V)
    (d : list (K * V)) :
  lookup eqb t (update eqb k default f d)
  = if eqb t k
    then Some (f match lookup eqb k d with
                 | Some v => v
                 | None => default
                 end)
    else lookup eqb t d.
Proof.
  assert (Hrefl : forall a, eqb a a = true) by (intros a; apply eqb_eq; reflexivity).
  induction d as [| [k' v] d IH]; simpl.
  - destruct (eqb t k); reflexivity.
  - destruct (eqb k k') eqn:Ek; simpl.
    + apply eqb_eq in Ek. subst k'. destruct (eqb t k); reflexivity.
    + rewrite IH. destruct (eqb t k) eqn:Et; [| reflexivity].
      apply eqb_eq in Et. subst t. rewrite Ek. reflexivity.
Qed.

End Dict.

Section Sorting.

Context {A : Type} (before : A -> A -> bool).

Lemma insert_perm (x : A) (l : list A) :
  Permutation (insert before x l) (x :: l).
Proof.
  induction l as [| y l IH]; simpl.
  - apply Permutation_refl.
  - destruct (before y x).
    + eapply perm_trans; [apply perm_skip, IH | apply perm_swap].
    + apply Permutation_refl.
Qed.

Lemma sort_perm (l : list A) : Permutation (sort before l) l.
Proof.
  induction l as [| x l IH]; simpl.
  - constructor.
  - eapply perm_trans; [apply insert_perm | apply perm_skip, IH].
Qed.

End Sorting.

(** The sorted messages are the messages, in another order. *)
Lemma sorted_by_date_perm (msgs sorted : list json) :
  sorted_by_date msgs = Ok sorted -> Permutation sorted msgs.
Proof.
  unfold sorted_by_date. intros H.
  apply bind_ok in H. destruct H as [keyed [Hk H]]. inversion H; subst.
  assert (Hsnd : map snd keyed = msgs).
  { clear H. apply mapM_ok in Hk.
    induction Hk as [| x y l l' Hxy _ IH]; simpl.
    - reflexivity.
    - f_equal; [| exact IH].
      unfold sort_key in Hxy.
      destruct (subscript x "date") as [d | e]; simpl in Hxy; [| discriminate].
      destruct (parse_date d) as [t | e]; simpl in Hxy; [| discriminate].
      inversion Hxy; reflexivity. }
  rewrite <- Hsnd. apply Permutation_map, sort_perm.
Qed.

(* ===================================================================== *)
(** * Dates that do not parse *)
(* ===================================================================== *)

Lemma sort_key_unparsable (m : json) (s : string) :
  subscript m "date" = Ok (JStr s) -> strptime s = Raise ValueError ->
  sort_key m = Raise ValueError.
Proof.
  intros Hd Hs. unfold sort_key. rewrite Hd. simpl. rewrite Hs. reflexivity.
Qed.

Lemma strptime_raises_ValueError (s : string) (e : exn) :
  strptime s = Raise e -> e = ValueError.
Proof.
  unfold strptime, make_datetime. intros H.
  destruct (match_format (chars s)) as [[[[[[[gY gm] gd] gH] gM] gS] rest] |].
  - destruct rest.
    + match type of H with (if ?c then _ else _) = _ => destruct c end;
        congruence.
    + congruence.
  - congruence.
Qed.

Lemma sort_key_date_string (m : json) (e : exn) :
  (exists s, subscript m "date" = Ok (JStr s)) ->
  sort_key m = Raise e -> e = ValueError.
Proof.
  intros [s Hd] H. unfold sort_key in H. rewrite Hd in H. simpl in H.
  destruct (strptime s) as [t | e'] eqn:Hs; simpl in H; [discriminate |].
  inversion H; subst. eapply strptime_raises_ValueError, Hs.
Qed.

(** C3, the claim as stated fails: a batch of one good message and one
    message whose date has a space for the [T] does not leave the bad
    message out and go on; both programs raise [ValueError] and return
    nothing, the good message's statistics included. *)
Lemma unparsable_date_aborts_run :
  let data := Sample.export
                [Sample.message "2024-01-01T10:00:00" "A" "hello";
                 Sample.message "2024-01-02 10:00:00" "B" "world"] in
  ChatAnalyzer.analyze_chat Sample.nouns Sample.no_files data
    = Raise ValueError
  /\ PeriodScript.run Sample.no_files data = Raise ValueError
  /\ ~ (exists out,
          ChatAnalyzer.analyze_chat Sample.nouns Sample.no_files data = Ok out).
Proof.
  split; [reflexivity |]. split; [reflexivity |].
  intros [out H]. vm_compute in H. discriminate.
Qed.

(** When every message of the batch has a date string, the exception is
    the [ValueError] of [parse_date]. *)
Lemma bad_date_gives_ValueError
    (self : ChatAnalyzer.analyzer) (fs : filesystem) (data : json)
    (msgs : list json) (m : json) (s : string) :
  subscript data "messages" = Ok (JArr msgs) ->
  In m msgs ->
  subscript m "date" = Ok (JStr s) ->
  strptime s = Raise ValueError ->
  Forall (fun x => exists d, subscript x "date" = Ok (JStr d)) msgs ->
  ChatAnalyzer.analyze_chat self fs data = Raise ValueError.
Proof.
  intros Hdata Hin Hd Hs Hall.
  pose proof (sort_key_unparsable m s Hd Hs) as Hkey.
  unfold ChatAnalyzer.analyze_chat, ChatAnalyzer.schedule.
  rewrite Hdata. simpl. unfold sorted_by_date.
  rewrite (mapM_raises_only sort_key ValueError m msgs Hin Hkey).
  - reflexivity.
  - eapply Forall_impl; [| exact Hall].
    intros x Hx e He. exact (sort_key_date_string x e Hx He).
Qed.

(** C3, amended: when a message of the batch has a date string that does
    not parse, both programs abort with an exception instead of returning
    statistics: no message is left out and nothing is counted. *)
Theorem unparsable_date_raises
    (self : ChatAnalyzer.analyzer) (fs : filesystem) (data : json)
    (msgs : list json) (m : json) (s : string) :
  subscript data "messages" = Ok (JArr msgs) ->
  In m msgs ->
  subscript m "date" = Ok (JStr s) ->
  strptime s = Raise ValueError ->
  (exists e, ChatAnalyzer.analyze_chat self fs data = Raise e)
  /\ (exists e, PeriodScript.run fs data = Raise e).
Proof.
  intros Hdata Hin Hd Hs.
  pose proof (sort_key_unparsable m s Hd Hs) as Hkey.
  assert (Hsorted : exists e, sorted_by_date msgs = Raise e).
  { unfold sorted_by_date.
    destruct (mapM_raises sort_key m msgs Hin (ex_intro _ _ Hkey)) as [e ->].
    exists e; reflexivity. }
  split.
  - unfold ChatAnalyzer.analyze_chat, ChatAnalyzer.schedule.
    rewrite Hdata. simpl. destruct Hsorted as [e ->]. exists e; reflexivity.
  - unfold PeriodScript.run. rewrite Hdata. cbn [bind].
    apply bind_raises; intros _. cbn [bind iterate].
    apply bind_raises; intros totals.
    destruct Hsorted as [e ->]. exists e; reflexivity.
Qed.

(** The theorem at a batch of two messages, the second with a bad date. *)
Lemma unparsable_date_raises_witness :
  (exists e, ChatAnalyzer.analyze_chat Sample.nouns Sample.no_files
               (Sample.export
                  [Sample.message "2024-01-01T10:00:00" "A" "hello";
                   Sample.message "yesterday" "B" "world"]) = Raise e)
  /\ (exists e, PeriodScript.run Sample.no_files
               (Sample.export
                  [Sample.message "2024-01-01T10:00:00" "A" "hello";
                   Sample.message "yesterday" "B" "world"]) = Raise e).
Proof.
  apply (unparsable_date_raises Sample.nouns Sample.no_files _
           [Sample.message "2024-01-01T10:00:00" "A" "hello";
            Sample.message "yesterday" "B" "world"]
           (Sample.message "yesterday" "B" "world") "yesterday").
  - reflexivity.
  - simpl. right. left. reflexivity.
  - reflexivity.
  - reflexivity.
Defined.

(* ===================================================================== *)
(** * The shapes of the text field *)
(* ===================================================================== *)

Lemma tokenize_other_shape (self : ChatAnalyzer.analyzer) (t : json) :
  other_shape t = true ->
  ChatAnalyzer.tokenize_and_lemmatize self t = Raise AttributeError.
Proof. destruct t; simpl; intros H; (discriminate || reflexivity). Qed.

Lemma ingest_other_shape (self : ChatAnalyzer.analyzer) (m mt t : json) :
  get m "media_type" JNull = Ok mt ->
  eq_str mt "voice_message" = false ->
  get m "text" (JStr EmptyString) = Ok t ->
  other_shape t = true ->
  forall st, exists e, ChatAnalyzer.ingest self st m = Raise e.
Proof.
  intros Hmt Hvoice Ht Hshape [dc tasks]. unfold ChatAnalyzer.ingest.
  apply bind_raises; intros date_str.
  apply bind_raises; intros d.
  apply bind_raises; intros sender_value.
  apply bind_raises; intros sender.
  rewrite Hmt. cbn [bind]. rewrite Hvoice, Ht. cbn [bind].
  exists AttributeError.
  destruct t; simpl in Hshape; try discriminate; reflexivity.
Qed.

(** C9, the claim as stated fails: a message whose text is the number 5 is
    not taken as empty text; the tokenizer raises [AttributeError] and the
    analysis of the whole batch, the good message included, returns
    nothing. *)
Lemma number_as_text_aborts_run :
  let data := Sample.export
                [Sample.message "2024-01-01T10:00:00" "A" "hello";
                 JObj [("date", JStr "2024-01-02T10:00:00");
                       ("from", JStr "B"); ("text", JInt 5)]] in
  ChatAnalyzer.analyze_chat Sample.nouns Sample.no_files data
    = Raise AttributeError
  /\ ~ (exists out,
          ChatAnalyzer.analyze_chat Sample.nouns Sample.no_files data = Ok out).
Proof.
  split; [reflexivity |].
  intros [out H]. vm_compute in H. discriminate.
Qed.

(** The empty string has no tokens. *)
Lemma tokenize_empty (self : ChatAnalyzer.analyzer) :
  ChatAnalyzer.tokenize_and_lemmatize self (JStr EmptyString) = Ok [].
Proof.
  cbn [ChatAnalyzer.tokenize_and_lemmatize]. unfold ChatAnalyzer.tokenize_str.
  rewrite ChatAnalyzer.lower_empty, ChatAnalyzer.findall_words_empty.
  reflexivity.
Qed.

(** C9, amended: a text field that is present and is neither a string nor a
    list (a number, a boolean, null, an object) is not taken as empty text:
    on a message that is not a voice message the tokenizer raises
    [AttributeError] and the analysis of the batch raises; only the default
    of an absent field, the empty string, gives zero tokens. *)
Theorem other_text_shape_raises
    (self : ChatAnalyzer.analyzer) (fs : filesystem) (data : json)
    (msgs : list json) (m mt t : json) :
  subscript data "messages" = Ok (JArr msgs) ->
  In m msgs ->
  get m "media_type" JNull = Ok mt ->
  eq_str mt "voice_message" = false ->
  get m "text" (JStr EmptyString) = Ok t ->
  other_shape t = true ->
  ChatAnalyzer.tokenize_and_lemmatize self t = Raise AttributeError
  /\ (exists e, ChatAnalyzer.analyze_chat self fs data = Raise e)
  /\ ChatAnalyzer.tokenize_and_lemmatize self (JStr EmptyString) = Ok [].
Proof.
  intros Hdata Hin Hmt Hvoice Ht Hshape.
  split; [apply tokenize_other_shape, Hshape | split].
  2: { apply tokenize_empty. }
  unfold ChatAnalyzer.analyze_chat, ChatAnalyzer.schedule.
  rewrite Hdata. cbn [bind iterate].
  destruct (sorted_by_date msgs) as [sorted | e] eqn:Hsorted; cbn [bind].
  - assert (Hin' : In m sorted).
    { eapply Permutation_in; [| exact Hin].
      apply Permutation_sym, sorted_by_date_perm, Hsorted. }
    destruct (foldM_raises (ChatAnalyzer.ingest self) m sorted Hin'
                (ingest_other_shape self m mt t Hmt Hvoice Ht Hshape)
                ([], [])) as [e ->].
    exists e; reflexivity.
  - exists e; reflexivity.
Qed.

(** The theorem at a batch whose second message has [null] for its text. *)
Lemma other_text_shape_raises_witness :
  ChatAnalyzer.tokenize_and_lemmatize Sample.nouns JNull = Raise AttributeError
  /\ (exists e,
        ChatAnalyzer.analyze_chat Sample.nouns Sample.no_files
          (Sample.export
             [Sample.message "2024-01-01T10:00:00" "A" "hello";
              JObj [("date", JStr "2024-01-02T10:00:00"); ("text", JNull)]])
        = Raise e)
  /\ ChatAnalyzer.tokenize_and_lemmatize Sample.nouns (JStr EmptyString)
     = Ok [].
Proof.
  apply (other_text_shape_raises Sample.nouns Sample.no_files _
           [Sample.message "2024-01-01T10:00:00" "A" "hello";
            JObj [("date", JStr "2024-01-02T10:00:00"); ("text", JNull)]]
           (JObj [("date", JStr "2024-01-02T10:00:00"); ("text", JNull)])
           JNull JNull).
  - reflexivity.
  - simpl. right. left. reflexivity.
  - reflexivity.
  - reflexivity.
  - reflexivity.
  - reflexivity.
Defined.

(* ===================================================================== *)
(** * Transcripts *)
(* ===================================================================== *)

Lemma foldM_ext {S A : Type} (f g : S -> A -> result S) (l : list A) (s : S) :
  (forall s x, f s x = g s x) -> foldM f l s = foldM g l s.
Proof.
  intros H. revert s. induction l as [| x l IH]; intros s; simpl.
  - reflexivity.
  - rewrite H. destruct (g s x); simpl; [apply IH | reflexivity].
Qed.

(** Dropping the rest of an occurrence is skipping it. *)
Lemma replace_from_skip (old new : list ascii) (k : nat) (s : list ascii) :
  replace_from old new k s = replace_from old new 0 (skipn k s).
Proof.
  revert k. induction s as [| c s IH]; intros k.
  - destruct k; reflexivity.
  - destruct k as [| k]; [reflexivity |]. simpl. apply IH.
Qed.

(** [replace] at a character: an occurrence of the pattern that starts here
    is replaced and the scan goes on after it; otherwise the character is
    kept. *)
Lemma replace_from_step (a : ascii) (old new : list ascii)
    (c : ascii) (rest : list ascii) :
  replace_from (a :: old) new 0 (c :: rest)
  = if starts_with (a :: old) (c :: rest)
    then new ++ replace_from (a :: old) new 0 (skipn (List.length old) rest)
    else c :: replace_from (a :: old) new 0 rest.
Proof.
  cbn [replace_from].
  destruct (starts_with (a :: old) (c :: rest)); [| reflexivity].
  rewrite replace_from_skip.
  replace (List.length (a :: old) - 1) with (List.length old)
    by (cbn [List.length]; lia).
  reflexivity.
Qed.

(** What [process_voice_message] returns, case by case. *)
Lemma process_voice_message_cases
    (self : ChatAnalyzer.analyzer) (fs : filesystem) (ref : json) :
  ChatAnalyzer.process_voice_message self fs ref
  = Ok match transcript_path ref with
       | Ok p =>
           match fs p with
           | TextFile content => ChatAnalyzer.tokenize_str self content
           | _ => []
           end
       | Raise _ => []
       end.
Proof.
  unfold ChatAnalyzer.process_voice_message, isfile, read_text.
  destruct (transcript_path ref) as [p | e]; cbn [bind]; [| reflexivity].
  destruct (fs p); reflexivity.
Qed.

(** C8, the program at a failing input: for the reference
    [voice_messages/note.ogg.ogg] the rule of the claim (the directory
    segment, and the trailing extension only) leads to
    [voice_messages_txt/note.ogg.txt], which is also where the converter of
    the repository writes the transcript of [note.ogg.ogg]; the program
    replaces every [.ogg] and looks for [voice_messages_txt/note.txt.txt]:
    with the transcript stored where the claim says, it finds no file and
    returns no token. *)
Lemma every_occurrence_is_replaced :
  let ref := "voice_messages/note.ogg.ogg" in
  let fs := Sample.with_file "voice_messages_txt/note.ogg.txt" "hello"
              Sample.no_files in
  Spec.transcript_path ref = "voice_messages_txt/note.ogg.txt"
  /\ transcript_path (JStr ref) = Ok "voice_messages_txt/note.txt.txt"
  /\ transcript_path (JStr ref) <> Ok (Spec.transcript_path ref)
  /\ fs (Spec.transcript_path ref) = TextFile "hello"
  /\ ChatAnalyzer.process_voice_message Sample.nouns fs (JStr ref) = Ok [].
Proof.
  repeat split; try reflexivity.
  vm_compute. discriminate.
Qed.

(** A transcript that tokenizes to nothing and a missing transcript are
    resolved alike. *)
Lemma process_voice_message_remove
    (self : ChatAnalyzer.analyzer) (fs : filesystem) (p content : string) :
  fs p = TextFile content ->
  ChatAnalyzer.tokenize_str self content = [] ->
  forall ref,
    ChatAnalyzer.process_voice_message self fs ref
    = ChatAnalyzer.process_voice_message self (remove_file p fs) ref.
Proof.
  intros Hp Hempty ref. rewrite !process_voice_message_cases.
  destruct (transcript_path ref) as [q | e]; [| reflexivity].
  unfold remove_file. destruct (String.eqb q p) eqn:Hq.
  - apply String.eqb_eq in Hq. subst q. rewrite Hp, Hempty. reflexivity.
  - reflexivity.
Qed.

(** C10: when the transcript file of a voice message exists and its content
    tokenizes to the empty list, resolution returns the empty list as it
    does without the file, the merge adds one to the unrecognized-voice
    counter and leaves the counts as they are, and the whole analysis
    returns what it returns on the file system without that file. *)
Theorem empty_transcript_counts_as_unrecognized
    (self : ChatAnalyzer.analyzer) (fs : filesystem) (ref : json)
    (p content : string) (data : json) :
  transcript_path ref = Ok p ->
  fs p = TextFile content ->
  ChatAnalyzer.tokenize_str self content = [] ->
  ChatAnalyzer.process_voice_message self fs ref = Ok []
  /\ ChatAnalyzer.process_voice_message self (remove_file p fs) ref = Ok []
  /\ (forall dc n d sender,
        ChatAnalyzer.merge self fs (dc, n) (d, sender, ref) = Ok (dc, S n))
  /\ ChatAnalyzer.analyze_chat self fs data
     = ChatAnalyzer.analyze_chat self (remove_file p fs) data.
Proof.
  intros Hpath Hp Hempty.
  assert (Hhere : ChatAnalyzer.process_voice_message self fs ref = Ok []).
  { rewrite process_voice_message_cases, Hpath, Hp, Hempty. reflexivity. }
  split; [exact Hhere | split; [| split]].
  - rewrite <- (process_voice_message_remove self fs p content Hp Hempty).
    exact Hhere.
  - intros dc n d sender. unfold ChatAnalyzer.merge. rewrite Hhere.
    reflexivity.
  - unfold ChatAnalyzer.analyze_chat.
    destruct (ChatAnalyzer.schedule self data) as [st | e]; cbn [bind];
      [| reflexivity].
    apply foldM_ext. intros [dc n] [[d sender] file].
    unfold ChatAnalyzer.merge.
    rewrite (process_voice_message_remove self fs p content Hp Hempty).
    reflexivity.
Qed.

(** The theorem at a voice message whose transcript holds the stop word
    only. *)
Lemma empty_transcript_counts_as_unrecognized_witness :
  let fs := Sample.with_file "voice_messages_txt/1.txt" "The the"
              Sample.no_files in
  let data := Sample.export
                [Sample.voice "2024-01-02T09:00:00" "B" "voice_messages/1.ogg"]
  in
  ChatAnalyzer.process_voice_message Sample.nouns fs
    (JStr "voice_messages/1.ogg") = Ok []
  /\ ChatAnalyzer.process_voice_message Sample.nouns
       (remove_file "voice_messages_txt/1.txt" fs)
       (JStr "voice_messages/1.ogg") = Ok []
  /\ (forall dc n d sender,
        ChatAnalyzer.merge Sample.nouns fs (dc, n)
          (d, sender, JStr "voice_messages/1.ogg") = Ok (dc, S n))
  /\ ChatAnalyzer.analyze_chat Sample.nouns fs data
     = ChatAnalyzer.analyze_chat Sample.nouns
         (remove_file "voice_messages_txt/1.txt" fs) data.
Proof.
  apply (empty_transcript_counts_as_unrecognized Sample.nouns
           (Sample.with_file "voice_messages_txt/1.txt" "The the"
              Sample.no_files)
           (JStr "voice_messages/1.ogg") "voice_messages_txt/1.txt" "The the").
  - reflexivity.
  - reflexivity.
  - reflexivity.
Defined.

(* ===================================================================== *)
(** * The ranking of tokens *)
(* ===================================================================== *)

Section Ranking.

Lemma first_pos_lt (t : string) (l : list string) :
  In t l <-> first_pos t l < List.length l.
Proof.
  induction l as [| x l IH]; simpl.
  - split; [contradiction | lia].
  - destruct (String.eqb t x) eqn:E.
    + apply String.eqb_eq in E. split; [lia | auto].
    + apply String.eqb_neq in E. rewrite <- Nat.succ_lt_mono, <- IH.
      split; [intros [H | H]; [congruence | exact H] | auto].
Qed.

Lemma first_pos_app_in (t : string) (l l' : list string) :
  In t l -> first_pos t (l ++ l') = first_pos t l.
Proof.
  induction l as [| x l IH]; simpl; [contradiction |].
  intros H. destruct (String.eqb t x) eqn:E; [reflexivity |].
  apply String.eqb_neq in E. destruct H as [H | H]; [congruence |].
  rewrite (IH H). reflexivity.
Qed.

Lemma first_pos_app_new (t : string) (l : list string) :
  ~ In t l -> first_pos t (l ++ [t]) = List.length l.
Proof.
  induction l as [| x l IH]; simpl; intros H.
  - rewrite String.eqb_refl. reflexivity.
  - destruct (String.eqb t x) eqn:E.
    + apply String.eqb_eq in E. exfalso. apply H. left. congruence.
    + rewrite IH; [reflexivity | intros Hin; apply H; right; exact Hin].
Qed.

Lemma frequency_snoc (t u : string) (l : list string) :
  frequency t (l ++ [u])
  = frequency t l + (if String.eqb t u then 1 else 0).
Proof.
  unfold frequency. rewrite count_occ_app. simpl.
  destruct (string_dec u t) as [-> | N].
  - rewrite String.eqb_refl. reflexivity.
  - destruct (String.eqb t u) eqn:E; [| reflexivity].
    apply String.eqb_eq in E. congruence.
Qed.

Lemma frequency_pos (t : string) (l : list string) :
  In t l <-> 0 < frequency t l.
Proof. unfold frequency. apply count_occ_In. Qed.

(** The keys of a dict after [d[k] = f(d.get(k, default))]. *)
Lemma update_keys {V : Type} (k : string) (default : V) (f : V -> V)
    (d : list (string * V)) :
  map fst (update String.eqb k default f d)
  = if existsb (String.eqb k) (map fst d) then map fst d
    else map fst d ++ [k].
Proof.
  induction d as [| [k' v] d IH]; simpl; [reflexivity |].
  destruct (String.eqb k k'); simpl; [reflexivity |].
  rewrite IH. destruct (existsb (String.eqb k) (map fst d)); reflexivity.
Qed.

Lemma lookup_update {V : Type} (k t : string) (default : V) (f : V -> V)
    (d : list (string * V)) :
  lookup String.eqb t (update String.eqb k default f d)
  = if String.eqb t k
    then Some (f match lookup String.eqb k d with
                 | Some v => v
                 | None => default
                 end)
    else lookup String.eqb t d.
Proof. apply (lookup_update_dict String.eqb String.eqb_eq). Qed.

Lemma lookup_keys {V : Type} (t : string) (d : list (string * V)) :
  In t (map fst d) <-> lookup String.eqb t d <> None.
Proof.
  induction d as [| [k v] d IH]; simpl.
  - split; [contradiction | congruence].
  - destruct (String.eqb t k) eqn:E.
    + apply String.eqb_eq in E. split; [congruence | auto].
    + apply String.eqb_neq in E. rewrite <- IH.
      split; [intros [H | H]; [congruence | exact H] | auto].
Qed.

Lemma lookup_in {V : Type} (t : string) (v : V) (d : list (string * V)) :
  NoDup (map fst d) -> In (t, v) d -> lookup String.eqb t d = Some v.
Proof.
  induction d as [| [k w] d IH]; simpl; intros Hnd Hin; [contradiction |].
  inversion Hnd as [| ? ? Hk Hd]; subst.
  destruct Hin as [Heq | Hin].
  - inversion Heq; subst. rewrite String.eqb_refl. reflexivity.
  - destruct (String.eqb t k) eqn:E.
    + apply String.eqb_eq in E. subst k. exfalso. apply Hk.
      apply in_map_iff. exists (t, v). auto.
    + apply IH; assumption.
Qed.

Lemma Counter_snoc (l : list string) (t : string) :
  ChatAnalyzer.Counter (l ++ [t])
  = update String.eqb t 0 S (ChatAnalyzer.Counter l).
Proof. unfold ChatAnalyzer.Counter. rewrite fold_left_app. reflexivity. Qed.

(** The counts of a [Counter]. *)
Lemma Counter_lookup (l : list string) (t : string) :
  lookup String.eqb t (ChatAnalyzer.Counter l)
  = if (frequency t l =? 0)%nat then None else Some (frequency t l).
Proof.
  induction l as [| u l IH] using rev_ind; [reflexivity |].
  rewrite Counter_snoc, lookup_update, frequency_snoc.
  destruct (String.eqb t u) eqn:E.
  - apply String.eqb_eq in E. subst u. rewrite IH.
    destruct (frequency t l) as [| n]; simpl.
    + reflexivity.
    + replace (n + 1) with (S n) by lia. reflexivity.
  - rewrite IH, Nat.add_0_r. reflexivity.
Qed.

Lemma Counter_keys_in (l : list string) (t : string) :
  In t (map fst (ChatAnalyzer.Counter l)) <-> In t l.
Proof.
  rewrite lookup_keys, Counter_lookup, frequency_pos.
  destruct (frequency t l) as [| n]; simpl.
  - split; [congruence | lia].
  - split; [lia | congruence].
Qed.

(** The keys of a [Counter] stand in the order of their first
    occurrence. *)
Lemma Counter_keys_order (l : list string) :
  StronglySorted (fun a b => first_pos a l < first_pos b l)
                 (map fst (ChatAnalyzer.Counter l)).
Proof.
  induction l as [| u l IH] using rev_ind; [constructor |].
  assert (Hold : StronglySorted
                   (fun a b => first_pos a (l ++ [u]) < first_pos b (l ++ [u]))
                   (map fst (ChatAnalyzer.Counter l))).
  { assert (Hin : Forall (fun a => In a l) (map fst (ChatAnalyzer.Counter l))).
    { apply Forall_forall. intros a. apply Counter_keys_in. }
    induction IH as [| a ks Hs IHs Ha]; [constructor |].
    inversion Hin as [| ? ? Hal Hks]; subst.
    constructor; [apply IHs, Hks |].
    rewrite Forall_forall in *. intros b Hb.
    rewrite !first_pos_app_in by auto. auto. }
  rewrite Counter_snoc, update_keys.
  destruct (existsb (String.eqb u) (map fst (ChatAnalyzer.Counter l))) eqn:E;
    [exact Hold |].
  assert (Hnew : ~ In u l).
  { rewrite <- Counter_keys_in. intros Hin.
    assert (existsb (String.eqb u) (map fst (ChatAnalyzer.Counter l)) = true).
    { apply existsb_exists. exists u. split; [exact Hin | apply String.eqb_refl]. }
    congruence. }
  assert (Hlast : Forall (fun a => first_pos a (l ++ [u]) < first_pos u (l ++ [u]))
                         (map fst (ChatAnalyzer.Counter l))).
  { apply Forall_forall. intros a Ha.
    apply (proj1 (Counter_keys_in l a)) in Ha.
    rewrite first_pos_app_in by exact Ha. rewrite first_pos_app_new by exact Hnew.
    apply first_pos_lt, Ha. }
  clear E IH. induction Hold as [| a ks Hs IHs Ha]; simpl.
  - repeat constructor.
  - inversion Hlast as [| ? ? Hau Hks]; subst.
    constructor; [apply IHs, Hks |].
    apply Forall_app. split; [exact Ha | constructor; [exact Hau | constructor]].
Qed.

End Ranking.

Section StableSort.

Context {A : Type} (count : A -> nat) (earlier : A -> A -> Prop).

(** [sorted(..., key=count, reverse=True)]: the larger count goes first. *)
Let before (a b : A) : bool := (count b <? count a)%nat.

Let ranked (a b : A) : Prop :=
  count b < count a \/ (count a = count b /\ earlier a b).

Lemma insert_ranked (x : A) (l : list A) :
  StronglySorted ranked l -> Forall (earlier x) l ->
  StronglySorted ranked (insert before x l).
Proof.
  intros Hs Hx. induction Hs as [| y l Hs IH Hy]; simpl.
  - repeat constructor.
  - inversion Hx as [| ? ? Hxy Hxl]; subst.
    unfold before at 1. destruct (count x <? count y)%nat eqn:E.
    + apply Nat.ltb_lt in E. constructor; [apply IH, Hxl |].
      eapply Permutation_Forall;
        [apply Permutation_sym, insert_perm | constructor].
      * left. exact E.
      * exact Hy.
    + apply Nat.ltb_ge in E. constructor; [constructor; assumption |].
      constructor.
      * unfold ranked. destruct (Nat.eq_dec (count x) (count y)); [auto | lia].
      * rewrite Forall_forall in *. intros z Hz.
        specialize (Hy z Hz). specialize (Hxl z Hz). unfold ranked in *.
        destruct (Nat.eq_dec (count x) (count z)); [auto | lia].
Qed.

(** A stable sort by descending count of a list in [earlier] order is in
    the order: larger count first, [earlier] among equal counts. *)
Lemma sort_ranked (l : list A) :
  StronglySorted earlier l -> StronglySorted ranked (sort before l).
Proof.
  intros Hs. induction Hs as [| x l Hs IH Hx]; simpl.
  - constructor.
  - apply insert_ranked; [exact IH |].
    eapply Permutation_Forall; [apply Permutation_sym, sort_perm | exact Hx].
Qed.

End StableSort.

Lemma StronglySorted_map_inv {A B : Type} (g : A -> B) (Q : B -> B -> Prop)
    (l : list A) :
  StronglySorted Q (map g l) -> StronglySorted (fun a b => Q (g a) (g b)) l.
Proof.
  induction l as [| x l IH]; simpl; intros H; [constructor |].
  inversion H as [| ? ? Hs Hx]; subst. constructor; [apply IH, Hs |].
  rewrite Forall_map in Hx. exact Hx.
Qed.

Lemma StronglySorted_firstn {A : Type} (Q : A -> A -> Prop) (n : nat)
    (l : list A) :
  StronglySorted Q l -> StronglySorted Q (firstn n l).
Proof.
  intros H. revert n. induction H as [| x l Hs IH Hx]; intros [| n]; simpl;
    try constructor.
  - apply IH.
  - rewrite Forall_forall in *. intros y Hy. apply Hx.
    eapply (In_nth_error _ _) in Hy. destruct Hy as [i Hi].
    rewrite nth_error_firstn in Hi.
    destruct (i <? n)%nat; [| discriminate]. eapply nth_error_In, Hi.
Qed.

Lemma StronglySorted_NoDup {A : Type} (Q : A -> A -> Prop) (l : list A) :
  (forall a, ~ Q a a) -> StronglySorted Q l -> NoDup l.
Proof.
  intros Hirr H. induction H as [| x l Hs IH Hx]; constructor.
  - intros Hin. rewrite Forall_forall in Hx. exact (Hirr x (Hx x Hin)).
  - exact IH.
Qed.

Lemma Counter_NoDup (toks : list string) :
  NoDup (map fst (ChatAnalyzer.Counter toks)).
Proof.
  eapply StronglySorted_NoDup; [| apply Counter_keys_order].
  intros a. apply Nat.lt_irrefl.
Qed.

Lemma ranking_sorted (toks : list string) :
  StronglySorted (ranks_before toks) (ranking toks).
Proof.
  unfold ranking, ranks_before.
  apply (sort_ranked snd
           (fun a b => first_pos (fst a) toks < first_pos (fst b) toks)).
  apply (StronglySorted_map_inv fst
           (fun a b => first_pos a toks < first_pos b toks)).
  apply Counter_keys_order.
Qed.

Lemma ranking_entries (toks : list string) (e : string * nat) :
  In e (ranking toks) ->
  In (fst e) toks /\ snd e = frequency (fst e) toks.
Proof.
  intros H. unfold ranking in H.
  eapply Permutation_in in H; [| apply sort_perm].
  assert (Hk : In (fst e) toks).
  { apply Counter_keys_in, in_map, H. }
  split; [exact Hk |].
  destruct e as [t n]. apply lookup_in in H; [| apply Counter_NoDup].
  rewrite Counter_lookup in H. simpl.
  destruct (frequency t toks =? 0)%nat; congruence.
Qed.

Lemma ranking_complete (toks : list string) (t : string) :
  In t toks -> In (t, frequency t toks) (ranking toks).
Proof.
  intros H. apply Counter_keys_in in H. apply in_map_iff in H.
  destruct H as [[t' n] [Ht Hin]]. simpl in Ht. subst t'.
  assert (Hr : In (t, n) (ranking toks)).
  { unfold ranking. eapply Permutation_in;
      [apply Permutation_sym, sort_perm | exact Hin]. }
  destruct (ranking_entries toks (t, n) Hr) as [_ Hn]. simpl in Hn.
  rewrite <- Hn. exact Hr.
Qed.

(** C6: for every token list and every K, the top K has at most K entries;
    it is the first K entries of the complete ranking, which holds every
    token of the list with its frequency; its entries stand by descending
    frequency, and entries of equal frequency in the order of their first
    occurrence in the list; and the top 2 of [a, b, a, b] is
    [(a, 2), (b, 2)]. *)
Theorem top_words_ranked (toks : list string) (K : nat) :
  List.length (ChatAnalyzer.top_words K toks) <= K
  /\ ChatAnalyzer.top_words K toks = firstn K (ranking toks)
  /\ (forall t, In t toks <-> In (t, frequency t toks) (ranking toks))
  /\ Forall (fun e => In (fst e) toks /\ snd e = frequency (fst e) toks)
            (ChatAnalyzer.top_words K toks)
  /\ StronglySorted (ranks_before toks) (ranking toks)
  /\ StronglySorted (ranks_before toks) (ChatAnalyzer.top_words K toks)
  /\ ChatAnalyzer.top_words 2 ["a"; "b"; "a"; "b"] = [("a", 2); ("b", 2)].
Proof.
  assert (Htop : ChatAnalyzer.top_words K toks = firstn K (ranking toks))
    by reflexivity.
  split; [rewrite Htop; apply firstn_le_length |].
  split; [exact Htop |].
  split.
  { intros t. split; [apply ranking_complete |].
    intros H. apply (ranking_entries toks _ H). }
  split.
  { rewrite Htop. apply Forall_forall. intros e He.
    apply ranking_entries. revert He. generalize (ranking toks) as l.
    clear Htop. induction K as [| K IH]; intros [| x l]; simpl;
      try contradiction.
    intros [-> | H]; [left; reflexivity | right; apply IH, H]. }
  split; [apply ranking_sorted |].
  split; [rewrite Htop; apply StronglySorted_firstn, ranking_sorted |].
  reflexivity.
Qed.

(* ===================================================================== *)
(** * The order of the voice tasks *)
(* ===================================================================== *)

Lemma ingest_tasks (self : ChatAnalyzer.analyzer) (l : list json)
    (st st' : ChatAnalyzer.daily_counts * list ChatAnalyzer.voice_task) :
  foldM (ChatAnalyzer.ingest self) l st = Ok st' ->
  map snd (snd st') = map snd (snd st) ++ flat_map voice_file l.
Proof.
  revert st. induction l as [| m l IH]; intros st H; simpl in H.
  - inversion H; subst. simpl. rewrite app_nil_r. reflexivity.
  - destruct (ChatAnalyzer.ingest self st m) as [st1 | e] eqn:Hm;
      cbn [bind] in H; [| discriminate].
    rewrite (IH _ H). clear IH H. simpl. rewrite app_assoc. f_equal.
    destruct st as [dc tasks]. unfold ChatAnalyzer.ingest in Hm.
    unfold voice_file.
    repeat match type of Hm with
           | bind ?r _ = _ =>
               destruct r; cbn [bind] in Hm; [| discriminate]
           | (if ?b then _ else _) = _ => destruct b
           end;
      inversion Hm; subst; simpl;
      try destruct (subscript m "file");
      rewrite ?map_app, ?app_nil_r; reflexivity.
Qed.

(** The voice tasks are scheduled in the order of the sorted messages. *)
Lemma schedule_keeps_message_order (self : ChatAnalyzer.analyzer)
    (data : json) (msgs sorted : list json)
    (st : ChatAnalyzer.daily_counts * list ChatAnalyzer.voice_task) :
  subscript data "messages" = Ok (JArr msgs) ->
  sorted_by_date msgs = Ok sorted ->
  ChatAnalyzer.schedule self data = Ok st ->
  map snd (snd st) = flat_map voice_file sorted.
Proof.
  intros Hdata Hsorted H. unfold ChatAnalyzer.schedule in H.
  rewrite Hdata in H. cbn [bind iterate] in H. rewrite Hsorted in H.
  cbn [bind] in H. apply ingest_tasks in H. exact H.
Qed.

(* ===================================================================== *)
(** * Counting messages *)
(* ===================================================================== *)

Lemma date_eqb_eq (a b : date) : date_eqb a b = true <-> a = b.
Proof.
  unfold date_eqb. destruct a as [y m d], b as [y' m' d']; simpl.
  rewrite !andb_true_iff, !Z.eqb_eq.
  split; [intros [[-> ->] ->]; reflexivity | intros H; inversion H; auto].
Qed.

Lemma key_eqb_eq (a b : pykey) : key_eqb a b = true <-> a = b.
Proof.
  destruct a, b; simpl; try (split; [discriminate | congruence]).
  - split; reflexivity.
  - rewrite Z.eqb_eq. split; congruence.
  - rewrite String.eqb_eq. split; congruence.
Qed.

Lemma filter_length_perm {A : Type} (p : A -> bool) (l l' : list A) :
  Permutation l l' ->
  List.length (filter p l) = List.length (filter p l').
Proof.
  intros H. induction H as [| x l l' H IH | x y l | l l' l'' H1 IH1 H2 IH2];
    simpl.
  - reflexivity.
  - destruct (p x); simpl; congruence.
  - destruct (p x), (p y); reflexivity.
  - congruence.
Qed.

Lemma sum_messages_update (k : pykey)
    (f : ChatAnalyzer.stats -> ChatAnalyzer.stats) (extra : nat)
    (senders : ChatAnalyzer.sender_counts) :
  (forall st, ChatAnalyzer.messages (f st) = ChatAnalyzer.messages st + extra) ->
  sum_messages (update key_eqb k ChatAnalyzer.new_stats f senders)
  = sum_messages senders + extra.
Proof.
  intros Hf. unfold sum_messages.
  induction senders as [| [k' st] senders IH]; simpl.
  - rewrite Hf. simpl. lia.
  - destruct (key_eqb k k'); simpl; [rewrite Hf | rewrite IH]; lia.
Qed.

(** How one update of a record of [(d0, k0)] changes the two counts. *)
Lemma counts_after_update (d0 : date) (k0 : pykey)
    (f : ChatAnalyzer.stats -> ChatAnalyzer.stats) (extra : nat)
    (dc : ChatAnalyzer.daily_counts) (d : date) (k : pykey) :
  (forall st, ChatAnalyzer.messages (f st) = ChatAnalyzer.messages st + extra) ->
  let dc' := update date_eqb d0 []
               (update key_eqb k0 ChatAnalyzer.new_stats f) dc in
  message_count dc' d k
  = message_count dc d k + extra * indicator (date_eqb d d0 && key_eqb k k0)
  /\ day_total dc' d = day_total dc d + extra * indicator (date_eqb d d0).
Proof.
  intros Hf dc'. unfold message_count, day_total, dc'.
  rewrite (lookup_update_dict date_eqb date_eqb_eq).
  destruct (date_eqb d d0) eqn:Ed; simpl.
  - apply date_eqb_eq in Ed. subst d0.
    rewrite (lookup_update_dict key_eqb key_eqb_eq).
    rewrite (sum_messages_update k0 f extra) by exact Hf.
    destruct (lookup date_eqb d dc) as [senders |]; simpl.
    + split; [| lia].
      destruct (key_eqb k k0) eqn:Ek; simpl.
      * apply key_eqb_eq in Ek. subst k0. rewrite Hf.
        destruct (lookup key_eqb k senders); simpl; lia.
      * lia.
    + split; [| unfold sum_messages; simpl; lia].
      destruct (key_eqb k k0); simpl; [rewrite Hf; simpl |]; lia.
  - split; lia.
Qed.

Lemma ingest_counts (self : ChatAnalyzer.analyzer)
    (dc dc' : ChatAnalyzer.daily_counts)
    (tasks tasks' : list ChatAnalyzer.voice_task) (m : json) :
  ChatAnalyzer.ingest self (dc, tasks) m = Ok (dc', tasks') ->
  forall d k,
    message_count dc' d k = message_count dc d k + indicator (filed_under d k m)
    /\ day_total dc' d = day_total dc d + indicator (on_day d m).
Proof.
  unfold ChatAnalyzer.ingest. intros H d k.
  destruct (subscript m "date") as [ds | e] eqn:Hds; cbn [bind] in H;
    [| discriminate].
  destruct (parse_date ds) as [t | e] eqn:Ht; cbn [bind] in H;
    [| discriminate].
  destruct (get m "from" (JStr "Unknown")) as [from | e] eqn:Hfrom;
    cbn [bind] in H; [| discriminate].
  destruct (as_key from) as [k0 | e] eqn:Hk0; cbn [bind] in H;
    [| discriminate].
  assert (Hday : on_day d m = date_eqb d (date_of t)).
  { unfold on_day, day_of. rewrite Hds. cbn [bind]. rewrite Ht. reflexivity. }
  assert (Hfiled : filed_under d k m
                   = date_eqb d (date_of t) && key_eqb k k0).
  { unfold filed_under, sender_of. rewrite Hday, Hfrom. cbn [bind].
    rewrite Hk0. reflexivity. }
  rewrite Hday, Hfiled.
  pose proof (counts_after_update (date_of t) k0
                (fun st => ChatAnalyzer.mkstats
                             (S (ChatAnalyzer.messages st))
                             (ChatAnalyzer.words st) (ChatAnalyzer.tokens st))
                1 dc d k) as Hcount.
  cbv zeta in Hcount. rewrite !Nat.mul_1_l in Hcount.
  specialize (Hcount ltac:(intros st; simpl; lia)).
  fold (ChatAnalyzer.count_message (date_of t) k0 dc) in Hcount.
  destruct (get m "media_type" JNull) as [mt | e]; cbn [bind] in H;
    [| discriminate].
  destruct (eq_str mt "voice_message").
  - destruct (subscript m "file") as [file | e]; cbn [bind] in H;
      [| discriminate].
    inversion H; subst. exact Hcount.
  - destruct (get m "text" (JStr EmptyString)) as [txt | e]; cbn [bind] in H;
      [| discriminate].
    match type of H with
    | bind ?joined _ = _ => destruct joined as [txt' | e]
    end; cbn [bind] in H; [| discriminate].
    destruct (ChatAnalyzer.tokenize_and_lemmatize self txt') as [toks | e];
      cbn [bind] in H; [| discriminate].
    inversion H; subst.
    pose proof (counts_after_update (date_of t) k0
                  (fun st => ChatAnalyzer.mkstats
                               (ChatAnalyzer.messages st)
                               (ChatAnalyzer.words st)
                               (ChatAnalyzer.tokens st ++ toks))
                  0 (ChatAnalyzer.count_message (date_of t) k0 dc) d k)
      as Hext.
    cbv zeta in Hext. rewrite !Nat.mul_0_l, !Nat.add_0_r in Hext.
    specialize (Hext ltac:(intros st; simpl; lia)).
    fold (ChatAnalyzer.extend_tokens (date_of t) k0 toks
            (ChatAnalyzer.count_message (date_of t) k0 dc)) in Hext.
    destruct Hext as [He1 He2], Hcount as [Hc1 Hc2].
    rewrite He1, He2. split; assumption.
Qed.

Lemma ingest_all_counts (self : ChatAnalyzer.analyzer) (l : list json)
    (st st' : ChatAnalyzer.daily_counts * list ChatAnalyzer.voice_task) :
  foldM (ChatAnalyzer.ingest self) l st = Ok st' ->
  forall d k,
    message_count (fst st') d k
    = message_count (fst st) d k + List.length (filter (filed_under d k) l)
    /\ day_total (fst st') d
       = day_total (fst st) d + List.length (filter (on_day d) l).
Proof.
  revert st. induction l as [| m l IH]; intros st H d k; simpl in H.
  - inversion H; subst. simpl. split; lia.
  - destruct (ChatAnalyzer.ingest self st m) as [[dc1 tasks1] | e] eqn:Hm;
      cbn [bind] in H; [| discriminate].
    destruct st as [dc tasks].
    destruct (ingest_counts self dc dc1 tasks tasks1 m Hm d k) as [H1 H2].
    destruct (IH _ H d k) as [H3 H4]. simpl in *.
    rewrite H3, H4, H1, H2.
    unfold indicator.
    destruct (filed_under d k m), (on_day d m); simpl; split; lia.
Qed.

Lemma merge_counts (self : ChatAnalyzer.analyzer) (fs : filesystem)
    (tasks : list ChatAnalyzer.voice_task)
    (st st' : ChatAnalyzer.daily_counts * nat) :
  foldM (ChatAnalyzer.merge self fs) tasks st = Ok st' ->
  forall d k,
    message_count (fst st') d k = message_count (fst st) d k
    /\ day_total (fst st') d = day_total (fst st) d.
Proof.
  revert st. induction tasks as [| task tasks IH]; intros st H d k;
    simpl in H.
  - inversion H; subst. split; reflexivity.
  - destruct (ChatAnalyzer.merge self fs st task) as [st1 | e] eqn:Hm;
      cbn [bind] in H; [| discriminate].
    destruct (IH _ H d k) as [H1 H2]. rewrite H1, H2. clear IH H H1 H2.
    destruct st as [dc n], task as [[d0 k0] file].
    unfold ChatAnalyzer.merge in Hm.
    destruct (ChatAnalyzer.process_voice_message self fs file) as [toks | e];
      cbn [bind] in Hm; [| discriminate].
    destruct toks as [| tok toks]; inversion Hm; subst; simpl;
      [split; reflexivity |].
    pose proof (counts_after_update d0 k0
                  (fun st => ChatAnalyzer.mkstats
                               (ChatAnalyzer.messages st)
                               (ChatAnalyzer.words st)
                               (ChatAnalyzer.tokens st ++ tok :: toks))
                  0 dc d k) as Hext.
    cbv zeta in Hext. rewrite !Nat.mul_0_l, !Nat.add_0_r in Hext.
    exact (Hext ltac:(intros st; simpl; lia)).
Qed.

(** After a run that returns, the count of a record is the number of
    messages of the batch filed under it, and the total of a day is the
    number of messages of that day. *)
Lemma analyze_chat_counts (self : ChatAnalyzer.analyzer) (fs : filesystem)
    (data : json) (msgs : list json) (dc : ChatAnalyzer.daily_counts)
    (n : nat) :
  subscript data "messages" = Ok (JArr msgs) ->
  ChatAnalyzer.analyze_chat self fs data = Ok (dc, n) ->
  forall d k,
    message_count dc d k = List.length (filter (filed_under d k) msgs)
    /\ day_total dc d = List.length (filter (on_day d) msgs).
Proof.
  intros Hdata H d k.
  unfold ChatAnalyzer.analyze_chat, ChatAnalyzer.schedule in H.
  rewrite Hdata in H. cbn [bind iterate] in H.
  destruct (sorted_by_date msgs) as [sorted | e] eqn:Hsorted;
    cbn [bind] in H; [| discriminate].
  destruct (foldM (ChatAnalyzer.ingest self) sorted ([], []))
    as [st | e] eqn:Hingest; cbn [bind] in H; [| discriminate].
  destruct (merge_counts self fs _ _ _ H d k) as [H1 H2].
  destruct (ingest_all_counts self _ _ _ Hingest d k) as [H3 H4].
  simpl in H1, H2, H3, H4.
  pose proof (sorted_by_date_perm _ _ Hsorted) as Hperm.
  rewrite H1, H2, H3, H4.
  rewrite (filter_length_perm _ _ _ Hperm).
  rewrite (filter_length_perm (on_day d) _ _ Hperm).
  split; reflexivity.
Qed.

(* ===================================================================== *)
(** * Messages without a sender *)
(* ===================================================================== *)

Lemma filed_on_day (d : date) (k : pykey) (l : list json) :
  List.length (filter (filed_under d k) l)
  <= List.length (filter (on_day d) l).
Proof.
  induction l as [| m l IH]; simpl; [lia |].
  unfold filed_under at 1. destruct (on_day d m); simpl; [| exact IH].
  match goal with |- context [if ?b then _ else _] => destruct b end;
    simpl; lia.
Qed.

Lemma filter_length_in {A : Type} (p : A -> bool) (x : A) (l : list A) :
  In x l -> p x = true -> 1 <= List.length (filter p l).
Proof.
  intros Hin Hp. assert (H : In x (filter p l)) by (apply filter_In; auto).
  destruct (filter p l); [contradiction | simpl; lia].
Qed.

(** The analyzer treats a message without [from] as the same message sent
    by [Unknown]. *)
Lemma ingest_missing_sender (self : ChatAnalyzer.analyzer)
    (fields : list (string * json))
    (st : ChatAnalyzer.daily_counts * list ChatAnalyzer.voice_task) :
  assoc "from" fields = None ->
  ChatAnalyzer.ingest self st (JObj fields)
  = ChatAnalyzer.ingest self st (JObj (("from", JStr "Unknown") :: fields)).
Proof.
  intros Hfrom. unfold ChatAnalyzer.ingest, subscript, get. simpl assoc.
  rewrite Hfrom. reflexivity.
Qed.

(** C7, the claim as stated fails in the rolling-period script: the first
    period holds one message, which has no [from]; the counts of that
    period have no record at all, under [Unknown] or any other sender. *)
Lemma script_skips_missing_sender :
  match PeriodScript.run Sample.no_files
          (Sample.export
             [Sample.anonymous "2024-01-01T10:00:00" "hello";
              Sample.message "2024-02-15T10:00:00" "A" "later"])
  with
  | Ok out =>
      PeriodScript.periods (PeriodScript.final out)
      = [[Sample.anonymous "2024-01-01T10:00:00" "hello"]]
      /\ PeriodScript.period_counts (PeriodScript.final out) = [[]]
      /\ PeriodScript.not_message out = 1
  | Raise _ => False
  end.
Proof. vm_compute. repeat split. Qed.

(** C7, amended: in the calendar-day analyzer a message without [from] is
    filed under the sender [Unknown] on the day of its date, exactly as if
    it named that sender; after a run that returns, the count of
    [Unknown] on that day is the number of the day's messages filed under
    it and the day's total over all senders is the number of the day's
    messages, each at least one because of this message.  The
    rolling-period script instead leaves such a message out of the period
    counts and counts it in [not_message]. *)
Theorem missing_sender_is_Unknown
    (self : ChatAnalyzer.analyzer) (fs : filesystem) (data : json)
    (msgs : list json) (fields : list (string * json)) (d : date)
    (dc : ChatAnalyzer.daily_counts) (n : nat) :
  subscript data "messages" = Ok (JArr msgs) ->
  In (JObj fields) msgs ->
  assoc "from" fields = None ->
  day_of (JObj fields) = Some d ->
  ChatAnalyzer.analyze_chat self fs data = Ok (dc, n) ->
  sender_of (JObj fields) = Some (KStr "Unknown")
  /\ (forall st,
        ChatAnalyzer.ingest self st (JObj fields)
        = ChatAnalyzer.ingest self st
            (JObj (("from", JStr "Unknown") :: fields)))
  /\ message_count dc d (KStr "Unknown")
     = List.length (filter (filed_under d (KStr "Unknown")) msgs)
  /\ day_total dc d = List.length (filter (on_day d) msgs)
  /\ 1 <= message_count dc d (KStr "Unknown") <= day_total dc d
  /\ (forall fs' st, PeriodScript.count_one fs' st (JObj fields) = Ok st)
  /\ (forall counts missing,
        PeriodScript.count_sender (counts, missing) (JObj fields)
        = Ok (counts, S missing)).
Proof.
  intros Hdata Hin Hfrom Hday Hrun.
  assert (Hsender : sender_of (JObj fields) = Some (KStr "Unknown")).
  { unfold sender_of, get. rewrite Hfrom. reflexivity. }
  assert (Hon : on_day d (JObj fields) = true).
  { unfold on_day. rewrite Hday. apply date_eqb_eq. reflexivity. }
  assert (Hfiled : filed_under d (KStr "Unknown") (JObj fields) = true).
  { unfold filed_under. rewrite Hon, Hsender. reflexivity. }
  destruct (analyze_chat_counts self fs data msgs dc n Hdata Hrun d
              (KStr "Unknown")) as [Hcount Htotal].
  split; [exact Hsender |].
  split; [intros st; apply ingest_missing_sender, Hfrom |].
  split; [exact Hcount |].
  split; [exact Htotal |].
  split.
  { rewrite Hcount, Htotal. split; [| apply filed_on_day].
    eapply filter_length_in; eassumption. }
  split.
  - intros fs' [pc unrecognized].
    unfold PeriodScript.count_one, subscript. rewrite Hfrom. reflexivity.
  - intros counts missing.
    unfold PeriodScript.count_sender, subscript. rewrite Hfrom. reflexivity.
Qed.

(** The theorem at a day with one message without sender and one of [A]. *)
Lemma missing_sender_is_Unknown_witness :
  let fields := [("date", JStr "2024-01-01T10:00:00"); ("text", JStr "hello")]
  in
  let d := mkdate 2024 1 1 in
  let dc := [(d, [(KStr "Unknown", ChatAnalyzer.mkstats 1 0 ["hello"]);
                  (KStr "A", ChatAnalyzer.mkstats 1 0 ["hi"])])] in
  let msgs := [JObj fields; Sample.message "2024-01-01T11:00:00" "A" "hi"] in
  sender_of (JObj fields) = Some (KStr "Unknown")
  /\ (forall st,
        ChatAnalyzer.ingest Sample.nouns st (JObj fields)
        = ChatAnalyzer.ingest Sample.nouns st
            (JObj (("from", JStr "Unknown") :: fields)))
  /\ message_count dc d (KStr "Unknown")
     = List.length (filter (filed_under d (KStr "Unknown")) msgs)
  /\ day_total dc d = List.length (filter (on_day d) msgs)
  /\ 1 <= message_count dc d (KStr "Unknown") <= day_total dc d
  /\ (forall fs' st, PeriodScript.count_one fs' st (JObj fields) = Ok st)
  /\ (forall counts missing,
        PeriodScript.count_sender (counts, missing) (JObj fields)
        = Ok (counts, S missing)).
Proof.
  apply (missing_sender_is_Unknown Sample.nouns Sample.no_files
           (Sample.export
              [Sample.anonymous "2024-01-01T10:00:00" "hello";
               Sample.message "2024-01-01T11:00:00" "A" "hi"])
           _ _ _ _ 0).
  - reflexivity.
  - simpl. left. reflexivity.
  - reflexivity.
  - reflexivity.
  - reflexivity.
Defined.

(* ===================================================================== *)
(** * The [words] field of the analyzer *)
(* ===================================================================== *)

Lemma update_Forall {K V : Type} (eqb : K -> K -> bool) (P : V -> Prop)
    (k : K) (default : V) (f : V -> V) (d : list (K * V)) :
  P (f default) -> (forall v, P v -> P (f v)) ->
  Forall (fun e => P (snd e)) d ->
  Forall (fun e => P (snd e)) (update eqb k default f d).
Proof.
  intros Hd Hf H. induction H as [| [k' v] d Hv H IH]; simpl.
  - constructor; [exact Hd | constructor].
  - simpl in Hv. destruct (eqb k k'); constructor; simpl; auto.
Qed.

Lemma update_words_zero (d : date) (k : pykey)
    (f : ChatAnalyzer.stats -> ChatAnalyzer.stats)
    (dc : ChatAnalyzer.daily_counts) :
  (forall st, ChatAnalyzer.words (f st) = ChatAnalyzer.words st) ->
  words_all_zero dc ->
  words_all_zero
    (update date_eqb d [] (update key_eqb k ChatAnalyzer.new_stats f) dc).
Proof.
  intros Hf H. unfold words_all_zero.
  apply (update_Forall date_eqb
           (Forall (fun e => ChatAnalyzer.words (snd e) = 0))).
  - apply (update_Forall key_eqb (fun st => ChatAnalyzer.words st = 0)).
    + rewrite Hf. reflexivity.
    + intros st Hst. rewrite Hf. exact Hst.
    + constructor.
  - intros senders Hs.
    apply (update_Forall key_eqb (fun st => ChatAnalyzer.words st = 0)).
    + rewrite Hf. reflexivity.
    + intros st Hst. rewrite Hf. exact Hst.
    + exact Hs.
  - exact H.
Qed.

Lemma ingest_words_zero (self : ChatAnalyzer.analyzer) (l : list json)
    (st st' : ChatAnalyzer.daily_counts * list ChatAnalyzer.voice_task) :
  foldM (ChatAnalyzer.ingest self) l st = Ok st' ->
  words_all_zero (fst st) -> words_all_zero (fst st').
Proof.
  revert st. induction l as [| m l IH]; intros st H Hz; simpl in H.
  - inversion H; subst. exact Hz.
  - destruct (ChatAnalyzer.ingest self st m) as [st1 | e] eqn:Hm;
      cbn [bind] in H; [| discriminate].
    apply (IH _ H). clear IH H. destruct st as [dc tasks].
    unfold ChatAnalyzer.ingest in Hm.
    repeat match type of Hm with
           | bind ?r _ = _ => destruct r; cbn [bind] in Hm; [| discriminate]
           | (if ?b then _ else _) = _ => destruct b
           end;
      inversion Hm; subst; simpl;
      repeat (apply update_words_zero; [intros st; reflexivity |]);
      exact Hz.
Qed.

Lemma merge_words_zero (self : ChatAnalyzer.analyzer) (fs : filesystem)
    (tasks : list ChatAnalyzer.voice_task)
    (st st' : ChatAnalyzer.daily_counts * nat) :
  foldM (ChatAnalyzer.merge self fs) tasks st = Ok st' ->
  words_all_zero (fst st) -> words_all_zero (fst st').
Proof.
  revert st. induction tasks as [| task tasks IH]; intros st H Hz;
    simpl in H.
  - inversion H; subst. exact Hz.
  - destruct (ChatAnalyzer.merge self fs st task) as [st1 | e] eqn:Hm;
      cbn [bind] in H; [| discriminate].
    apply (IH _ H). clear IH H.
    destruct st as [dc n], task as [[d0 k0] file].
    unfold ChatAnalyzer.merge in Hm.
    destruct (ChatAnalyzer.process_voice_message self fs file) as [toks | e];
      cbn [bind] in Hm; [| discriminate].
    destruct toks; inversion Hm; subst; simpl; [exact Hz |].
    apply update_words_zero; [intros st; reflexivity | exact Hz].
Qed.

(** No statement of [analyze_chat] writes [words]: it is 0 in every record
    of every result. *)
Lemma words_stay_zero (self : ChatAnalyzer.analyzer) (fs : filesystem)
    (data : json) (dc : ChatAnalyzer.daily_counts) (n : nat) :
  ChatAnalyzer.analyze_chat self fs data = Ok (dc, n) -> words_all_zero dc.
Proof.
  unfold ChatAnalyzer.analyze_chat, ChatAnalyzer.schedule. intros H.
  destruct (subscript data "messages") as [v | e]; cbn [bind] in H;
    [| discriminate].
  destruct (iterate v) as [msgs | e]; cbn [bind] in H; [| discriminate].
  destruct (sorted_by_date msgs) as [sorted | e]; cbn [bind] in H;
    [| discriminate].
  destruct (foldM (ChatAnalyzer.ingest self) sorted ([], []))
    as [st | e] eqn:Hingest; cbn [bind] in H; [| discriminate].
  apply (merge_words_zero self fs _ _ _ H). simpl.
  apply (ingest_words_zero self _ _ _ Hingest). constructor.
Qed.

(** C1, the program at a failing input: one text message with the two
    content words [hello] and [world].  The record of its sender ends with
    two tokens and with [words] still 0, so [words] is not the length of
    [tokens]. *)
Theorem words_is_not_token_count :
  ChatAnalyzer.analyze_chat Sample.nouns Sample.no_files
    (Sample.export [Sample.message "2024-01-01T10:00:00" "A" "Hello the world"])
  = Ok ([(mkdate 2024 1 1,
          [(KStr "A", ChatAnalyzer.mkstats 1 0 ["hello"; "world"])])], 0)
  /\ ChatAnalyzer.words (ChatAnalyzer.mkstats 1 0 ["hello"; "world"])
     <> List.length
          (ChatAnalyzer.tokens (ChatAnalyzer.mkstats 1 0 ["hello"; "world"])).
Proof. split; [reflexivity | simpl; discriminate]. Qed.

(* ===================================================================== *)
(** * The periods of the script *)
(* ===================================================================== *)

(** The loop of the specification stops with the timestamp before the
    boundary. *)
Lemma advance_fits (width : Z) (fuel : nat) (cursor : Z * instant)
    (t : instant) :
  (1 <= width)%Z ->
  (fst t - fst (snd cursor) < Z.of_nat fuel)%Z ->
  instant_ltb t (snd (Spec.advance fuel width cursor t)) = true.
Proof.
  intros Hw. revert cursor. induction fuel as [| fuel IH]; intros cursor H.
  - simpl. unfold instant_ltb. apply orb_true_iff. left.
    apply Z.ltb_lt. lia.
  - simpl. destruct (instant_ltb t (snd cursor)) eqn:E; [exact E |].
    apply IH. simpl. lia.
Qed.

Lemma assign_fits (width : Z) (cursor : Z * instant) (t : instant) :
  (1 <= width)%Z ->
  instant_ltb t (snd (Spec.assign width cursor t)) = true.
Proof.
  intros Hw. unfold Spec.assign. apply advance_fits; [exact Hw | lia].
Qed.

(** The main loop never ends with an empty current period. *)
Lemma step_current_period (fs : filesystem) (l : list json)
    (st st' : PeriodScript.state) :
  foldM (PeriodScript.step fs) l st = Ok st' ->
  (l <> [] \/ PeriodScript.current_period st <> []) ->
  PeriodScript.current_period st' <> []
  /\ (List.length (PeriodScript.period_counts st)
      = List.length (PeriodScript.periods st) ->
      List.length (PeriodScript.period_counts st')
      = List.length (PeriodScript.periods st')).
Proof.
  revert st. induction l as [| m l IH]; intros st H Hne; simpl in H.
  - inversion H; subst. split; [| auto].
    destruct Hne as [Hne | Hne]; [congruence | exact Hne].
  - destruct (PeriodScript.step fs st m) as [st1 | e] eqn:Hm;
      cbn [bind] in H; [| discriminate].
    assert (H1 : PeriodScript.current_period st1 <> []
                 /\ (List.length (PeriodScript.period_counts st)
                     = List.length (PeriodScript.periods st) ->
                     List.length (PeriodScript.period_counts st1)
                     = List.length (PeriodScript.periods st1))).
    { unfold PeriodScript.step in Hm.
      repeat match type of Hm with
             | bind ?r _ = _ => destruct r; cbn [bind] in Hm; [| discriminate]
             | (if ?b then _ else _) = _ => destruct b
             | (let '(_, _) := ?p in _) = _ => destruct p
             end;
        inversion Hm; subst; simpl.
      - split; [| auto]. destruct (PeriodScript.current_period st); discriminate.
      - split; [discriminate |]. rewrite !length_app. simpl. lia. }
    destruct H1 as [Hcur Hlen].
    destruct (IH st1 H (or_intror Hcur)) as [Hcur' Hlen'].
    split; [exact Hcur' | auto].
Qed.

(** Whenever the script gets to its plot, the messages of the last period
    are still in [current_period], counted in no period. *)
Lemma last_period_never_counted (fs : filesystem) (data : json)
    (out : PeriodScript.outcome) :
  PeriodScript.run fs data = Ok out ->
  PeriodScript.current_period (PeriodScript.final out) <> []
  /\ List.length (PeriodScript.period_counts (PeriodScript.final out))
     = List.length (PeriodScript.periods (PeriodScript.final out)).
Proof.
  unfold PeriodScript.run. intros H.
  repeat match type of H with
         | bind ?r _ = _ =>
             let E := fresh "E" in
             destruct r eqn:E; cbn [bind] in H; [| discriminate]
         end.
  inversion H; subst. simpl.
  match goal with
  | E : foldM (PeriodScript.step fs) ?l ?st0 = Ok _ |- _ =>
      destruct (step_current_period fs l st0 _ E) as [Hcur Hlen]
  end.
  - left. intros ->. discriminate.
  - split; [exact Hcur | apply Hlen; reflexivity].
Qed.

(** C4, the program at a failing input: a batch of one message.  The main
    loop puts the message in [current_period] and ends; no period is ever
    closed, so the message is in no period and in no period count. *)
Theorem final_period_is_dropped :
  match PeriodScript.run Sample.no_files
          (Sample.export [Sample.message "2024-01-01T10:00:00" "A" "hello"])
  with
  | Ok out =>
      PeriodScript.periods (PeriodScript.final out) = []
      /\ PeriodScript.period_counts (PeriodScript.final out) = []
      /\ PeriodScript.current_period (PeriodScript.final out)
         = [Sample.message "2024-01-01T10:00:00" "A" "hello"]
      /\ PeriodScript.period_labels out = []
  | Raise _ => False
  end.
Proof. vm_compute. repeat split. Qed.

(** C2, the program at a failing input: messages on day 0, day 100 and day
    101 of a chat.  The boundary moves by one width per closed period, so
    the message of day 100 closes period 0 and opens period 1, whose label
    is day 30, and the message of day 101 is already past the new boundary
    (day 60) and opens period 2; the loop of the specification puts both
    in period 3. *)
Theorem boundary_advances_once :
  match PeriodScript.run Sample.no_files
          (Sample.export
             [Sample.message "2024-01-01T10:00:00" "A" "zero";
              Sample.message "2024-04-10T10:00:00" "A" "hundred";
              Sample.message "2024-04-11T10:00:00" "B" "next"])
  with
  | Ok out =>
      PeriodScript.periods (PeriodScript.final out)
      = [[Sample.message "2024-01-01T10:00:00" "A" "zero"];
         [Sample.message "2024-04-10T10:00:00" "A" "hundred"]]
      /\ PeriodScript.current_period (PeriodScript.final out)
         = [Sample.message "2024-04-11T10:00:00" "B" "next"]
      /\ PeriodScript.current_period_end (PeriodScript.final out)
         = ((toordinal 2024 1 1 + 90)%Z, 36000%Z)
      /\ PeriodScript.period_labels out
         = [(toordinal 2024 1 1, 36000%Z);
            ((toordinal 2024 1 1 + 30)%Z, 36000%Z)]
      /\ toordinal 2024 4 10 = (toordinal 2024 1 1 + 100)%Z
      /\ Spec.keys PeriodScript.days_per_period sparse_instants
         = [0; 3; 3]%Z
  | Raise _ => False
  end.
Proof. vm_compute. repeat split. Qed.

(* ===================================================================== *)
(** * The order of the sorted messages *)
(* ===================================================================== *)

Section InsertionSort.

Context {A : Type} (before : A -> A -> bool).
Hypothesis before_asym : forall a b, before a b = true -> before b a = false.
Hypothesis before_trans :
  forall a b c, before b a = false -> before c b = false -> before c a = false.

Lemma insert_sorted (x : A) (l : list A) :
  StronglySorted (fun a b => before b a = false) l ->
  StronglySorted (fun a b => before b a = false) (insert before x l).
Proof.
  intros Hs. induction Hs as [| y l Hs IH Hy]; simpl.
  - repeat constructor.
  - destruct (before y x) eqn:E.
    + constructor; [exact IH |].
      eapply Permutation_Forall;
        [apply Permutation_sym, insert_perm | constructor].
      * apply before_asym, E.
      * exact Hy.
    + constructor; [constructor; assumption |].
      constructor; [exact E |].
      rewrite Forall_forall in *. intros z Hz.
      apply (before_trans x y z); [exact E | apply Hy, Hz].
Qed.

Lemma sort_sorted (l : list A) :
  StronglySorted (fun a b => before b a = false) (sort before l).
Proof.
  induction l as [| x l IH]; simpl; [constructor | apply insert_sorted, IH].
Qed.

(** Stability: the elements of a class that nothing of the class goes
    strictly before keep their order. *)
Lemma filter_insert (p : A -> bool) (x : A) (l : list A) :
  (forall y, p x = true -> before y x = true -> p y = false) ->
  filter p (insert before x l) = filter p (x :: l).
Proof.
  intros Hp. induction l as [| y l IH]; simpl; [reflexivity |].
  destruct (before y x) eqn:E; [| reflexivity].
  simpl. rewrite IH. simpl.
  destruct (p x) eqn:Ex; [| reflexivity].
  rewrite (Hp y eq_refl E). reflexivity.
Qed.

Lemma filter_sort (p : A -> bool) (l : list A) :
  (forall x y, p x = true -> before y x = true -> p y = false) ->
  filter p (sort before l) = filter p l.
Proof.
  intros Hp. induction l as [| x l IH]; simpl; [reflexivity |].
  rewrite filter_insert by (apply Hp). simpl. rewrite IH. reflexivity.
Qed.

End InsertionSort.

Lemma instant_ltb_lt (a b : instant) :
  instant_ltb a b = true
  <-> (fst a < fst b \/ (fst a = fst b /\ snd a < snd b))%Z.
Proof.
  unfold instant_ltb.
  rewrite orb_true_iff, andb_true_iff, !Z.ltb_lt, Z.eqb_eq. reflexivity.
Qed.

Lemma instant_ltb_ge (a b : instant) :
  instant_ltb a b = false
  <-> (fst b < fst a \/ (fst a = fst b /\ snd b <= snd a))%Z.
Proof.
  rewrite <- not_true_iff_false, instant_ltb_lt. lia.
Qed.

Lemma datetime_ltb_asym (a b : datetime) :
  datetime_ltb a b = true -> datetime_ltb b a = false.
Proof.
  unfold datetime_ltb. rewrite instant_ltb_lt, instant_ltb_ge. lia.
Qed.

Lemma datetime_ltb_trans (a b c : datetime) :
  datetime_ltb b a = false -> datetime_ltb c b = false ->
  datetime_ltb c a = false.
Proof.
  unfold datetime_ltb. rewrite !instant_ltb_ge. lia.
Qed.

Lemma same_instant_earlier (t x y : datetime) :
  same_instant x t = true -> datetime_ltb y x = true ->
  same_instant y t = false.
Proof.
  unfold same_instant, datetime_ltb.
  rewrite andb_true_iff, andb_false_iff, !negb_true_iff, !negb_false_iff.
  rewrite !instant_ltb_ge, !instant_ltb_lt. lia.
Qed.

(** The keyed list that [sorted] works on: each message under its parsed
    date. *)
Lemma sort_keys_ok (msgs : list json) (keyed : list (datetime * json)) :
  mapM sort_key msgs = Ok keyed ->
  map snd keyed = msgs /\ Forall (fun p => sort_key (snd p) = Ok p) keyed.
Proof.
  intros H. apply mapM_ok in H.
  induction H as [| x y l l' Hxy _ [IH1 IH2]]; simpl.
  - split; constructor.
  - assert (Hy : snd y = x).
    { unfold sort_key in Hxy.
      destruct (subscript x "date") as [d | e]; simpl in Hxy; [| discriminate].
      destruct (parse_date d) as [t | e]; simpl in Hxy; [| discriminate].
      inversion Hxy; reflexivity. }
    split; [f_equal; assumption |].
    constructor; [rewrite Hy; exact Hxy | exact IH2].
Qed.

Lemma filter_dated_keyed (t : datetime) (keyed : list (datetime * json)) :
  Forall (fun p => sort_key (snd p) = Ok p) keyed ->
  filter (dated t) (map snd keyed)
  = map snd (filter (fun p => same_instant (fst p) t) keyed).
Proof.
  intros H. induction H as [| [t' x] l Hp _ IH]; simpl; [reflexivity |].
  unfold dated at 1. simpl in Hp. rewrite Hp. simpl.
  destruct (same_instant t' t); simpl; rewrite IH; reflexivity.
Qed.

(** X1: when the dates of all messages parse, [sorted] returns the same
    messages, none lost or repeated, in an order in which no message is
    earlier than one before it, and the messages of one instant keep the
    order they had in the input. *)
Theorem sorted_by_date_is_stable_sort (msgs sorted : list json) :
  sorted_by_date msgs = Ok sorted ->
  Permutation sorted msgs
  /\ StronglySorted (fun a b => in_order a b = true) sorted
  /\ (forall t, filter (dated t) sorted = filter (dated t) msgs).
Proof.
  intros H. split; [apply sorted_by_date_perm, H |].
  unfold sorted_by_date in H. apply bind_ok in H.
  destruct H as [keyed [Hk H]]. inversion H; subst. clear H.
  destruct (sort_keys_ok msgs keyed Hk) as [Hsnd Hall].
  set (before := fun a b : datetime * json => datetime_ltb (fst a) (fst b)).
  assert (Hall' : Forall (fun p => sort_key (snd p) = Ok p)
                         (sort before keyed)).
  { eapply Permutation_Forall; [apply Permutation_sym, sort_perm | exact Hall]. }
  split.
  - assert (Hs : StronglySorted (fun a b => before b a = false)
                                (sort before keyed)).
    { apply sort_sorted.
      - intros a b. apply datetime_ltb_asym.
      - intros a b c. apply datetime_ltb_trans. }
    induction Hs as [| p l Hs IH Hp]; simpl; [constructor |].
    inversion Hall' as [| ? ? Hkp Hkl]; subst.
    constructor; [apply IH, Hkl |].
    rewrite Forall_map. rewrite Forall_forall in *. intros q Hq.
    unfold in_order. rewrite Hkp, (Hkl q Hq).
    destruct p as [tp xp], q as [tq xq]. simpl.
    specialize (Hp _ Hq). unfold before in Hp. simpl in Hp. rewrite Hp.
    reflexivity.
  - intros t. rewrite <- Hsnd.
    rewrite !filter_dated_keyed by assumption. f_equal.
    apply filter_sort. intros x y Hx Hy.
    eapply same_instant_earlier; eassumption.
Qed.

(** The theorem at three messages, two of them of the same second. *)
Lemma sorted_by_date_is_stable_sort_witness :
  let a := Sample.message "2024-01-02T09:00:00" "A" "late" in
  let b := Sample.message "2024-01-01T10:00:00" "B" "first" in
  let c := Sample.message "2024-01-01T10:00:00" "C" "second" in
  Permutation [b; c; a] [a; b; c]
  /\ StronglySorted (fun x y => in_order x y = true) [b; c; a]
  /\ (forall t, filter (dated t) [b; c; a] = filter (dated t) [a; b; c]).
Proof.
  apply sorted_by_date_is_stable_sort. reflexivity.
Defined.

(* ===================================================================== *)
(** * What the analyzer records *)
(* ===================================================================== *)

(** Reading a record back after an update of the record of [(d0, k0)]. *)
Lemma stats_of_update (d0 : date) (k0 : pykey)
    (f : ChatAnalyzer.stats -> ChatAnalyzer.stats)
    (dc : ChatAnalyzer.daily_counts) (d : date) (k : pykey) :
  stats_of (update date_eqb d0 []
              (update key_eqb k0 ChatAnalyzer.new_stats f) dc) d k
  = if date_eqb d d0 && key_eqb k k0 then f (stats_of dc d k)
    else stats_of dc d k.
Proof.
  unfold stats_of.
  rewrite (lookup_update_dict date_eqb date_eqb_eq).
  destruct (date_eqb d d0) eqn:Ed; simpl; [| reflexivity].
  apply date_eqb_eq in Ed. subst d0.
  rewrite (lookup_update_dict key_eqb key_eqb_eq).
  destruct (key_eqb k k0) eqn:Ek.
  - apply key_eqb_eq in Ek. subst k0.
    destruct (lookup date_eqb d dc) as [senders |]; [| reflexivity].
    destruct (lookup key_eqb k senders); reflexivity.
  - destruct (lookup date_eqb d dc) as [senders |]; reflexivity.
Qed.

Lemma total_messages_update (d0 : date) (k0 : pykey)
    (f : ChatAnalyzer.stats -> ChatAnalyzer.stats) (extra : nat)
    (dc : ChatAnalyzer.daily_counts) :
  (forall st, ChatAnalyzer.messages (f st) = ChatAnalyzer.messages st + extra) ->
  total_messages (update date_eqb d0 []
                    (update key_eqb k0 ChatAnalyzer.new_stats f) dc)
  = total_messages dc + extra.
Proof.
  intros Hf. unfold total_messages.
  induction dc as [| [d senders] dc IH]; cbn [update].
  - unfold sum_messages. simpl. rewrite Hf. simpl. lia.
  - destruct (date_eqb d0 d); cbn [map list_sum fold_right snd].
    + rewrite (sum_messages_update k0 f extra) by exact Hf. lia.
    + fold (list_sum (map (fun day => sum_messages (snd day))
                          (update date_eqb d0 []
                             (update key_eqb k0 ChatAnalyzer.new_stats f) dc))).
      rewrite IH. unfold list_sum. lia.
Qed.

(** One pass of the first loop: what it appends to the tokens of each
    record, to the tasks and to the total. *)
Lemma ingest_effect (self : ChatAnalyzer.analyzer)
    (dc dc' : ChatAnalyzer.daily_counts)
    (tasks tasks' : list ChatAnalyzer.voice_task) (m : json) :
  ChatAnalyzer.ingest self (dc, tasks) m = Ok (dc', tasks') ->
  tasks' = tasks ++ task_of m
  /\ total_messages dc' = S (total_messages dc)
  /\ forall d k,
       ChatAnalyzer.tokens (stats_of dc' d k)
       = ChatAnalyzer.tokens (stats_of dc d k)
         ++ (if filed_under d k m then text_tokens self m else []).
Proof.
  unfold ChatAnalyzer.ingest. intros H.
  destruct (subscript m "date") as [ds | e] eqn:Hds; cbn [bind] in H;
    [| discriminate].
  destruct (parse_date ds) as [t | e] eqn:Ht; cbn [bind] in H;
    [| discriminate].
  destruct (get m "from" (JStr "Unknown")) as [from | e] eqn:Hfrom;
    cbn [bind] in H; [| discriminate].
  destruct (as_key from) as [k0 | e] eqn:Hk0; cbn [bind] in H;
    [| discriminate].
  assert (Hday : day_of m = Some (date_of t)).
  { unfold day_of. rewrite Hds. cbn [bind]. rewrite Ht. reflexivity. }
  assert (Hsender : sender_of m = Some k0).
  { unfold sender_of. rewrite Hfrom. cbn [bind]. rewrite Hk0. reflexivity. }
  assert (Hfiled : forall d k, filed_under d k m
                               = date_eqb d (date_of t) && key_eqb k k0).
  { intros d k. unfold filed_under, on_day. rewrite Hday, Hsender.
    reflexivity. }
  unfold task_of, voice_file, text_tokens. rewrite Hday, Hsender.
  unfold ChatAnalyzer.count_message, ChatAnalyzer.extend_tokens in H.
  destruct (get m "media_type" JNull) as [mt | e]; cbn [bind] in H |- *;
    [| discriminate].
  destruct (eq_str mt "voice_message").
  - destruct (subscript m "file") as [file | e]; cbn [bind] in H;
      [| discriminate].
    inversion H; subst. split; [reflexivity | split].
    + rewrite (total_messages_update _ _ _ 1); [lia | intros st; simpl; lia].
    + intros d k. rewrite stats_of_update, Hfiled.
      destruct (date_eqb d (date_of t) && key_eqb k k0); simpl;
        rewrite app_nil_r; reflexivity.
  - destruct (get m "text" (JStr EmptyString)) as [txt | e];
      cbn [bind] in H |- *; [| discriminate].
    match type of H with
    | bind ?joined _ = _ => destruct joined as [txt' | e]
    end; cbn [bind] in H |- *; [| discriminate].
    destruct (ChatAnalyzer.tokenize_and_lemmatize self txt') as [toks | e];
      cbn [bind] in H; [| discriminate].
    inversion H; subst. split; [| split].
    + destruct (subscript m "file"); simpl; rewrite app_nil_r; reflexivity.
    + rewrite (total_messages_update _ _ _ 0) by (intros st; simpl; lia).
      rewrite (total_messages_update _ _ _ 1) by (intros st; simpl; lia).
      lia.
    + intros d k. rewrite !stats_of_update, Hfiled.
      destruct (date_eqb d (date_of t) && key_eqb k k0); simpl;
        [reflexivity | rewrite app_nil_r; reflexivity].
Qed.

Lemma ingest_all_effect (self : ChatAnalyzer.analyzer) (l : list json)
    (st st' : ChatAnalyzer.daily_counts * list ChatAnalyzer.voice_task) :
  foldM (ChatAnalyzer.ingest self) l st = Ok st' ->
  snd st' = snd st ++ flat_map task_of l
  /\ total_messages (fst st') = total_messages (fst st) + List.length l
  /\ forall d k,
       ChatAnalyzer.tokens (stats_of (fst st') d k)
       = ChatAnalyzer.tokens (stats_of (fst st) d k)
         ++ flat_map (fun m => if filed_under d k m
                               then text_tokens self m else []) l.
Proof.
  revert st. induction l as [| m l IH]; intros st H; simpl in H.
  - inversion H; subst. simpl. rewrite app_nil_r. repeat split; try lia.
    intros d k. rewrite app_nil_r. reflexivity.
  - destruct (ChatAnalyzer.ingest self st m) as [[dc1 tasks1] | e] eqn:Hm;
      cbn [bind] in H; [| discriminate].
    destruct st as [dc tasks].
    destruct (ingest_effect self dc dc1 tasks tasks1 m Hm) as [H1 [H2 H3]].
    destruct (IH _ H) as [H4 [H5 H6]]. simpl in *.
    split; [rewrite H4, H1, app_assoc; reflexivity |].
    split; [lia |].
    intros d k. rewrite H6, H3, app_assoc. reflexivity.
Qed.

(** The second loop: what it appends to the tokens of each record, and
    what it adds to the counter. *)
Lemma merge_effect (self : ChatAnalyzer.analyzer) (fs : filesystem)
    (tasks : list ChatAnalyzer.voice_task)
    (st st' : ChatAnalyzer.daily_counts * nat) :
  foldM (ChatAnalyzer.merge self fs) tasks st = Ok st' ->
  snd st' = snd st
            + List.length (filter (unresolved self fs) (map snd tasks))
  /\ total_messages (fst st') = total_messages (fst st)
  /\ forall d k,
       ChatAnalyzer.tokens (stats_of (fst st') d k)
       = ChatAnalyzer.tokens (stats_of (fst st) d k)
         ++ flat_map (fun task =>
                        if date_eqb d (fst (fst task))
                           && key_eqb k (snd (fst task))
                        then resolved self fs (snd task) else []) tasks.
Proof.
  revert st. induction tasks as [| task tasks IH]; intros st H; simpl in H.
  - inversion H; subst. simpl. repeat split; try lia.
    intros d k. rewrite app_nil_r. reflexivity.
  - destruct (ChatAnalyzer.merge self fs st task) as [st1 | e] eqn:Hm;
      cbn [bind] in H; [| discriminate].
    destruct (IH _ H) as [H1 [H2 H3]]. clear IH H.
    destruct st as [dc n], task as [[d0 k0] file].
    unfold ChatAnalyzer.merge in Hm. simpl.
    unfold unresolved at 1, resolved at 1.
    assert (Hres : forall d k,
              (if date_eqb d d0 && key_eqb k k0
               then resolved self fs file else [])
              = if date_eqb d d0 && key_eqb k k0
                then match ChatAnalyzer.process_voice_message self fs file with
                     | Ok toks => toks
                     | Raise _ => []
                     end
                else []) by reflexivity.
    destruct (ChatAnalyzer.process_voice_message self fs file) as [toks | e];
      cbn [bind] in Hm; [| discriminate].
    destruct toks as [| tok toks]; inversion Hm; subst; simpl in *.
    + split; [lia | split; [exact H2 |]].
      intros d k. rewrite H3, Hres.
      destruct (date_eqb d d0 && key_eqb k k0); reflexivity.
    + split; [lia | split].
      * rewrite H2. unfold ChatAnalyzer.extend_tokens.
        rewrite (total_messages_update _ _ _ 0) by (intros st; simpl; lia).
        lia.
      * intros d k. rewrite H3, Hres. unfold ChatAnalyzer.extend_tokens.
        rewrite stats_of_update.
        destruct (date_eqb d d0 && key_eqb k k0); simpl;
          [rewrite <- app_assoc |]; reflexivity.
Qed.

Lemma flat_map_nested {A B C : Type} (f : A -> list B) (g : B -> list C)
    (l : list A) :
  flat_map g (flat_map f l) = flat_map (fun x => flat_map g (f x)) l.
Proof.
  induction l as [| x l IH]; simpl; [reflexivity |].
  rewrite flat_map_app, IH. reflexivity.
Qed.

(** The tokens a scheduled task of [m] brings to the record [(d, k)]. *)
Lemma task_of_tokens (self : ChatAnalyzer.analyzer) (fs : filesystem)
    (d : date) (k : pykey) (m : json) :
  flat_map (fun task =>
              if date_eqb d (fst (fst task)) && key_eqb k (snd (fst task))
              then resolved self fs (snd task) else []) (task_of m)
  = if filed_under d k m then voice_tokens self fs m else [].
Proof.
  unfold task_of, filed_under, on_day, voice_tokens.
  destruct (day_of m) as [d0 |]; [| reflexivity].
  destruct (sender_of m) as [k0 |];
    [| rewrite andb_false_r; reflexivity].
  induction (voice_file m) as [| file files IH]; simpl.
  - destruct (date_eqb d d0 && key_eqb k k0); reflexivity.
  - rewrite IH. destruct (date_eqb d d0 && key_eqb k k0); reflexivity.
Qed.

(** X2: after an analysis that returns, every message of the batch is
    counted exactly once: the counts of all records add up to the number
    of messages, the total of a day is the number of messages of that day,
    and the count of a record is the number of messages of its day and
    sender. *)
Theorem every_message_is_counted_once
    (self : ChatAnalyzer.analyzer) (fs : filesystem) (data : json)
    (msgs : list json) (dc : ChatAnalyzer.daily_counts) (n : nat) :
  subscript data "messages" = Ok (JArr msgs) ->
  ChatAnalyzer.analyze_chat self fs data = Ok (dc, n) ->
  total_messages dc = List.length msgs
  /\ (forall d, day_total dc d = List.length (filter (on_day d) msgs))
  /\ (forall d k,
        message_count dc d k = List.length (filter (filed_under d k) msgs)).
Proof.
  intros Hdata H.
  pose proof (analyze_chat_counts self fs data msgs dc n Hdata H) as Hcounts.
  split; [| split; intros d; [apply (Hcounts d KNone) | intros k; apply Hcounts]].
  unfold ChatAnalyzer.analyze_chat, ChatAnalyzer.schedule in H.
  rewrite Hdata in H. cbn [bind iterate] in H.
  destruct (sorted_by_date msgs) as [sorted | e] eqn:Hsorted;
    cbn [bind] in H; [| discriminate].
  destruct (foldM (ChatAnalyzer.ingest self) sorted ([], []))
    as [st | e] eqn:Hingest; cbn [bind] in H; [| discriminate].
  destruct (merge_effect self fs _ _ _ H) as [_ [H1 _]].
  destruct (ingest_all_effect self _ _ _ Hingest) as [_ [H2 _]].
  simpl in H1, H2. rewrite H1, H2.
  apply Permutation_length, sorted_by_date_perm, Hsorted.
Qed.

Lemma every_message_is_counted_once_witness :
  total_messages sample_counts = List.length sample_batch
  /\ (forall d, day_total sample_counts d
                = List.length (filter (on_day d) sample_batch))
  /\ (forall d k,
        message_count sample_counts d k
        = List.length (filter (filed_under d k) sample_batch)).
Proof.
  apply (every_message_is_counted_once Sample.nouns sample_files
           (Sample.export sample_batch) sample_batch sample_counts 1).
  - reflexivity.
  - reflexivity.
Defined.

(** X3: after an analysis that returns, the tokens of a record are the
    tokens of the texts of its messages, in the order of the sorted
    messages, followed by the tokens of the transcripts of its voice
    messages, in the same order: a transcript never stands before a text,
    whatever the dates. *)
Theorem tokens_in_message_order
    (self : ChatAnalyzer.analyzer) (fs : filesystem) (data : json)
    (msgs sorted : list json) (dc : ChatAnalyzer.daily_counts) (n : nat) :
  subscript data "messages" = Ok (JArr msgs) ->
  sorted_by_date msgs = Ok sorted ->
  ChatAnalyzer.analyze_chat self fs data = Ok (dc, n) ->
  forall d k,
    ChatAnalyzer.tokens (stats_of dc d k)
    = flat_map (fun m => if filed_under d k m
                         then text_tokens self m else []) sorted
      ++ flat_map (fun m => if filed_under d k m
                            then voice_tokens self fs m else []) sorted.
Proof.
  intros Hdata Hsorted H d k.
  unfold ChatAnalyzer.analyze_chat, ChatAnalyzer.schedule in H.
  rewrite Hdata in H. cbn [bind iterate] in H. rewrite Hsorted in H.
  cbn [bind] in H.
  destruct (foldM (ChatAnalyzer.ingest self) sorted ([], []))
    as [st | e] eqn:Hingest; cbn [bind] in H; [| discriminate].
  destruct (merge_effect self fs _ _ _ H) as [_ [_ H1]].
  destruct (ingest_all_effect self _ _ _ Hingest) as [H2 [_ H3]].
  simpl in H1, H2, H3. rewrite H1, H3, H2. simpl. f_equal.
  rewrite flat_map_nested. apply flat_map_ext. intros m.
  apply task_of_tokens.
Qed.

Lemma tokens_in_message_order_witness :
  ChatAnalyzer.tokens (stats_of sample_counts (mkdate 2024 1 2) (KStr "B"))
  = flat_map (fun m => if filed_under (mkdate 2024 1 2) (KStr "B") m
                       then text_tokens Sample.nouns m else [])
             [Sample.message "2024-01-01T08:00:00" "A" "good morning";
              Sample.voice "2024-01-02T09:00:00" "B" "voice_messages/1.ogg";
              Sample.message "2024-01-02T09:30:00" "B" "hello";
              Sample.voice "2024-01-02T10:00:00" "B" "voice_messages/2.ogg"]
    ++ flat_map (fun m => if filed_under (mkdate 2024 1 2) (KStr "B") m
                          then voice_tokens Sample.nouns sample_files m
                          else [])
             [Sample.message "2024-01-01T08:00:00" "A" "good morning";
              Sample.voice "2024-01-02T09:00:00" "B" "voice_messages/1.ogg";
              Sample.message "2024-01-02T09:30:00" "B" "hello";
              Sample.voice "2024-01-02T10:00:00" "B" "voice_messages/2.ogg"].
Proof.
  apply (tokens_in_message_order Sample.nouns sample_files
           (Sample.export sample_batch) sample_batch _ sample_counts 1).
  - reflexivity.
  - reflexivity.
  - reflexivity.
Defined.

(** X4: after an analysis that returns, the unrecognized-voice counter is
    the number of voice references of the batch whose resolution gave no
    token; it never exceeds the number of voice messages. *)
Theorem unrecognized_counts_empty_resolutions
    (self : ChatAnalyzer.analyzer) (fs : filesystem) (data : json)
    (msgs : list json) (dc : ChatAnalyzer.daily_counts) (n : nat) :
  subscript data "messages" = Ok (JArr msgs) ->
  ChatAnalyzer.analyze_chat self fs data = Ok (dc, n) ->
  n = List.length (filter (unresolved self fs) (flat_map voice_file msgs))
  /\ n <= List.length (flat_map voice_file msgs).
Proof.
  intros Hdata H.
  assert (Hn : n = List.length (filter (unresolved self fs)
                                       (flat_map voice_file msgs))).
  { unfold ChatAnalyzer.analyze_chat, ChatAnalyzer.schedule in H.
    rewrite Hdata in H. cbn [bind iterate] in H.
    destruct (sorted_by_date msgs) as [sorted | e] eqn:Hsorted;
      cbn [bind] in H; [| discriminate].
    destruct (foldM (ChatAnalyzer.ingest self) sorted ([], []))
      as [st | e] eqn:Hingest; cbn [bind] in H; [| discriminate].
    destruct (merge_effect self fs _ _ _ H) as [H1 _].
    pose proof (ingest_tasks self _ _ _ Hingest) as H2.
    simpl in H1, H2. rewrite H1, H2.
    apply filter_length_perm, Permutation_flat_map, sorted_by_date_perm.
    exact Hsorted. }
  split; [exact Hn |]. rewrite Hn. apply filter_length_le.
Qed.

Lemma unrecognized_counts_empty_resolutions_witness :
  1 = List.length (filter (unresolved Sample.nouns sample_files)
                          (flat_map voice_file sample_batch))
  /\ 1 <= List.length (flat_map voice_file sample_batch).
Proof.
  apply (unrecognized_counts_empty_resolutions Sample.nouns sample_files
           (Sample.export sample_batch) sample_batch sample_counts 1).
  - reflexivity.
  - reflexivity.
Defined.

(* ===================================================================== *)
(** * The tokenizer *)
(* ===================================================================== *)

Lemma chars_text (l : list ascii) : chars (text l) = l.
Proof. apply list_ascii_of_string_of_list_ascii. Qed.

Lemma text_chars (s : string) : text (chars s) = s.
Proof. apply string_of_list_ascii_of_string. Qed.




(* ===================================================================== *)
(** * Transcript paths of usual references *)
(* ===================================================================== *)

Lemma chars_app (a b : string) : chars (a ++ b)%string = chars a ++ chars b.
Proof. induction a as [| c a IH]; simpl; [| rewrite IH]; reflexivity. Qed.

Lemma replace_absent (old new s : list ascii) :
  occurs_in old s = false -> replace_from old new 0 s = s.
Proof.
  induction s as [| c s IH]; intros H; [reflexivity |].
  simpl in H. apply orb_false_iff in H. destruct H as [H1 H2].
  cbn [replace_from]. rewrite H1, (IH H2). reflexivity.
Qed.

Lemma starts_with_app (p x y : list ascii) :
  List.length p <= List.length x ->
  starts_with p (x ++ y) = starts_with p x.
Proof.
  revert x. induction p as [| a p IH]; intros x H; [reflexivity |].
  destruct x as [| b x]; simpl in *; [lia |].
  rewrite IH by lia. reflexivity.
Qed.

Lemma starts_with_self (p y : list ascii) : starts_with p (p ++ y) = true.
Proof.
  induction p as [| a p IH]; simpl; [reflexivity |].
  rewrite IH, Ascii.eqb_refl. reflexivity.
Qed.

(** A string with one occurrence of the pattern: no occurrence starts in
    [a], none is in [b]. *)
Lemma replace_single (c0 : ascii) (old new a b : list ascii) :
  occurs_in (c0 :: old) (a ++ removelast (c0 :: old)) = false ->
  occurs_in (c0 :: old) b = false ->
  replace_from (c0 :: old) new 0 (a ++ (c0 :: old) ++ b) = a ++ new ++ b.
Proof.
  intros Ha Hb. induction a as [| c a IH].
  - cbn [app]. rewrite replace_from_step.
    change (c0 :: old ++ b) with ((c0 :: old) ++ b).
    rewrite starts_with_self, skipn_app, skipn_all, Nat.sub_diag.
    cbn [app skipn]. rewrite (replace_absent _ _ _ Hb). reflexivity.
  - assert (Hold : c0 :: old
                   = removelast (c0 :: old) ++ [last (c0 :: old) c0])
      by (apply app_removelast_last; discriminate).
    assert (Hlen : List.length (c0 :: old)
                   = S (List.length (removelast (c0 :: old)))).
    { rewrite Hold at 1. rewrite length_app. simpl. lia. }
    set (r := removelast (c0 :: old)) in *.
    set (z := last (c0 :: old) c0) in *.
    change ((c :: a) ++ r) with (c :: a ++ r) in Ha.
    cbn [occurs_in] in Ha.
    apply orb_false_iff in Ha. destruct Ha as [Hhead Htail].
    change ((c :: a) ++ (c0 :: old) ++ b) with (c :: a ++ (c0 :: old) ++ b).
    rewrite replace_from_step.
    assert (Hsplit : c :: a ++ (c0 :: old) ++ b
                     = (c :: a ++ r) ++ [z] ++ b).
    { rewrite Hold. cbn [app]. rewrite <- !app_assoc. reflexivity. }
    rewrite Hsplit at 1. rewrite starts_with_app, Hhead.
    + rewrite (IH Htail). reflexivity.
    + cbn [List.length]. rewrite length_app.
      cbn [List.length] in Hlen. lia.
Qed.

(** X7: for a reference [dir ++ voice_messages ++ name ++ .ogg] in which
    the folder name and the extension occur nowhere else, the transcript
    path is [dir ++ voice_messages_txt ++ name ++ .txt]. *)
Theorem usual_transcript_path (dir name : string) :
  occurs "voice_messages" (dir ++ "voice_message") = false ->
  occurs "voice_messages" (name ++ ".ogg") = false ->
  occurs ".ogg" (dir ++ "voice_messages_txt" ++ name ++ ".og") = false ->
  transcript_path (JStr (dir ++ "voice_messages" ++ name ++ ".ogg"))
  = Ok (dir ++ "voice_messages_txt" ++ name ++ ".txt")%string.
Proof.
  unfold occurs, transcript_path, replace. intros H1 H2 H3.
  rewrite !chars_app in *. f_equal.
  assert (Hfirst :
    replace_from (chars "voice_messages") (chars "voice_messages_txt") 0
      (chars dir ++ chars "voice_messages" ++ chars name ++ chars ".ogg")
    = chars dir ++ chars "voice_messages_txt" ++ chars name ++ chars ".ogg").
  { apply (replace_single "v"%char (chars "oice_messages")); assumption. }
  rewrite Hfirst, chars_text.
  assert (Hsecond :
    replace_from (chars ".ogg") (chars ".txt") 0
      ((chars dir ++ chars "voice_messages_txt" ++ chars name)
         ++ chars ".ogg" ++ [])
    = (chars dir ++ chars "voice_messages_txt" ++ chars name)
        ++ chars ".txt" ++ []).
  { apply (replace_single "."%char (chars "ogg")); [| reflexivity].
    rewrite <- !app_assoc. exact H3. }
  rewrite !app_nil_r, <- !app_assoc in Hsecond. rewrite Hsecond.
  rewrite <- !chars_app. apply text_chars.
Qed.

Lemma usual_transcript_path_witness :
  transcript_path (JStr ("chats/" ++ "voice_messages" ++ "/audio_1" ++ ".ogg"))
  = Ok ("chats/" ++ "voice_messages_txt" ++ "/audio_1" ++ ".txt")%string.
Proof.
  apply usual_transcript_path; reflexivity.
Defined.

(** X8: a reference that holds neither [voice_messages] nor [.ogg] is its
    own transcript path: the file it names is the one looked for, and the
    one whose content is tokenized when it is there. *)
Theorem reference_without_patterns
    (self : ChatAnalyzer.analyzer) (fs : filesystem) (ref : string) :
  occurs "voice_messages" ref = false ->
  occurs ".ogg" ref = false ->
  transcript_path (JStr ref) = Ok ref
  /\ ChatAnalyzer.process_voice_message self fs (JStr ref)
     = Ok match fs ref with
          | TextFile content => ChatAnalyzer.tokenize_str self content
          | _ => []
          end.
Proof.
  unfold occurs. intros H1 H2.
  assert (Hpath : transcript_path (JStr ref) = Ok ref).
  { unfold transcript_path, replace. f_equal.
    rewrite (replace_absent _ _ _ H1), text_chars.
    rewrite (replace_absent _ _ _ H2). apply text_chars. }
  split; [exact Hpath |].
  rewrite process_voice_message_cases, Hpath. reflexivity.
Qed.

Lemma reference_without_patterns_witness :
  transcript_path (JStr "(File not included.)") = Ok "(File not included.)"
  /\ ChatAnalyzer.process_voice_message Sample.nouns Sample.no_files
       (JStr "(File not included.)")
     = Ok match Sample.no_files "(File not included.)" with
          | TextFile content => ChatAnalyzer.tokenize_str Sample.nouns content
          | _ => []
          end.
Proof.
  apply reference_without_patterns; reflexivity.
Defined.

(* ===================================================================== *)
(** * The transcripts of the converter *)
(* ===================================================================== *)

Lemma forallb_rev {A : Type} (p : A -> bool) (l : list A) :
  forallb p (rev l) = forallb p l.
Proof.
  induction l as [| x l IH]; [reflexivity |].
  cbn [rev]. rewrite forallb_app, IH. cbn [forallb].
  rewrite andb_true_r. apply andb_comm.
Qed.

(** The root of a name with a three-letter extension that holds no dot. *)
Lemma splitext_root_ext (base : string) (a b c : ascii) :
  forallb (Ascii.eqb ".") (chars base) = false ->
  Ascii.eqb a "." = false -> Ascii.eqb b "." = false ->
  Ascii.eqb c "." = false ->
  Converter.splitext_root
    (base ++ String "." (String a (String b (String c EmptyString))))
  = base.
Proof.
  intros Hbase Ha Hb Hc. unfold Converter.splitext_root.
  rewrite chars_app, rev_app_distr.
  change (chars (String "." (String a (String b (String c EmptyString)))))
    with ["."%char; a; b; c].
  cbn [rev app Converter.before_last_dot]. rewrite Hc, Hb, Ha.
  cbn [Ascii.eqb Bool.eqb]. rewrite forallb_rev, Hbase, rev_involutive.
  apply text_chars.
Qed.

Lemma endswith_ext (base ext : string) :
  Converter.endswith (base ++ ext) ext = true.
Proof.
  unfold Converter.endswith.
  rewrite chars_app, rev_app_distr. apply starts_with_self.
Qed.

(** X18: the converter replaces the trailing extension only: for a
    recording [base.ogg] whose base is not made of dots, the transcript is
    written at [voice_messages_txt/base.txt], whatever the base holds.
    For [note.ogg.ogg] this is [voice_messages_txt/note.ogg.txt], where the
    analyzer and the script, which replace every [.ogg], do not look. *)
Theorem converter_keeps_inner_extensions (base : string) :
  forallb (Ascii.eqb ".") (chars base) = false ->
  Converter.transcript_of (base ++ ".ogg")
  = Some ("voice_messages_txt/" ++ base ++ ".txt")%string
  /\ Converter.transcript_of "note.ogg.ogg"
     = Some "voice_messages_txt/note.ogg.txt"
  /\ transcript_path (JStr "voice_messages/note.ogg.ogg")
     = Ok "voice_messages_txt/note.txt.txt".
Proof.
  intros Hbase. split; [| split; reflexivity].
  unfold Converter.transcript_of, Converter.wav_name, Converter.txt_name.
  rewrite (endswith_ext base ".ogg").
  rewrite (splitext_root_ext base "o" "g" "g" Hbase) by reflexivity.
  rewrite (endswith_ext base ".wav").
  rewrite (splitext_root_ext base "w" "a" "v" Hbase) by reflexivity.
  reflexivity.
Qed.

Lemma converter_keeps_inner_extensions_witness :
  Converter.transcript_of ("audio.1" ++ ".ogg")
  = Some ("voice_messages_txt/" ++ "audio.1" ++ ".txt")%string
  /\ Converter.transcript_of "note.ogg.ogg"
     = Some "voice_messages_txt/note.ogg.txt"
  /\ transcript_path (JStr "voice_messages/note.ogg.ogg")
     = Ok "voice_messages_txt/note.txt.txt".
Proof.
  apply (converter_keeps_inner_extensions "audio.1"). reflexivity.
Defined.

(* ===================================================================== *)
(** * A voice message without a file *)
(* ===================================================================== *)

(** X9: a voice message without a [file] field aborts the analysis of the
    batch it is in: the analyzer reads [message['file']] outside any
    handler.  The rolling-period script reads it inside its [try]: there
    the message is counted for its sender, adds no word and is not counted
    as unrecognized. *)
Theorem voice_without_file
    (self : ChatAnalyzer.analyzer) (fs : filesystem) (data : json)
    (msgs : list json) (fields : list (string * json)) (from : json)
    (sender : pykey) :
  subscript data "messages" = Ok (JArr msgs) ->
  In (JObj fields) msgs ->
  assoc "media_type" fields = Some (JStr "voice_message") ->
  assoc "file" fields = None ->
  assoc "from" fields = Some from ->
  as_key from = Ok sender ->
  (exists e, ChatAnalyzer.analyze_chat self fs data = Raise e)
  /\ (forall st, exists e,
        ChatAnalyzer.ingest self st (JObj fields) = Raise e)
  /\ (forall pc unrecognized,
        PeriodScript.count_one fs (pc, unrecognized) (JObj fields)
        = Ok (PeriodScript.add_message sender pc, unrecognized)).
Proof.
  intros Hdata Hin Hmedia Hfile Hfrom Hkey.
  assert (Hingest : forall st, exists e,
            ChatAnalyzer.ingest self st (JObj fields) = Raise e).
  { intros [dc tasks]. unfold ChatAnalyzer.ingest.
    apply bind_raises; intros date_str.
    apply bind_raises; intros d.
    apply bind_raises; intros sender_value.
    apply bind_raises; intros k.
    unfold get, subscript. rewrite Hmedia, Hfile. cbn [bind].
    exists KeyError. reflexivity. }
  split; [| split; [exact Hingest |]].
  - unfold ChatAnalyzer.analyze_chat, ChatAnalyzer.schedule.
    rewrite Hdata. cbn [bind iterate].
    destruct (sorted_by_date msgs) as [sorted | e] eqn:Hsorted; cbn [bind].
    + assert (Hin' : In (JObj fields) sorted).
      { eapply Permutation_in; [| exact Hin].
        apply Permutation_sym, sorted_by_date_perm, Hsorted. }
      destruct (foldM_raises (ChatAnalyzer.ingest self) _ sorted Hin'
                  Hingest ([], [])) as [e ->].
      exists e; reflexivity.
    + exists e; reflexivity.
  - intros pc unrecognized.
    unfold PeriodScript.count_one, subscript, get.
    rewrite Hfrom, Hmedia, Hfile. cbn [bind]. rewrite Hkey. reflexivity.
Qed.

Lemma voice_without_file_witness :
  let fields := [("date", JStr "2024-01-02T09:00:00"); ("from", JStr "B");
                 ("media_type", JStr "voice_message")] in
  let data := Sample.export
                [Sample.message "2024-01-01T10:00:00" "A" "hello";
                 JObj fields] in
  (exists e, ChatAnalyzer.analyze_chat Sample.nouns Sample.no_files data
             = Raise e)
  /\ (forall st, exists e,
        ChatAnalyzer.ingest Sample.nouns st (JObj fields) = Raise e)
  /\ (forall pc unrecognized,
        PeriodScript.count_one Sample.no_files (pc, unrecognized)
          (JObj fields)
        = Ok (PeriodScript.add_message (KStr "B") pc, unrecognized)).
Proof.
  apply (voice_without_file Sample.nouns Sample.no_files _
           [Sample.message "2024-01-01T10:00:00" "A" "hello";
            JObj [("date", JStr "2024-01-02T09:00:00"); ("from", JStr "B");
                  ("media_type", JStr "voice_message")]]
           _ (JStr "B")).
  - reflexivity.
  - simpl. right. left. reflexivity.
  - reflexivity.
  - reflexivity.
  - reflexivity.
  - reflexivity.
Defined.

(* ===================================================================== *)
(** * The plot and the report of [main] *)
(* ===================================================================== *)

(** Slicing with a step: item [i] of the slice is item [i * step] of the
    list. *)
Lemma stride_nth {A : Type} (step skip : nat) (l : list A) (i : nat) :
  1 <= step ->
  nth_error (ChatAnalyzer.stride step skip l) i
  = nth_error l (skip + i * step).
Proof.
  intros Hstep. revert skip i. induction l as [| x l IH]; intros skip i.
  - simpl. destruct i, (skip + _); reflexivity.
  - destruct skip as [| skip]; simpl.
    + destruct i as [| i]; [reflexivity |]. simpl. rewrite IH.
      replace (step + i * step) with (S (step - 1 + i * step)) by lia.
      reflexivity.
    + apply IH.
Qed.

Lemma stride_length {A : Type} (step skip : nat) (l : list A) :
  1 <= step ->
  step * List.length (ChatAnalyzer.stride step skip l) + skip
  <= List.length l + step - 1 \/ List.length l <= skip.
Proof.
  intros Hstep. revert skip. induction l as [| x l IH]; intros skip.
  - right. simpl. lia.
  - destruct skip as [| skip]; simpl.
    + left. destruct (IH (step - 1)) as [H | H].
      * rewrite Nat.mul_succ_r. lia.
      * assert (E : ChatAnalyzer.stride step (step - 1) l = []).
        { clear IH. revert H. generalize (step - 1) as k.
          induction l as [| y l IHl]; intros k Hk; [reflexivity |].
          destruct k as [| k]; simpl in *; [lia | apply IHl; lia]. }
        rewrite E. simpl. lia.
    + destruct (IH skip) as [H | H]; [left | right]; lia.
Qed.

Lemma stride_incl {A : Type} (step skip : nat) (l : list A) :
  incl (ChatAnalyzer.stride step skip l) l.
Proof.
  revert skip. induction l as [| x l IH]; intros skip y Hy; simpl in Hy.
  - contradiction.
  - destruct skip as [| skip].
    + destruct Hy as [-> | Hy]; [left; reflexivity | right].
      apply (IH _ _ Hy).
    + right. apply (IH _ _ Hy).
Qed.

(** X10: the axis of the plot gets at most 19 ticks, however many days
    there are; the ticks are dates of the list, the first date among them,
    taken at equal distance: tick [i] is date [i * step], for the step
    [max(1, len(dates) // 10)]. *)
Theorem date_ticks_bounded (dates : list date) :
  List.length (ChatAnalyzer.date_ticks dates) <= 19
  /\ List.length (ChatAnalyzer.date_ticks dates) <= List.length dates
  /\ incl (ChatAnalyzer.date_ticks dates) dates
  /\ hd_error (ChatAnalyzer.date_ticks dates) = hd_error dates
  /\ (forall i,
        nth_error (ChatAnalyzer.date_ticks dates) i
        = nth_error dates (i * Nat.max 1 (List.length dates / 10))).
Proof.
  unfold ChatAnalyzer.date_ticks.
  set (n := List.length dates). set (step := Nat.max 1 (n / 10)).
  assert (Hstep : 1 <= step) by (unfold step; lia).
  assert (Hdiv : 10 * (n / 10) <= n < 10 * (n / 10) + 10).
  { pose proof (Nat.div_mod_eq n 10).
    pose proof (Nat.mod_upper_bound n 10). lia. }
  assert (Hlen : List.length (ChatAnalyzer.stride step 0 dates) <= 19
                 /\ List.length (ChatAnalyzer.stride step 0 dates) <= n).
  { destruct (stride_length step 0 dates Hstep) as [H | H]; fold n in H.
    - destruct (Nat.max_spec 1 (n / 10)) as [[Hlt E] | [Hge E]];
        fold step in E; split; nia.
    - assert (E : dates = [])
        by (destruct dates; [reflexivity | simpl in *; lia]).
      rewrite E. simpl. lia. }
  destruct Hlen as [H19 Hn].
  split; [exact H19 | split; [exact Hn |]].
  split; [apply stride_incl |].
  split; [destruct dates; reflexivity |].
  intros i. rewrite stride_nth by exact Hstep. reflexivity.
Qed.

Section DictKeys.

Context {K V : Type} (eqb : K -> K -> bool).
Hypothesis eqb_eq : forall a b, eqb a b = true <-> a = b.

Lemma update_keys_dict (k : K) (default : V) (f : V -> V)
    (d : list (K * V)) :
  map fst (update eqb k default f d)
  = if existsb (eqb k) (map fst d) then map fst d else map fst d ++ [k].
Proof.
  induction d as [| [k' v] d IH]; simpl; [reflexivity |].
  destruct (eqb k k'); simpl; [reflexivity |].
  rewrite IH. destruct (existsb (eqb k) (map fst d)); reflexivity.
Qed.

(** An update never makes a key occur twice. *)
Lemma update_NoDup (k : K) (default : V) (f : V -> V) (d : list (K * V)) :
  NoDup (map fst d) -> NoDup (map fst (update eqb k default f d)).
Proof.
  intros H. rewrite update_keys_dict.
  destruct (existsb (eqb k) (map fst d)) eqn:E; [exact H |].
  apply NoDup_app; [exact H | repeat constructor; intros [] |].
  intros x Hx [<- | []].
  assert (existsb (eqb k) (map fst d) = true).
  { apply existsb_exists. exists k. split; [exact Hx | apply eqb_eq; reflexivity]. }
  congruence.
Qed.

End DictKeys.

Lemma update_distinct_keys (d : date) (k : pykey)
    (f : ChatAnalyzer.stats -> ChatAnalyzer.stats)
    (dc : ChatAnalyzer.daily_counts) :
  distinct_keys dc ->
  distinct_keys (update date_eqb d []
                   (update key_eqb k ChatAnalyzer.new_stats f) dc).
Proof.
  intros [Hd Hs]. split.
  - apply (update_NoDup date_eqb date_eqb_eq), Hd.
  - apply (update_Forall date_eqb (fun senders => NoDup (map fst senders))).
    + apply (update_NoDup key_eqb key_eqb_eq). constructor.
    + intros senders H. apply (update_NoDup key_eqb key_eqb_eq), H.
    + exact Hs.
Qed.

Lemma ingest_distinct_keys (self : ChatAnalyzer.analyzer) (l : list json)
    (st st' : ChatAnalyzer.daily_counts * list ChatAnalyzer.voice_task) :
  foldM (ChatAnalyzer.ingest self) l st = Ok st' ->
  distinct_keys (fst st) -> distinct_keys (fst st').
Proof.
  revert st. induction l as [| m l IH]; intros st H Hz; simpl in H.
  - inversion H; subst. exact Hz.
  - destruct (ChatAnalyzer.ingest self st m) as [st1 | e] eqn:Hm;
      cbn [bind] in H; [| discriminate].
    apply (IH _ H). clear IH H. destruct st as [dc tasks].
    unfold ChatAnalyzer.ingest in Hm.
    repeat match type of Hm with
           | bind ?r _ = _ => destruct r; cbn [bind] in Hm; [| discriminate]
           | (if ?b then _ else _) = _ => destruct b
           end;
      inversion Hm; subst; simpl;
      repeat apply update_distinct_keys; exact Hz.
Qed.

Lemma merge_distinct_keys (self : ChatAnalyzer.analyzer) (fs : filesystem)
    (tasks : list ChatAnalyzer.voice_task)
    (st st' : ChatAnalyzer.daily_counts * nat) :
  foldM (ChatAnalyzer.merge self fs) tasks st = Ok st' ->
  distinct_keys (fst st) -> distinct_keys (fst st').
Proof.
  revert st. induction tasks as [| task tasks IH]; intros st H Hz;
    simpl in H.
  - inversion H; subst. exact Hz.
  - destruct (ChatAnalyzer.merge self fs st task) as [st1 | e] eqn:Hm;
      cbn [bind] in H; [| discriminate].
    apply (IH _ H). clear IH H.
    destruct st as [dc n], task as [[d0 k0] file].
    unfold ChatAnalyzer.merge in Hm.
    destruct (ChatAnalyzer.process_voice_message self fs file) as [toks | e];
      cbn [bind] in Hm; [| discriminate].
    destruct toks; inversion Hm; subst; simpl; [exact Hz |].
    apply update_distinct_keys, Hz.
Qed.

Lemma analyze_chat_distinct_keys (self : ChatAnalyzer.analyzer)
    (fs : filesystem) (data : json) (dc : ChatAnalyzer.daily_counts)
    (n : nat) :
  ChatAnalyzer.analyze_chat self fs data = Ok (dc, n) -> distinct_keys dc.
Proof.
  unfold ChatAnalyzer.analyze_chat, ChatAnalyzer.schedule. intros H.
  destruct (subscript data "messages") as [v | e]; cbn [bind] in H;
    [| discriminate].
  destruct (iterate v) as [msgs | e]; cbn [bind] in H; [| discriminate].
  destruct (sorted_by_date msgs) as [sorted | e]; cbn [bind] in H;
    [| discriminate].
  destruct (foldM (ChatAnalyzer.ingest self) sorted ([], []))
    as [st | e] eqn:Hingest; cbn [bind] in H; [| discriminate].
  apply (merge_distinct_keys self fs _ _ _ H). simpl.
  apply (ingest_distinct_keys self _ _ _ Hingest).
  split; constructor.
Qed.

Lemma date_ltb_lt (a b : date) :
  ChatAnalyzer.date_ltb a b = true
  <-> (dyear a < dyear b
       \/ (dyear a = dyear b
           /\ (dmonth a < dmonth b
               \/ (dmonth a = dmonth b /\ dday a < dday b))))%Z.
Proof.
  unfold ChatAnalyzer.date_ltb.
  rewrite !orb_true_iff, !andb_true_iff, !orb_true_iff, !andb_true_iff,
    !Z.ltb_lt, !Z.eqb_eq.
  reflexivity.
Qed.

Lemma date_ltb_total (a b : date) :
  ChatAnalyzer.date_ltb a b = false -> ChatAnalyzer.date_ltb b a = false ->
  a = b.
Proof.
  rewrite <- !not_true_iff_false, !date_ltb_lt. intros H1 H2.
  destruct a as [y m d], b as [y' m' d']; simpl in *.
  assert (y = y') by lia. assert (m = m') by lia. assert (d = d') by lia.
  congruence.
Qed.

Lemma date_ltb_asym (a b : date) :
  ChatAnalyzer.date_ltb a b = true -> ChatAnalyzer.date_ltb b a = false.
Proof.
  rewrite <- not_true_iff_false, !date_ltb_lt. lia.
Qed.

Lemma date_ltb_trans (a b c : date) :
  ChatAnalyzer.date_ltb b a = false -> ChatAnalyzer.date_ltb c b = false ->
  ChatAnalyzer.date_ltb c a = false.
Proof.
  rewrite <- !not_true_iff_false, !date_ltb_lt. lia.
Qed.

Lemma map_sort {A B : Type} (f : A -> B) (before : B -> B -> bool)
    (l : list A) :
  map f (sort (fun a b => before (f a) (f b)) l) = sort before (map f l).
Proof.
  induction l as [| x l IH]; simpl; [reflexivity |].
  rewrite <- IH. generalize (sort (fun a b => before (f a) (f b)) l) as s.
  induction s as [| y s IHs]; simpl; [reflexivity |].
  destruct (before (f y) (f x)); simpl; [rewrite IHs |]; reflexivity.
Qed.

Lemma StronglySorted_strict {A : Type} (R R' : A -> A -> Prop) (l : list A) :
  (forall a b, R a b -> a <> b -> R' a b) ->
  StronglySorted R l -> NoDup l -> StronglySorted R' l.
Proof.
  intros HR Hs. induction Hs as [| x l Hs IH Hx]; intros Hnd;
    [constructor |].
  inversion Hnd as [| ? ? Hnotin Hnd']; subst.
  constructor; [apply IH, Hnd' |].
  rewrite Forall_forall in *. intros y Hy. apply HR; [apply Hx, Hy |].
  intros ->. contradiction.
Qed.

(** X11: the report of [main] has one entry for each date of the counts,
    each date once, the dates in strictly ascending order, and at most
    five words for a date; the counts it reads have no date twice and no
    sender twice on a date. *)
Theorem report_lists_days_in_order
    (self : ChatAnalyzer.analyzer) (fs : filesystem) (data : json)
    (dc : ChatAnalyzer.daily_counts) (n : nat) :
  ChatAnalyzer.analyze_chat self fs data = Ok (dc, n) ->
  distinct_keys dc
  /\ map fst (ChatAnalyzer.top_words_per_day dc)
     = ChatAnalyzer.dates_with_activity dc
  /\ Permutation (ChatAnalyzer.dates_with_activity dc) (map fst dc)
  /\ StronglySorted (fun a b => ChatAnalyzer.date_ltb a b = true)
                    (ChatAnalyzer.dates_with_activity dc)
  /\ Forall (fun entry => List.length (snd entry) <= 5)
            (ChatAnalyzer.top_words_per_day dc).
Proof.
  intros H. pose proof (analyze_chat_distinct_keys self fs data dc n H) as Hk.
  split; [exact Hk |].
  assert (Hperm : Permutation (ChatAnalyzer.dates_with_activity dc)
                              (map fst dc)) by apply sort_perm.
  split; [| split; [exact Hperm | split]].
  - unfold ChatAnalyzer.top_words_per_day, ChatAnalyzer.dates_with_activity.
    rewrite map_map. simpl.
    apply (map_sort fst ChatAnalyzer.date_ltb).
  - apply (StronglySorted_strict
             (fun a b => ChatAnalyzer.date_ltb b a = false)).
    + intros a b Hba Hne.
      destruct (ChatAnalyzer.date_ltb a b) eqn:E; [reflexivity |].
      exfalso. apply Hne, date_ltb_total; assumption.
    + apply sort_sorted; [apply date_ltb_asym | apply date_ltb_trans].
    + eapply Permutation_NoDup;
        [apply Permutation_sym, Hperm | apply Hk].
  - unfold ChatAnalyzer.top_words_per_day. rewrite Forall_map.
    apply Forall_forall. intros entry _. simpl.
    unfold ChatAnalyzer.top_words, ChatAnalyzer.most_common.
    apply firstn_le_length.
Qed.

Lemma report_lists_days_in_order_witness :
  distinct_keys sample_counts
  /\ map fst (ChatAnalyzer.top_words_per_day sample_counts)
     = ChatAnalyzer.dates_with_activity sample_counts
  /\ Permutation (ChatAnalyzer.dates_with_activity sample_counts)
                 (map fst sample_counts)
  /\ StronglySorted (fun a b => ChatAnalyzer.date_ltb a b = true)
                    (ChatAnalyzer.dates_with_activity sample_counts)
  /\ Forall (fun entry => List.length (snd entry) <= 5)
            (ChatAnalyzer.top_words_per_day sample_counts).
Proof.
  apply (report_lists_days_in_order Sample.nouns sample_files
           (Sample.export sample_batch) sample_counts 1).
  reflexivity.
Defined.

(* ===================================================================== *)
(** * The deferred merge and the pipeline of the specification *)
(* ===================================================================== *)

Lemma map_update {K V W : Type} (eqb : K -> K -> bool) (h : V -> W)
    (f : V -> V) (f' : W -> W) (k : K) (default : V) (d : list (K * V)) :
  (forall v, h (f v) = f' (h v)) ->
  map (fun e => (fst e, h (snd e))) (update eqb k default f d)
  = update eqb k (h default) f' (map (fun e => (fst e, h (snd e))) d).
Proof.
  intros H. induction d as [| [k' v] d IH]; simpl.
  - rewrite H. reflexivity.
  - destruct (eqb k k'); simpl; [rewrite H | rewrite IH]; reflexivity.
Qed.

(** An update of the record of [(d0, k0)], seen on the records. *)
Lemma records_update {V : Type} (h : V -> nat * list string) (f : V -> V)
    (f' : nat * list string -> nat * list string) (d0 : date) (k0 : pykey)
    (default : V) (d : list (date * list (pykey * V))) :
  (forall v, h (f v) = f' (h v)) ->
  records h (update date_eqb d0 [] (update key_eqb k0 default f) d)
  = update date_eqb d0 [] (update key_eqb k0 (h default) f') (records h d).
Proof.
  intros H.
  exact (map_update date_eqb (map (fun e => (fst e, h (snd e))))
           (update key_eqb k0 default f) (update key_eqb k0 (h default) f')
           d0 [] d
           (fun senders => map_update key_eqb h f f' k0 default senders H)).
Qed.

Lemma count_message_records (d : date) (k : pykey)
    (dc : ChatAnalyzer.daily_counts) (agg : Spec.aggregator) :
  counted_records dc = aggregated_records agg ->
  counted_records (ChatAnalyzer.count_message d k dc)
  = aggregated_records (Spec.RecordMessage d k agg).
Proof.
  intros H.
  unfold counted_records, aggregated_records, ChatAnalyzer.count_message,
    Spec.RecordMessage in *.
  rewrite (records_update _ _ (fun p => (S (fst p), snd p)))
    by reflexivity.
  rewrite (records_update _ _ (fun p => (S (fst p), snd p)) d k
             Spec.empty_entry) by reflexivity.
  rewrite H. reflexivity.
Qed.

Lemma extend_tokens_records (d : date) (k : pykey) (toks : list string)
    (dc : ChatAnalyzer.daily_counts) (agg : Spec.aggregator) :
  counted_records dc = aggregated_records agg ->
  counted_records (ChatAnalyzer.extend_tokens d k toks dc)
  = aggregated_records (Spec.RecordTokens d k toks agg).
Proof.
  intros H.
  unfold counted_records, aggregated_records, ChatAnalyzer.extend_tokens,
    Spec.RecordTokens in *.
  rewrite (records_update _ _ (fun p => (fst p, snd p ++ toks)))
    by reflexivity.
  rewrite (records_update _ _ (fun p => (fst p, snd p ++ toks)) d k
             Spec.empty_entry) by reflexivity.
  rewrite H. reflexivity.
Qed.

(** One pass of the first loop is phase 1 on the message. *)
Lemma ingest_is_phase1 (self : ChatAnalyzer.analyzer)
    (dc dc' : ChatAnalyzer.daily_counts)
    (tasks tasks' : list ChatAnalyzer.voice_task) (m : json)
    (agg : Spec.aggregator) :
  ChatAnalyzer.ingest self (dc, tasks) m = Ok (dc', tasks') ->
  counted_records dc = aggregated_records agg ->
  exists agg',
    fold_left Spec.ingest (ingested self m) (agg, tasks) = (agg', tasks')
    /\ counted_records dc' = aggregated_records agg'.
Proof.
  unfold ChatAnalyzer.ingest. intros H Hrel.
  destruct (subscript m "date") as [ds | e] eqn:Hds; cbn [bind] in H;
    [| discriminate].
  destruct (parse_date ds) as [t | e] eqn:Ht; cbn [bind] in H;
    [| discriminate].
  destruct (get m "from" (JStr "Unknown")) as [from | e] eqn:Hfrom;
    cbn [bind] in H; [| discriminate].
  destruct (as_key from) as [k0 | e] eqn:Hk0; cbn [bind] in H;
    [| discriminate].
  assert (Hday : day_of m = Some (date_of t)).
  { unfold day_of. rewrite Hds. cbn [bind]. rewrite Ht. reflexivity. }
  assert (Hsender : sender_of m = Some k0).
  { unfold sender_of. rewrite Hfrom. cbn [bind]. rewrite Hk0. reflexivity. }
  unfold ingested, voice_file, text_tokens. rewrite Hday, Hsender.
  destruct (get m "media_type" JNull) as [mt | e]; cbn [bind] in H |- *;
    [| discriminate].
  destruct (eq_str mt "voice_message").
  - destruct (subscript m "file") as [file | e]; cbn [bind] in H;
      [| discriminate].
    inversion H; subst.
    exists (Spec.RecordMessage (date_of t) k0 agg).
    split; [reflexivity | apply count_message_records, Hrel].
  - destruct (get m "text" (JStr EmptyString)) as [txt | e];
      cbn [bind] in H |- *; [| discriminate].
    match type of H with
    | bind ?joined _ = _ => destruct joined as [txt' | e]
    end; cbn [bind] in H |- *; [| discriminate].
    destruct (ChatAnalyzer.tokenize_and_lemmatize self txt') as [toks | e];
      cbn [bind] in H; [| discriminate].
    inversion H; subst.
    exists (Spec.RecordTokens (date_of t) k0 toks
              (Spec.RecordMessage (date_of t) k0 agg)).
    split.
    + destruct (subscript m "file"); reflexivity.
    + apply extend_tokens_records, count_message_records, Hrel.
Qed.

Lemma first_loop_is_phase1 (self : ChatAnalyzer.analyzer) (l : list json)
    (dc dc' : ChatAnalyzer.daily_counts)
    (tasks tasks' : list ChatAnalyzer.voice_task) (agg : Spec.aggregator) :
  foldM (ChatAnalyzer.ingest self) l (dc, tasks) = Ok (dc', tasks') ->
  counted_records dc = aggregated_records agg ->
  exists agg',
    fold_left Spec.ingest (flat_map (ingested self) l) (agg, tasks)
    = (agg', tasks')
    /\ counted_records dc' = aggregated_records agg'.
Proof.
  revert dc tasks agg. induction l as [| m l IH]; intros dc tasks agg H Hrel.
  - simpl in H. inversion H; subst. exists agg. split; [reflexivity | exact Hrel].
  - cbn [foldM] in H.
    destruct (ChatAnalyzer.ingest self (dc, tasks) m) as [[dc1 tasks1] | e]
      eqn:Hm; cbn [bind] in H; [| discriminate].
    destruct (ingest_is_phase1 self dc dc1 tasks tasks1 m agg Hm Hrel)
      as [agg1 [Hstep Hrel1]].
    destruct (IH dc1 tasks1 agg1 H Hrel1) as [agg' [Hrest Hrel']].
    exists agg'. split; [| exact Hrel'].
    cbn [flat_map]. rewrite fold_left_app, Hstep. exact Hrest.
Qed.

(** One pass of the second loop applies the result of its task. *)
Lemma merge_applies_result (self : ChatAnalyzer.analyzer) (fs : filesystem)
    (dc dc' : ChatAnalyzer.daily_counts) (n n' : nat)
    (task : ChatAnalyzer.voice_task) (agg : Spec.aggregator) :
  ChatAnalyzer.merge self fs (dc, n) task = Ok (dc', n') ->
  counted_records dc = aggregated_records agg ->
  exists agg',
    Spec.apply_result (agg, n) task (Some (resolved self fs (snd task)))
    = (agg', n')
    /\ counted_records dc' = aggregated_records agg'.
Proof.
  destruct task as [[d k] file]. unfold ChatAnalyzer.merge, resolved.
  cbn [snd]. intros H Hrel.
  destruct (ChatAnalyzer.process_voice_message self fs file) as [toks | e];
    cbn [bind] in H; [| discriminate].
  destruct toks as [| tok toks]; inversion H; subst.
  - exists agg. split; [reflexivity | exact Hrel].
  - exists (Spec.RecordTokens d k (tok :: toks) agg).
    split; [reflexivity | apply extend_tokens_records, Hrel].
Qed.

Lemma second_loop_applies_results (self : ChatAnalyzer.analyzer)
    (fs : filesystem) (tasks : list ChatAnalyzer.voice_task)
    (dc dc' : ChatAnalyzer.daily_counts) (n n' : nat)
    (agg : Spec.aggregator) :
  foldM (ChatAnalyzer.merge self fs) tasks (dc, n) = Ok (dc', n') ->
  counted_records dc = aggregated_records agg ->
  exists agg',
    fold_left (fun st task =>
                 Spec.apply_result st task
                   (Some (resolved self fs (snd task)))) tasks (agg, n)
    = (agg', n')
    /\ counted_records dc' = aggregated_records agg'.
Proof.
  revert dc n agg. induction tasks as [| task tasks IH];
    intros dc n agg H Hrel.
  - simpl in H. inversion H; subst. exists agg. split; [reflexivity | exact Hrel].
  - cbn [foldM] in H.
    destruct (ChatAnalyzer.merge self fs (dc, n) task) as [[dc1 n1] | e]
      eqn:Hm; cbn [bind] in H; [| discriminate].
    destruct (merge_applies_result self fs dc dc1 n n1 task agg Hm Hrel)
      as [agg1 [Hstep Hrel1]].
    destruct (IH dc1 n1 agg1 H Hrel1) as [agg' [Hrest Hrel']].
    exists agg'. split; [| exact Hrel'].
    cbn [fold_left]. rewrite Hstep. exact Hrest.
Qed.

(** A result is found under the position of its task, wherever it stands
    in the completion order. *)
Lemma lookup_resolve_all (resolve : json -> list string)
    (tasks : list Spec.scheduled) (completion : list nat)
    (i : nat) (d : date) (k : pykey) (reference : json) :
  In i completion ->
  nth_error tasks i = Some (d, k, reference) ->
  lookup Nat.eqb i (Spec.resolve_all resolve tasks completion)
  = Some (resolve reference).
Proof.
  intros Hin Hi. induction completion as [| j rest IH]; simpl.
  - contradiction.
  - destruct (Nat.eqb i j) eqn:E.
    + apply Nat.eqb_eq in E. subst j. rewrite Hi. simpl.
      rewrite Nat.eqb_refl. reflexivity.
    + assert (N : i <> j) by (apply Nat.eqb_neq; exact E).
      destruct Hin as [Hj | Hin]; [congruence |].
      destruct (nth_error tasks j) as [[[dj kj] rj] |]; simpl.
      * rewrite E. apply IH, Hin.
      * apply IH, Hin.
Qed.

(** Phase 2 applies the results in the order of the schedule. *)
Lemma results_in_schedule_order (resolve : json -> list string)
    (completion : list nat) (pre suf : list Spec.scheduled)
    (st : Spec.aggregator * nat) :
  (forall i, i < List.length (pre ++ suf) -> In i completion) ->
  fold_left (Spec.merge (Spec.resolve_all resolve (pre ++ suf) completion))
            (combine (seq (List.length pre) (List.length suf)) suf) st
  = fold_left (fun st task =>
                 Spec.apply_result st task (Some (resolve (snd task))))
              suf st.
Proof.
  revert pre st. induction suf as [| task suf IH]; intros pre st Hall.
  - reflexivity.
  - cbn [List.length seq combine fold_left].
    assert (Hstep : Spec.merge
                      (Spec.resolve_all resolve (pre ++ task :: suf)
                         completion)
                      st (List.length pre, task)
                    = Spec.apply_result st task (Some (resolve (snd task)))).
    { destruct task as [[d k] reference]. unfold Spec.merge. cbn [fst snd].
      rewrite (lookup_resolve_all resolve _ completion _ d k reference).
      - reflexivity.
      - apply Hall. rewrite length_app. simpl. lia.
      - rewrite nth_error_app2 by lia. rewrite Nat.sub_diag. reflexivity. }
    rewrite Hstep.
    assert (Hlen : S (List.length pre) = List.length (pre ++ [task]))
      by (rewrite length_app; simpl; lia).
    assert (Happ : pre ++ task :: suf = (pre ++ [task]) ++ suf)
      by (rewrite <- app_assoc; reflexivity).
    rewrite Hlen, Happ. apply IH. rewrite <- Happ. exact Hall.
Qed.

(** Phase 1 schedules the references of the batch, in message order. *)
Lemma schedule_references (batch : list Spec.message)
    (st : Spec.aggregator * list Spec.scheduled) :
  map snd (snd (fold_left Spec.ingest batch st))
  = map snd (snd st) ++ Spec.references batch.
Proof.
  revert st. induction batch as [| m batch IH]; intros st.
  - simpl. rewrite app_nil_r. reflexivity.
  - cbn [fold_left]. rewrite IH. unfold Spec.references. cbn [flat_map].
    unfold Spec.ingest. destruct (Spec.body m); cbn [snd].
    + reflexivity.
    + rewrite map_app, <- app_assoc. reflexivity.
Qed.

Lemma pipeline_in_schedule_order (resolve : json -> list string)
    (completion : list nat) (batch : list Spec.message) :
  completes batch completion = true ->
  Spec.pipeline resolve completion batch
  = fold_left (fun st task =>
                 Spec.apply_result st task (Some (resolve (snd task))))
              (snd (fold_left Spec.ingest batch ([], [])))
              (fst (fold_left Spec.ingest batch ([], [])), 0).
Proof.
  intros H. unfold Spec.pipeline.
  pose proof (schedule_references batch ([], [])) as Hrefs.
  destruct (fold_left Spec.ingest batch ([], [])) as [agg tasks].
  cbn [fst snd] in *.
  apply (results_in_schedule_order resolve completion [] tasks (agg, 0)).
  intros i Hi. cbn [app] in Hi.
  unfold completes in H. rewrite forallb_forall in H.
  assert (Hex : existsb (Nat.eqb i) completion = true).
  { apply H, in_seq. apply (f_equal (@List.length json)) in Hrefs.
    cbn [map app] in Hrefs. rewrite length_map in Hrefs.
    unfold Spec.scheduled in *. lia. }
  apply existsb_exists in Hex. destruct Hex as [j [Hj E]].
  apply Nat.eqb_eq in E. subst j. exact Hj.
Qed.

(** The report reads the records only. *)
Lemma report_of_records {V R : Type} (h : V -> nat * list string)
    (toks : V -> list string) (rank : list string -> R)
    (d : list (date * list (pykey * V))) :
  (forall v, snd (h v) = toks v) ->
  map (fun day => (fst day,
                   rank (flat_map (fun s => toks (snd s)) (snd day))))
      (sort (fun a b => ChatAnalyzer.date_ltb (fst a) (fst b)) d)
  = map (fun day => (fst day,
                     rank (flat_map (fun s => snd (snd s)) (snd day))))
        (sort (fun a b => ChatAnalyzer.date_ltb (fst a) (fst b))
              (records h d)).
Proof.
  intros Hh. unfold records.
  rewrite <- (map_sort
                (fun day : date * list (pykey * V) =>
                   (fst day, map (fun e => (fst e, h (snd e))) (snd day)))
                (fun a b => ChatAnalyzer.date_ltb (fst a) (fst b))).
  rewrite map_map. apply map_ext. intros day. cbn [fst snd]. do 2 f_equal.
  induction (snd day) as [| e l IH]; [reflexivity |].
  cbn [map flat_map fst snd]. rewrite Hh, IH. reflexivity.
Qed.

(** C5: the output of the analysis is the output of the two-phase pipeline
    of the specification on the messages in sorted order, whatever the
    order in which the scheduled resolutions complete: the same
    unrecognized-voice counter, the same days, senders, message counts and
    tokens in the same order, hence the same report of top words.  The
    pipeline itself gives the same output for any two completion orders
    that hold every scheduled resolution, because the results are applied in
    the order of the schedule, which is the order of the messages. *)
Theorem merge_follows_message_order
    (self : ChatAnalyzer.analyzer) (fs : filesystem) (data : json)
    (msgs sorted : list json) (dc : ChatAnalyzer.daily_counts) (n : nat)
    (completion1 completion2 : list nat) :
  subscript data "messages" = Ok (JArr msgs) ->
  sorted_by_date msgs = Ok sorted ->
  ChatAnalyzer.analyze_chat self fs data = Ok (dc, n) ->
  completes (flat_map (ingested self) sorted) completion1 = true ->
  completes (flat_map (ingested self) sorted) completion2 = true ->
  Spec.pipeline (resolved self fs) completion1
    (flat_map (ingested self) sorted)
  = Spec.pipeline (resolved self fs) completion2
      (flat_map (ingested self) sorted)
  /\ n = snd (Spec.pipeline (resolved self fs) completion1
                (flat_map (ingested self) sorted))
  /\ counted_records dc
     = aggregated_records
         (fst (Spec.pipeline (resolved self fs) completion1
                 (flat_map (ingested self) sorted)))
  /\ ChatAnalyzer.top_words_per_day dc
     = Spec.report (ChatAnalyzer.top_words 5)
         (fst (Spec.pipeline (resolved self fs) completion1
                 (flat_map (ingested self) sorted))).
Proof.
  intros Hdata Hsorted H H1 H2.
  rewrite (pipeline_in_schedule_order _ completion1 _ H1).
  rewrite (pipeline_in_schedule_order _ completion2 _ H2).
  split; [reflexivity |].
  unfold ChatAnalyzer.analyze_chat, ChatAnalyzer.schedule in H.
  rewrite Hdata in H. cbn [bind iterate] in H. rewrite Hsorted in H.
  cbn [bind] in H.
  destruct (foldM (ChatAnalyzer.ingest self) sorted ([], []))
    as [[dc1 tasks] | e] eqn:Hingest; cbn [bind fst snd] in H;
    [| discriminate].
  destruct (first_loop_is_phase1 self sorted [] dc1 [] tasks [] Hingest
              eq_refl) as [agg1 [Hphase1 Hrel1]].
  destruct (second_loop_applies_results self fs tasks dc1 dc 0 n agg1 H Hrel1)
    as [agg [Hphase2 Hrel]].
  repeat match goal with
         | |- context [fold_left Spec.ingest ?batch ?init] =>
             replace (fold_left Spec.ingest batch init) with (agg1, tasks)
               by (symmetry; exact Hphase1)
         end.
  cbn [fst snd].
  repeat match goal with
         | |- context [fold_left ?apply tasks (agg1, 0)] =>
             replace (fold_left apply tasks (agg1, 0)) with (agg, n)
               by (symmetry; exact Hphase2)
         end.
  cbn [fst snd].
  split; [reflexivity | split; [exact Hrel |]].
  unfold ChatAnalyzer.top_words_per_day, Spec.report.
  rewrite (report_of_records
             (fun st => (ChatAnalyzer.messages st, ChatAnalyzer.tokens st))
             ChatAnalyzer.tokens) by reflexivity.
  rewrite (report_of_records
             (fun e => (Spec.message_count e, Spec.tokens e))
             Spec.tokens (ChatAnalyzer.top_words 5) agg) by reflexivity.
  unfold counted_records, aggregated_records in Hrel. rewrite Hrel.
  reflexivity.
Qed.

(** The theorem at a batch with two voice messages of one sender, resolved
    first to last and last to first. *)
Lemma merge_follows_message_order_witness :
  Spec.pipeline (resolved Sample.nouns two_transcripts) [0; 1]
    (flat_map (ingested Sample.nouns) two_notes)
  = Spec.pipeline (resolved Sample.nouns two_transcripts) [1; 0]
      (flat_map (ingested Sample.nouns) two_notes)
  /\ 0 = snd (Spec.pipeline (resolved Sample.nouns two_transcripts) [0; 1]
                (flat_map (ingested Sample.nouns) two_notes))
  /\ counted_records two_notes_counts
     = aggregated_records
         (fst (Spec.pipeline (resolved Sample.nouns two_transcripts) [0; 1]
                 (flat_map (ingested Sample.nouns) two_notes)))
  /\ ChatAnalyzer.top_words_per_day two_notes_counts
     = Spec.report (ChatAnalyzer.top_words 5)
         (fst (Spec.pipeline (resolved Sample.nouns two_transcripts) [0; 1]
                 (flat_map (ingested Sample.nouns) two_notes))).
Proof.
  apply (merge_follows_message_order Sample.nouns two_transcripts
           (Sample.export two_notes) two_notes two_notes two_notes_counts 0
           [0; 1] [1; 0]).
  - reflexivity.
  - reflexivity.
  - reflexivity.
  - reflexivity.
  - reflexivity.
Defined.

(* ===================================================================== *)
(** * The script: senders and words *)
(* ===================================================================== *)

Lemma sum_counts_update (k : pykey) (d : list (pykey * nat)) :
  sum_counts (update key_eqb k 0 S d) = S (sum_counts d).
Proof.
  unfold sum_counts. induction d as [| [k' v] d IH]; simpl; [reflexivity |].
  destruct (key_eqb k k'); simpl; [| rewrite IH]; lia.
Qed.

Lemma count_sender_effect (l : list json)
    (st st' : list (pykey * nat) * nat) :
  foldM PeriodScript.count_sender l st = Ok st' ->
  sum_counts (fst st') = sum_counts (fst st) + List.length (filter has_from l)
  /\ snd st' = snd st + List.length (filter (fun m => negb (has_from m)) l)
  /\ (NoDup (map fst (fst st)) -> NoDup (map fst (fst st'))).
Proof.
  revert st. induction l as [| m l IH]; intros st H; simpl in H.
  - inversion H; subst. simpl. repeat split; try lia. auto.
  - destruct (PeriodScript.count_sender st m) as [st1 | e] eqn:Hm;
      cbn [bind] in H; [| discriminate].
    destruct (IH _ H) as [H1 [H2 H3]]. clear IH H.
    destruct st as [counts missing].
    unfold PeriodScript.count_sender in Hm. simpl.
    destruct (subscript m "from") as [from | e] eqn:Hfrom;
      cbn [bind except_KeyError] in Hm.
    + assert (Hhas : has_from m = true)
        by (unfold has_from; rewrite Hfrom; reflexivity).
      rewrite Hhas. simpl.
      destruct from; simpl in Hm; try discriminate;
        inversion Hm; subst; simpl in *;
        rewrite sum_counts_update in H1;
        (repeat split; try lia);
        intros Hnd; apply H3, (update_NoDup key_eqb key_eqb_eq), Hnd.
    + assert (Hhas : has_from m = false)
        by (unfold has_from; rewrite Hfrom; reflexivity).
      rewrite Hhas. simpl.
      destruct e; inversion Hm; subst; simpl in *.
      repeat split; try lia. exact H3.
Qed.

(** X12: in the first loop of the script every message is counted once,
    under its sender or as a message without sender: when the script gets
    to its plot, the counts of the senders and [not_message] add up to the
    number of messages, [not_message] is the number of messages without a
    [from] field, and no sender is listed twice. *)
Theorem senders_and_missing_add_up
    (fs : filesystem) (data : json) (msgs : list json)
    (out : PeriodScript.outcome) :
  subscript data "messages" = Ok (JArr msgs) ->
  PeriodScript.run fs data = Ok out ->
  sum_counts (PeriodScript.message_count out) + PeriodScript.not_message out
  = List.length msgs
  /\ PeriodScript.not_message out
     = List.length (filter (fun m => negb (has_from m)) msgs)
  /\ NoDup (map fst (PeriodScript.message_count out)).
Proof.
  intros Hdata H. unfold PeriodScript.run in H. rewrite Hdata in H.
  cbn [bind] in H.
  destruct (subscript data "name") as [name | e]; cbn [bind iterate] in H;
    [| discriminate].
  destruct (foldM PeriodScript.count_sender msgs ([], 0))
    as [totals | e] eqn:Htotals; cbn [bind] in H; [| discriminate].
  destruct (count_sender_effect _ _ _ Htotals) as [H1 [H2 H3]].
  repeat match type of H with
         | bind ?r _ = _ => destruct r; cbn [bind] in H; [| discriminate]
         end.
  inversion H; subst. simpl in *.
  split; [| split; [exact H2 | apply H3; constructor]].
  rewrite H1, H2. unfold sum_counts. simpl.
  clear. induction msgs as [| m msgs IH]; simpl; [reflexivity |].
  destruct (has_from m); simpl; lia.
Qed.

Lemma senders_and_missing_add_up_witness :
  sum_counts (PeriodScript.message_count script_outcome)
  + PeriodScript.not_message script_outcome
  = List.length script_batch
  /\ PeriodScript.not_message script_outcome
     = List.length (filter (fun m => negb (has_from m)) script_batch)
  /\ NoDup (map fst (PeriodScript.message_count script_outcome)).
Proof.
  apply (senders_and_missing_add_up Sample.no_files
           (Sample.export script_batch) script_batch script_outcome).
  - reflexivity.
  - reflexivity.
Defined.

(** The white-space characters of [split], byte by byte. *)

Lemma starts_with_length (p s : list ascii) :
  starts_with p s = true -> List.length p <= List.length s.
Proof.
  revert s. induction p as [| a p IH]; intros [| c s] H; simpl in *;
    try lia; try discriminate.
  apply andb_true_iff in H. destruct H as [_ H]. apply IH in H. lia.
Qed.

Lemma space_at_length (s : list ascii) : space_at s <= List.length s.
Proof.
  unfold space_at.
  destruct (find (fun w => starts_with w s) whitespace) as [w |] eqn:E;
    [| lia].
  apply find_some in E. apply starts_with_length, E.
Qed.

(** A byte that stands in no white-space character after its first byte
    cannot complete a character begun before it. *)
Lemma starts_with_before (p s : list ascii) (c : ascii) (rest : list ascii) :
  existsb (Ascii.eqb c) p = false ->
  starts_with p (s ++ c :: rest) = starts_with p s.
Proof.
  revert s. induction p as [| a p IH]; intros s H; [reflexivity |].
  cbn [existsb] in H. apply orb_false_iff in H. destruct H as [Ha Hp].
  destruct s as [| b s]; cbn [app starts_with].
  - rewrite Ascii.eqb_sym, Ha. reflexivity.
  - rewrite (IH s Hp). reflexivity.
Qed.

Lemma starts_with_sep (p s : list ascii) (c : ascii) (rest : list ascii) :
  clear_of c p = true -> s <> [] ->
  starts_with p (s ++ c :: rest) = starts_with p s.
Proof.
  intros H Hs. destruct p as [| a p]; [reflexivity |].
  destruct s as [| b s]; [contradiction |].
  cbn [app starts_with]. unfold clear_of in H. cbn [tl] in H.
  apply negb_true_iff in H. rewrite (starts_with_before p s c rest H).
  reflexivity.
Qed.

Lemma whitespace_heads :
  forallb (fun w => match w with
                    | [] => false
                    | c :: _ => forallb (clear_of c) whitespace
                    end) whitespace = true.
Proof. reflexivity. Qed.

Lemma space_at_before (s w rest : list ascii) :
  In w whitespace -> s <> [] -> space_at (s ++ w ++ rest) = space_at s.
Proof.
  intros Hw Hs.
  pose proof (proj1 (forallb_forall _ _) whitespace_heads w Hw) as H.
  destruct w as [| c w]; [discriminate |].
  rewrite forallb_forall in H. cbn [app]. unfold space_at.
  assert (E : forall l, (forall p, In p l -> In p whitespace) ->
              find (fun p => starts_with p (s ++ c :: w ++ rest)) l
              = find (fun p => starts_with p s) l).
  { induction l as [| p l IH]; intros Hl; [reflexivity |].
    cbn [find]. rewrite (starts_with_sep p s c (w ++ rest));
      [| apply H, Hl; left; reflexivity | exact Hs].
    rewrite IH; [reflexivity |]. intros q Hq. apply Hl. right. exact Hq. }
  rewrite E; [reflexivity | auto].
Qed.

(** No white-space character is the beginning of another. *)
Lemma space_at_whitespace (w rest : list ascii) :
  In w whitespace -> space_at (w ++ rest) = List.length w /\ w <> [].
Proof.
  intros H. unfold whitespace, bytes in H. simpl in H.
  repeat (destruct H as [<- | H]; [split; [reflexivity | discriminate] |]).
  contradiction.
Qed.

Lemma split_from_skip (k : nat) (cur s : list ascii) :
  split_from k cur s = split_from 0 cur (skipn k s).
Proof.
  revert k. induction s as [| c s IH]; intros k.
  - destruct k; reflexivity.
  - destruct k as [| k]; [reflexivity |]. cbn [split_from skipn]. apply IH.
Qed.

(** At a white-space character the run being read ends, and the scan goes
    on after the character. *)
Lemma split_from_whitespace (w cur rest : list ascii) :
  In w whitespace ->
  split_from 0 cur (w ++ rest) = flush cur ++ split_from 0 [] rest.
Proof.
  intros Hw. destruct (space_at_whitespace w rest Hw) as [E Hne].
  destruct w as [| c w]; [contradiction |].
  cbn [app] in *. cbn [split_from]. rewrite E. cbn [List.length].
  rewrite split_from_skip, skipn_app, skipn_all, Nat.sub_diag.
  reflexivity.
Qed.

(** A white-space character between two strings separates their words. *)
Lemma split_from_sep (w a rest : list ascii) (k : nat) (cur : list ascii) :
  In w whitespace -> k <= List.length a ->
  split_from k cur (a ++ w ++ rest)
  = split_from k cur a ++ split_from 0 [] rest.
Proof.
  intros Hw. revert k cur. induction a as [| c a IH]; intros k cur Hk.
  - cbn [List.length] in Hk. replace k with 0 by lia.
    cbn [app]. apply split_from_whitespace, Hw.
  - cbn [List.length] in Hk. destruct k as [| k].
    + change ((c :: a) ++ w ++ rest) with (c :: (a ++ w ++ rest)).
      cbn [split_from].
      change (c :: (a ++ w ++ rest)) with ((c :: a) ++ w ++ rest).
      rewrite (space_at_before (c :: a) w rest Hw) by discriminate.
      pose proof (space_at_length (c :: a)) as Hlen.
      cbn [List.length] in Hlen.
      destruct (space_at (c :: a)) as [| j].
      * apply IH. lia.
      * rewrite IH by lia. apply app_assoc.
    + cbn [app split_from]. apply IH. lia.
Qed.

Lemma words_of_sep (w : list ascii) (a b : string) :
  In w whitespace ->
  words_of (a ++ text w ++ b) = words_of a + words_of b.
Proof.
  intros Hw. unfold words_of, split_whitespace.
  rewrite !chars_app, chars_text, split_from_sep; [| exact Hw | lia].
  apply length_app.
Qed.

Lemma words_of_join (strs : list string) :
  words_of (join " " strs) = list_sum (map words_of strs).
Proof.
  induction strs as [| s strs IH]; [reflexivity |].
  destruct strs as [| s' strs].
  - simpl. lia.
  - change (join " " (s :: s' :: strs))
      with (s ++ text (bytes [32]) ++ join " " (s' :: strs))%string.
    rewrite words_of_sep.
    + rewrite IH. reflexivity.
    + unfold whitespace. apply in_or_app. left. apply in_map_iff.
      exists 32. split; [reflexivity |]. simpl. tauto.
Qed.

Lemma words_of_whitespace (ws : list (list ascii)) :
  Forall (fun w => In w whitespace) ws -> words_of (text (List.concat ws)) = 0.
Proof.
  unfold words_of, split_whitespace. rewrite chars_text.
  induction 1 as [| w ws Hw _ IH]; [reflexivity |].
  cbn [List.concat]. rewrite split_from_whitespace by exact Hw. exact IH.
Qed.

(** X13: [count_words] of a list whose items are strings, or dicts with a
    string under [text], is the sum of the word counts of these strings:
    joining them with spaces neither merges nor splits a word.  Any
    white-space character of Unicode does what the space does: between two
    strings it separates their words, and a string made of such characters
    only has no word. *)
Theorem count_words_adds_segments
    (items segs : list json) (strs : list string) :
  mapM PeriodScript.item_text items = Ok segs ->
  mapM ChatAnalyzer.as_str segs = Ok strs ->
  PeriodScript.count_words (JArr items) = Ok (list_sum (map words_of strs))
  /\ (forall w a b, In w whitespace ->
        PeriodScript.count_words (JStr (a ++ text w ++ b))
        = Ok (words_of a + words_of b))
  /\ (forall ws, Forall (fun w => In w whitespace) ws ->
        PeriodScript.count_words (JStr (text (List.concat ws))) = Ok 0).
Proof.
  intros Hsegs Hstrs. split; [| split].
  - unfold PeriodScript.count_words. rewrite Hsegs. cbn [bind].
    rewrite Hstrs. cbn [bind]. f_equal. apply words_of_join.
  - intros w a b Hw. cbn [PeriodScript.count_words bind]. f_equal.
    apply (words_of_sep w a b Hw).
  - intros ws Hws. cbn [PeriodScript.count_words bind]. f_equal.
    apply (words_of_whitespace ws Hws).
Qed.

Lemma count_words_adds_segments_witness :
  PeriodScript.count_words
    (JArr [JStr "see "; JObj [("type", JStr "link"); ("text", JStr "this page")];
           JStr " now"])
  = Ok (list_sum (map words_of ["see "; "this page"; " now"]))
  /\ (forall w a b, In w whitespace ->
        PeriodScript.count_words (JStr (a ++ text w ++ b))
        = Ok (words_of a + words_of b))
  /\ (forall ws, Forall (fun w => In w whitespace) ws ->
        PeriodScript.count_words (JStr (text (List.concat ws))) = Ok 0).
Proof.
  apply (count_words_adds_segments _
           [JStr "see "; JStr "this page"; JStr " now"]).
  - reflexivity.
  - reflexivity.
Defined.

(* ===================================================================== *)
(** * The script: periods *)
(* ===================================================================== *)

Lemma period_total_update (k : pykey)
    (f : PeriodScript.counts -> PeriodScript.counts) (extra : nat)
    (pc : PeriodScript.period_count) :
  (forall c, PeriodScript.messages (f c) = PeriodScript.messages c + extra) ->
  period_total (update key_eqb k PeriodScript.new_counts f pc)
  = period_total pc + extra.
Proof.
  intros Hf. unfold period_total.
  induction pc as [| [k' c] pc IH]; simpl.
  - rewrite Hf. simpl. lia.
  - destruct (key_eqb k k'); simpl; [rewrite Hf | rewrite IH]; lia.
Qed.

Lemma period_total_add_message (k : pykey) (pc : PeriodScript.period_count) :
  period_total (PeriodScript.add_message k pc) = S (period_total pc).
Proof.
  unfold PeriodScript.add_message.
  rewrite (period_total_update k _ 1); [lia | intros c; simpl; lia].
Qed.

Lemma period_total_add_words (k : pykey) (n : nat)
    (pc : PeriodScript.period_count) :
  period_total (PeriodScript.add_words k n pc) = period_total pc.
Proof.
  unfold PeriodScript.add_words.
  rewrite (period_total_update k _ 0); [lia | intros c; simpl; lia].
Qed.

Lemma as_key_raises (x : json) (e : exn) :
  as_key x = Raise e -> e = TypeError.
Proof. destruct x; simpl; congruence. Qed.

(** One message of a closed period: it is counted when it has a sender,
    whatever else it lacks. *)
Lemma count_one_effect (fs : filesystem) (pc pc' : PeriodScript.period_count)
    (u u' : nat) (m : json) :
  PeriodScript.count_one fs (pc, u) m = Ok (pc', u') ->
  period_total pc' = period_total pc + indicator (has_from m) /\ u <= u'.
Proof.
  unfold PeriodScript.count_one, has_from. intros Hm.
  destruct (subscript m "from") as [from | e];
    cbn [bind except_KeyError] in Hm;
    [| destruct e; inversion Hm; subst; simpl; split; lia].
  destruct (as_key from) as [sender | e] eqn:Hkey;
    [| apply as_key_raises in Hkey; subst e; discriminate].
  cbn [bind] in Hm.
  assert (Hdone : forall r,
            except_KeyError
              (except_KeyError r (Ok (PeriodScript.add_message sender pc, u)))
              (Ok (pc, u)) = Ok (pc', u') ->
            (forall pc2 u2, r = Ok (pc2, u2) ->
               period_total pc2
               = S (period_total pc) /\ u <= u2) ->
            period_total pc' = period_total pc + indicator true /\ u <= u').
  { intros r Hr Hok. destruct r as [[pc2 u2] | e].
    - simpl in Hr. inversion Hr; subst.
      destruct (Hok _ _ eq_refl). simpl. split; lia.
    - destruct e; simpl in Hr; inversion Hr; subst;
        rewrite period_total_add_message; simpl; split; lia. }
  apply (Hdone _ Hm). clear Hdone Hm. intros pc2 u2 Hr.
  destruct (get m "media_type" JNull) as [mt | e]; cbn [bind] in Hr;
    [| discriminate].
  destruct (eq_str mt "voice_message").
  - destruct (subscript m "file") as [file | e]; cbn [bind] in Hr;
      [| discriminate].
    destruct (transcript_path file) as [path | e]; cbn [bind] in Hr;
      [| discriminate].
    destruct (isfile fs path).
    + destruct (read_text fs path) as [content | e]; cbn [bind] in Hr;
        [| discriminate].
      destruct (PeriodScript.count_words (JStr content)) as [n | e];
        cbn [bind] in Hr; [| discriminate].
      inversion Hr; subst.
      rewrite period_total_add_words, period_total_add_message. split; lia.
    + inversion Hr; subst. rewrite period_total_add_message. split; lia.
  - destruct (subscript m "text") as [t | e]; cbn [bind] in Hr;
      [| discriminate].
    destruct (PeriodScript.count_words t) as [n | e]; cbn [bind] in Hr;
      [| discriminate].
    inversion Hr; subst.
    rewrite period_total_add_words, period_total_add_message. split; lia.
Qed.

Lemma count_period_effect (fs : filesystem) (l : list json)
    (st st' : PeriodScript.period_count * nat) :
  foldM (PeriodScript.count_one fs) l st = Ok st' ->
  period_total (fst st')
  = period_total (fst st) + List.length (filter has_from l)
  /\ snd st <= snd st'.
Proof.
  revert st. induction l as [| m l IH]; intros st H; simpl in H.
  - inversion H; subst. simpl. split; lia.
  - destruct (PeriodScript.count_one fs st m) as [[pc1 u1] | e] eqn:Hm;
      cbn [bind] in H; [| discriminate].
    destruct st as [pc u].
    destruct (count_one_effect fs pc pc1 u u1 m Hm) as [H1 H2].
    destruct (IH _ H) as [H3 H4]. simpl in *.
    unfold indicator in H1. destruct (has_from m); simpl; split; lia.
Qed.

Lemma add_days_ok (t t' : instant) (n : Z) :
  add_days t n = Ok t' -> t' = ((fst t + n)%Z, snd t).
Proof.
  unfold add_days. destruct (fst t + n <=? max_ordinal)%Z; congruence.
Qed.

(** One turn of the main loop. *)
Lemma step_effect (fs : filesystem) (st st' : PeriodScript.state) (m : json) :
  PeriodScript.step fs st m = Ok st' ->
  List.concat (PeriodScript.periods st') ++ PeriodScript.current_period st'
  = (List.concat (PeriodScript.periods st) ++ PeriodScript.current_period st)
      ++ [m]
  /\ PeriodScript.current_period st' <> []
  /\ (PeriodScript.current_period st <> [] ->
      Forall (fun p => p <> []) (PeriodScript.periods st) ->
      Forall (fun p => p <> []) (PeriodScript.periods st'))
  /\ (Forall2 counted (PeriodScript.periods st)
              (PeriodScript.period_counts st) ->
      Forall2 counted (PeriodScript.periods st')
              (PeriodScript.period_counts st'))
  /\ PeriodScript.current_period_end st'
     = ((fst (PeriodScript.current_period_end st)
         + PeriodScript.days_per_period
           * (Z.of_nat (List.length (PeriodScript.periods st'))
              - Z.of_nat (List.length (PeriodScript.periods st))))%Z,
        snd (PeriodScript.current_period_end st))
  /\ PeriodScript.unrecognized_voice_count st
     <= PeriodScript.unrecognized_voice_count st'.
Proof.
  unfold PeriodScript.step. intros H.
  destruct (subscript m "date") as [ds | e]; cbn [bind] in H;
    [| discriminate].
  destruct (parse_date ds) as [t | e]; cbn [bind] in H; [| discriminate].
  destruct (instant_ltb (instant_of t) (PeriodScript.current_period_end st)).
  - inversion H; subst.
    cbn [PeriodScript.periods PeriodScript.period_counts
         PeriodScript.current_period PeriodScript.current_period_end
         PeriodScript.unrecognized_voice_count].
    rewrite app_assoc. repeat split; auto.
    + destruct (PeriodScript.current_period st); discriminate.
    + rewrite Z.sub_diag, Z.mul_0_r, Z.add_0_r.
      destruct (PeriodScript.current_period_end st); reflexivity.
  - destruct (foldM (PeriodScript.count_one fs)
                (PeriodScript.current_period st)
                ([], PeriodScript.unrecognized_voice_count st))
      as [[pc u] | e] eqn:Hcount; cbn [bind] in H; [| discriminate].
    destruct (add_days (PeriodScript.current_period_end st)
                PeriodScript.days_per_period) as [next | e] eqn:Hnext;
      cbn [bind] in H; [| discriminate].
    apply add_days_ok in Hnext.
    destruct (count_period_effect fs _ _ _ Hcount) as [Htotal Hu].
    inversion H; subst.
    cbn [PeriodScript.periods PeriodScript.period_counts
         PeriodScript.current_period PeriodScript.current_period_end
         PeriodScript.unrecognized_voice_count fst snd] in *.
    rewrite concat_app. cbn [List.concat]. rewrite !app_nil_r.
    repeat split.
    + discriminate.
    + intros Hcur Hall. apply Forall_app. split; [exact Hall |].
      constructor; [exact Hcur | constructor].
    + intros Hall. apply Forall2_app; [exact Hall |].
      constructor; [| constructor]. unfold counted. exact Htotal.
    + f_equal. rewrite length_app. cbn [List.length].
      unfold PeriodScript.days_per_period. lia.
    + exact Hu.
Qed.

Lemma steps_effect (fs : filesystem) (l : list json)
    (st st' : PeriodScript.state) :
  foldM (PeriodScript.step fs) l st = Ok st' ->
  List.concat (PeriodScript.periods st') ++ PeriodScript.current_period st'
  = (List.concat (PeriodScript.periods st) ++ PeriodScript.current_period st)
      ++ l
  /\ (PeriodScript.current_period st <> [] ->
      Forall (fun p => p <> []) (PeriodScript.periods st) ->
      Forall (fun p => p <> []) (PeriodScript.periods st'))
  /\ (Forall2 counted (PeriodScript.periods st)
              (PeriodScript.period_counts st) ->
      Forall2 counted (PeriodScript.periods st')
              (PeriodScript.period_counts st'))
  /\ PeriodScript.current_period_end st'
     = ((fst (PeriodScript.current_period_end st)
         + PeriodScript.days_per_period
           * (Z.of_nat (List.length (PeriodScript.periods st'))
              - Z.of_nat (List.length (PeriodScript.periods st))))%Z,
        snd (PeriodScript.current_period_end st))
  /\ PeriodScript.unrecognized_voice_count st
     <= PeriodScript.unrecognized_voice_count st'.
Proof.
  revert st. induction l as [| m l IH]; intros st H; simpl in H.
  - inversion H; subst. rewrite app_nil_r, Z.sub_diag, Z.mul_0_r, Z.add_0_r.
    repeat split; auto.
    destruct (PeriodScript.current_period_end st'); reflexivity.
  - destruct (PeriodScript.step fs st m) as [st1 | e] eqn:Hm;
      cbn [bind] in H; [| discriminate].
    destruct (step_effect fs st st1 m Hm) as [A1 [B1 [C1 [D1 [E1 F1]]]]].
    destruct (IH _ H) as [A2 [C2 [D2 [E2 F2]]]].
    split; [rewrite A2, A1, <- !app_assoc; reflexivity |].
    split; [intros Hcur Hall; apply C2; [exact B1 | apply C1; assumption] |].
    split; [intros Hall; apply D2, D1, Hall |].
    split; [| lia].
    rewrite E2, E1. cbn [fst snd]. f_equal.
    unfold PeriodScript.days_per_period. lia.
Qed.

(** Everything the main loop keeps, when the script gets to its plot. *)
Lemma run_periods (fs : filesystem) (data : json) (msgs : list json)
    (out : PeriodScript.outcome) :
  subscript data "messages" = Ok (JArr msgs) ->
  PeriodScript.run fs data = Ok out ->
  let final := PeriodScript.final out in
  let start := instant_of (PeriodScript.start_date out) in
  let closed := List.length (PeriodScript.periods final) in
  sorted_by_date msgs
  = Ok (List.concat (PeriodScript.periods final)
          ++ PeriodScript.current_period final)
  /\ Forall (fun p => p <> []) (PeriodScript.periods final)
  /\ Forall2 counted (PeriodScript.periods final)
             (PeriodScript.period_counts final)
  /\ PeriodScript.current_period_end final
     = ((fst start + PeriodScript.days_per_period * (Z.of_nat closed + 1))%Z,
        snd start)
  /\ PeriodScript.period_labels out
     = map (fun i => ((fst start
                       + PeriodScript.days_per_period * Z.of_nat i)%Z,
                      snd start))
           (seq 0 closed).
Proof.
  intros Hdata H. unfold PeriodScript.run in H. rewrite Hdata in H.
  cbn [bind] in H.
  destruct (subscript data "name") as [name | e]; cbn [bind iterate] in H;
    [| discriminate].
  destruct (foldM PeriodScript.count_sender msgs ([], 0)) as [totals | e];
    cbn [bind] in H; [| discriminate].
  destruct (sorted_by_date msgs) as [sorted | e] eqn:Hsorted;
    cbn [bind] in H; [| discriminate].
  destruct sorted as [| first rest]; cbn [bind] in H; [discriminate |].
  destruct (subscript first "date") as [ds | e] eqn:Hds; cbn [bind] in H;
    [| discriminate].
  destruct (parse_date ds) as [start | e] eqn:Hstart; cbn [bind] in H;
    [| discriminate].
  destruct (add_days (instant_of start) PeriodScript.days_per_period)
    as [first_end | e] eqn:Hend; cbn [bind] in H; [| discriminate].
  apply add_days_ok in Hend.
  destruct (foldM (PeriodScript.step fs) (first :: rest)
              (PeriodScript.mkstate [] [] [] first_end 0))
    as [st | e] eqn:Hloop; cbn [bind] in H; [| discriminate].
  match type of H with
  | bind ?r _ = _ => destruct r as [labels | e] eqn:Hlabels
  end; cbn [bind] in H; [| discriminate].
  inversion H; subst out. cbn [PeriodScript.final PeriodScript.start_date
                                PeriodScript.period_labels]. clear H.
  (* the first message is before the first boundary *)
  cbn [foldM] in Hloop.
  assert (Hfirst : PeriodScript.step fs
                     (PeriodScript.mkstate [] [] [] first_end 0) first
                   = Ok (PeriodScript.mkstate [] [] [first] first_end 0)).
  { unfold PeriodScript.step. rewrite Hds. cbn [bind]. rewrite Hstart.
    cbn [bind PeriodScript.current_period_end].
    assert (Hlt : instant_ltb (instant_of start) first_end = true).
    { apply instant_ltb_lt. rewrite Hend. cbn [fst snd].
      unfold PeriodScript.days_per_period. lia. }
    rewrite Hlt. reflexivity. }
  rewrite Hfirst in Hloop. cbn [bind] in Hloop.
  destruct (steps_effect fs rest _ st Hloop) as [A [C [D [E F]]]].
  cbn [PeriodScript.periods PeriodScript.period_counts
       PeriodScript.current_period PeriodScript.current_period_end
       List.concat app List.length] in A, C, D, E.
  assert (Hlen : List.length (PeriodScript.period_counts st)
                 = List.length (PeriodScript.periods st)).
  { symmetry. eapply Forall2_length. apply D. constructor. }
  split; [rewrite A; reflexivity |].
  split; [apply C; [discriminate | constructor] |].
  split; [apply D; constructor |].
  split.
  - rewrite E, Hend. cbn [fst snd List.length].
    unfold PeriodScript.days_per_period. f_equal. lia.
  - rewrite Hlen in Hlabels. clear - Hlabels.
    revert labels Hlabels.
    generalize (seq 0 (List.length (PeriodScript.periods st))) as idx.
    induction idx as [| i idx IH]; intros labels H; cbn [mapM] in H.
    + inversion H. reflexivity.
    + destruct (add_days (instant_of start)
                  (PeriodScript.days_per_period * Z.of_nat i))
        as [label | e] eqn:Hl; cbn [bind] in H; [| discriminate].
      apply add_days_ok in Hl.
      destruct (mapM _ idx) as [ls | e]; cbn [bind] in H; [| discriminate].
      inversion H; subst. simpl. f_equal. apply IH. reflexivity.
Qed.

(** X14: when the script gets to its plot, the closed periods followed by
    the current period are the sorted messages, cut into consecutive
    pieces: no message is in two periods and none is missing; no closed
    period is empty, so a gap of several widths makes no empty period;
    the boundary has moved by one width for each closed period, and
    label [i] is the start date plus [i] widths. *)
Theorem periods_cut_sorted_messages
    (fs : filesystem) (data : json) (msgs : list json)
    (out : PeriodScript.outcome) :
  subscript data "messages" = Ok (JArr msgs) ->
  PeriodScript.run fs data = Ok out ->
  sorted_by_date msgs
  = Ok (List.concat (PeriodScript.periods (PeriodScript.final out))
          ++ PeriodScript.current_period (PeriodScript.final out))
  /\ Forall (fun p => p <> []) (PeriodScript.periods (PeriodScript.final out))
  /\ PeriodScript.current_period_end (PeriodScript.final out)
     = ((fst (instant_of (PeriodScript.start_date out))
         + PeriodScript.days_per_period
           * (Z.of_nat (List.length
                          (PeriodScript.periods (PeriodScript.final out)))
              + 1))%Z,
        snd (instant_of (PeriodScript.start_date out)))
  /\ PeriodScript.period_labels out
     = map (fun i => ((fst (instant_of (PeriodScript.start_date out))
                       + PeriodScript.days_per_period * Z.of_nat i)%Z,
                      snd (instant_of (PeriodScript.start_date out))))
           (seq 0 (List.length
                     (PeriodScript.periods (PeriodScript.final out)))).
Proof.
  intros Hdata H.
  destruct (run_periods fs data msgs out Hdata H) as [A [B [_ [D E]]]].
  repeat split; assumption.
Qed.

Lemma periods_cut_sorted_messages_witness :
  sorted_by_date script_batch
  = Ok (List.concat (PeriodScript.periods (PeriodScript.final script_outcome))
          ++ PeriodScript.current_period (PeriodScript.final script_outcome))
  /\ Forall (fun p => p <> [])
            (PeriodScript.periods (PeriodScript.final script_outcome))
  /\ PeriodScript.current_period_end (PeriodScript.final script_outcome)
     = ((fst (instant_of (PeriodScript.start_date script_outcome))
         + PeriodScript.days_per_period
           * (Z.of_nat (List.length
                          (PeriodScript.periods
                             (PeriodScript.final script_outcome)))
              + 1))%Z,
        snd (instant_of (PeriodScript.start_date script_outcome)))
  /\ PeriodScript.period_labels script_outcome
     = map (fun i => ((fst (instant_of (PeriodScript.start_date script_outcome))
                       + PeriodScript.days_per_period * Z.of_nat i)%Z,
                      snd (instant_of (PeriodScript.start_date script_outcome))))
           (seq 0 (List.length
                     (PeriodScript.periods
                        (PeriodScript.final script_outcome)))).
Proof.
  apply (periods_cut_sorted_messages Sample.no_files
           (Sample.export script_batch)).
  - reflexivity.
  - reflexivity.
Defined.

(** X15: the script keeps one dict of counts for each closed period, and
    the message counts of that dict add up to the number of messages of
    the period that have a [from] field: such a message is counted once,
    also when its text or its file is missing, and a message without
    [from] is counted in no period. *)
Theorem closed_periods_count_senders
    (fs : filesystem) (data : json) (msgs : list json)
    (out : PeriodScript.outcome) :
  subscript data "messages" = Ok (JArr msgs) ->
  PeriodScript.run fs data = Ok out ->
  Forall2 counted (PeriodScript.periods (PeriodScript.final out))
          (PeriodScript.period_counts (PeriodScript.final out))
  /\ List.length (PeriodScript.period_counts (PeriodScript.final out))
     = List.length (PeriodScript.periods (PeriodScript.final out))
  /\ List.length (PeriodScript.period_labels out)
     = List.length (PeriodScript.periods (PeriodScript.final out)).
Proof.
  intros Hdata H.
  destruct (run_periods fs data msgs out Hdata H) as [_ [_ [C [_ E]]]].
  split; [exact C | split].
  - symmetry. eapply Forall2_length, C.
  - rewrite E, length_map, length_seq. reflexivity.
Qed.

Lemma closed_periods_count_senders_witness :
  Forall2 counted (PeriodScript.periods (PeriodScript.final script_outcome))
          (PeriodScript.period_counts (PeriodScript.final script_outcome))
  /\ List.length (PeriodScript.period_counts
                    (PeriodScript.final script_outcome))
     = List.length (PeriodScript.periods (PeriodScript.final script_outcome))
  /\ List.length (PeriodScript.period_labels script_outcome)
     = List.length (PeriodScript.periods (PeriodScript.final script_outcome)).
Proof.
  apply (closed_periods_count_senders Sample.no_files
           (Sample.export script_batch) script_batch).
  - reflexivity.
  - reflexivity.
Defined.

(* ===================================================================== *)
(** * The order of dates *)
(* ===================================================================== *)

Lemma days_before_year_succ (y : Z) :
  days_before_year (y + 1)
  = (days_before_year y + 365 + (if is_leap y then 1 else 0))%Z.
Proof.
  unfold days_before_year, is_leap. cbv zeta.
  replace (y + 1 - 1)%Z with y by lia.
  destruct (y mod 4 =? 0)%Z eqn:E4; destruct (y mod 100 =? 0)%Z eqn:E100;
    destruct (y mod 400 =? 0)%Z eqn:E400; simpl;
    rewrite ?Z.eqb_eq, ?Z.eqb_neq in *;
    Z.div_mod_to_equations; lia.
Qed.

Lemma days_before_year_mono (y y' : Z) :
  (y <= y')%Z -> (days_before_year y <= days_before_year y')%Z.
Proof.
  unfold days_before_year. cbv zeta. intros H.
  Z.div_mod_to_equations. lia.
Qed.

Lemma month_cases (m : Z) :
  (1 <= m <= 12)%Z ->
  (m = 1 \/ m = 2 \/ m = 3 \/ m = 4 \/ m = 5 \/ m = 6 \/ m = 7 \/ m = 8
   \/ m = 9 \/ m = 10 \/ m = 11 \/ m = 12)%Z.
Proof. lia. Qed.

#[local] Opaque is_leap.

(** Names the days before a month and the days in a month of the goal and
    computes them, once the month is known and the year is known to be a
    leap year or not. *)
Ltac eval_calendar L :=
  repeat match goal with
         | H : context [days_in_month ?y ?m] |- _ =>
             let D := fresh "D" in
             let E := fresh "E" in
             remember (days_in_month y m) as D eqn:E;
             unfold days_in_month in E; simpl in E;
             rewrite ?L in E; simpl in E
         | |- context [days_before_month ?y ?m] =>
             let B := fresh "B" in
             let E := fresh "E" in
             remember (days_before_month y m) as B eqn:E;
             unfold days_before_month in E; simpl in E;
             unfold days_in_month in E; simpl in E;
             rewrite ?L in E; simpl in E
         end.

(** The day of the year of a date in range. *)
Lemma day_of_year_bounds (y m d : Z) :
  (1 <= m <= 12)%Z -> (1 <= d <= days_in_month y m)%Z ->
  (1 <= days_before_month y m + d <= 365 + (if is_leap y then 1 else 0))%Z.
Proof.
  intros Hm Hd. apply month_cases in Hm.
  destruct (is_leap y) eqn:L;
    repeat (destruct Hm as [-> | Hm]); try subst m;
    eval_calendar L; lia.
Qed.

Lemma day_of_year_order (y m d m' d' : Z) :
  (1 <= m <= 12)%Z -> (1 <= d <= days_in_month y m)%Z ->
  (1 <= m' <= 12)%Z -> (1 <= d' <= days_in_month y m')%Z ->
  (days_before_month y m + d < days_before_month y m' + d'
   <-> m < m' \/ (m = m' /\ d < d'))%Z.
Proof.
  intros Hm Hd Hm' Hd'. apply month_cases in Hm. apply month_cases in Hm'.
  destruct (is_leap y) eqn:L;
    repeat (destruct Hm as [-> | Hm]); try subst m;
    repeat (destruct Hm' as [-> | Hm']); try subst m';
    eval_calendar L; lia.
Qed.

#[local] Transparent is_leap.

Lemma toordinal_order (y m d y' m' d' : Z) :
  (1 <= m <= 12)%Z -> (1 <= d <= days_in_month y m)%Z ->
  (1 <= m' <= 12)%Z -> (1 <= d' <= days_in_month y' m')%Z ->
  (toordinal y m d < toordinal y' m' d'
   <-> y < y' \/ (y = y' /\ (m < m' \/ (m = m' /\ d < d'))))%Z.
Proof.
  intros Hm Hd Hm' Hd'. unfold toordinal.
  pose proof (day_of_year_bounds y m d Hm Hd) as B.
  pose proof (day_of_year_bounds y' m' d' Hm' Hd') as B'.
  destruct (Z.lt_trichotomy y y') as [Hlt | [Heq | Hgt]].
  - pose proof (days_before_year_succ y) as S1.
    pose proof (days_before_year_mono (y + 1) y' ltac:(lia)) as M1.
    split; [lia |]. intros _. destruct (is_leap y); lia.
  - subst y'. pose proof (day_of_year_order y m d m' d' Hm Hd Hm' Hd') as O.
    split; intros H.
    + right. split; [reflexivity |]. apply O. lia.
    + destruct H as [H | [_ H]]; [lia |]. apply O in H. lia.
  - pose proof (days_before_year_succ y') as S1.
    pose proof (days_before_year_mono (y' + 1) y ltac:(lia)) as M1.
    split; [| lia]. intros H. destruct (is_leap y'); lia.
Qed.

Lemma toordinal_eq (y m d y' m' d' : Z) :
  (1 <= m <= 12)%Z -> (1 <= d <= days_in_month y m)%Z ->
  (1 <= m' <= 12)%Z -> (1 <= d' <= days_in_month y' m')%Z ->
  (toordinal y m d = toordinal y' m' d' <-> y = y' /\ m = m' /\ d = d')%Z.
Proof.
  intros Hm Hd Hm' Hd'.
  pose proof (toordinal_order y m d y' m' d' Hm Hd Hm' Hd') as O1.
  pose proof (toordinal_order y' m' d' y m d Hm' Hd' Hm Hd) as O2.
  split; [| intros [-> [-> ->]]; reflexivity].
  intros E. lia.
Qed.

Lemma parse_date_in_range (x : json) (t : datetime) :
  parse_date x = Ok t -> in_range t.
Proof.
  destruct x; simpl; try discriminate. unfold strptime, make_datetime.
  destruct (match_format (chars s))
    as [[[[[[[gY gm] gd] gH] gM] gS] rest] |]; [| discriminate].
  destruct rest; [| discriminate].
  match goal with |- (if ?c then _ else _) = _ -> _ => destruct c eqn:E end;
    [| discriminate].
  intros H. inversion H; subst. unfold in_range. simpl.
  rewrite !andb_true_iff, !Z.leb_le in E. lia.
Qed.

(** X16: for two dates that parse, the order that [sorted] and the period
    test use is the order of the fields: a date is earlier when its year
    is smaller; in the same year, when its month is smaller; and so on
    down to the second.  Every date that parses is in the ranges of the
    calendar. *)
Theorem dates_compare_by_fields (x y : json) (a b : datetime) :
  parse_date x = Ok a -> parse_date y = Ok b ->
  in_range a /\ in_range b
  /\ (datetime_ltb a b = true <-> earlier a b)
  /\ (same_instant a b = true <-> a = b).
Proof.
  intros Ha Hb. apply parse_date_in_range in Ha, Hb.
  split; [exact Ha | split; [exact Hb |]].
  destruct a as [ya ma da ha mia sa], b as [yb mb db hb mib sb].
  unfold in_range in Ha, Hb. simpl in Ha, Hb.
  pose proof (toordinal_order ya ma da yb mb db
                ltac:(lia) ltac:(lia) ltac:(lia) ltac:(lia)) as O.
  pose proof (toordinal_eq ya ma da yb mb db
                ltac:(lia) ltac:(lia) ltac:(lia) ltac:(lia)) as Q.
  pose proof (toordinal_order yb mb db ya ma da
                ltac:(lia) ltac:(lia) ltac:(lia) ltac:(lia)) as O'.
  split.
  - unfold datetime_ltb, earlier. rewrite instant_ltb_lt. simpl. lia.
  - unfold same_instant, datetime_ltb.
    rewrite andb_true_iff, !negb_true_iff, !instant_ltb_ge. simpl.
    split.
    + intros H.
      assert (ya = yb /\ ma = mb /\ da = db) as [-> [-> ->]] by lia.
      assert (ha = hb /\ mia = mib /\ sa = sb) as [-> [-> ->]] by lia.
      reflexivity.
    + intros E. inversion E; subst. lia.
Qed.

Lemma dates_compare_by_fields_witness :
  let a := mkdatetime 2024 2 29 23 59 59 in
  let b := mkdatetime 2024 3 1 0 0 0 in
  in_range a /\ in_range b
  /\ (datetime_ltb a b = true <-> earlier a b)
  /\ (same_instant a b = true <-> a = b).
Proof.
  apply (dates_compare_by_fields (JStr "2024-02-29T23:59:59")
           (JStr "2024-03-01T00:00:00")).
  - reflexivity.
  - reflexivity.
Defined.

(* ===================================================================== *)
(** * The field the analyzer never writes *)
(* ===================================================================== *)

Lemma lookup_In {K V : Type} (eqb : K -> K -> bool) (k : K) (v : V)
    (d : list (K * V)) :
  lookup eqb k d = Some v -> exists k', In (k', v) d.
Proof.
  induction d as [| [k' v'] d IH]; simpl; [discriminate |].
  destruct (eqb k k').
  - intros H. inversion H; subst. exists k'. left. reflexivity.
  - intros H. destruct (IH H) as [k'' Hin]. exists k''. right. exact Hin.
Qed.

(** X17: the analyzer never writes the [words] field: after an analysis
    that returns, it is 0 in the record of every date and sender, however
    many tokens the record holds. *)
Theorem words_never_written
    (self : ChatAnalyzer.analyzer) (fs : filesystem) (data : json)
    (dc : ChatAnalyzer.daily_counts) (n : nat) :
  ChatAnalyzer.analyze_chat self fs data = Ok (dc, n) ->
  forall d k, ChatAnalyzer.words (stats_of dc d k) = 0.
Proof.
  intros H d k. pose proof (words_stay_zero self fs data dc n H) as Hz.
  unfold words_all_zero in Hz. unfold stats_of.
  destruct (lookup date_eqb d dc) as [senders |] eqn:Hd; [| reflexivity].
  destruct (lookup key_eqb k senders) as [st |] eqn:Hk; [| reflexivity].
  apply lookup_In in Hd. destruct Hd as [d' Hd].
  apply lookup_In in Hk. destruct Hk as [k' Hk].
  rewrite Forall_forall in Hz. specialize (Hz _ Hd). simpl in Hz.
  rewrite Forall_forall in Hz. apply (Hz _ Hk).
Qed.

Lemma words_never_written_witness :
  ChatAnalyzer.words (stats_of sample_counts (mkdate 2024 1 2) (KStr "B")) = 0.
Proof.
  apply (words_never_written Sample.nouns sample_files
           (Sample.export sample_batch) sample_counts 1).
  reflexivity.
Defined.
